(** * bakker: checkpoints of a filesystem subtree

    A shallow embedding of [bakker/checkpoint.py]: the node hierarchy
    ([TreeNode], [DirectoryNode], [FileNode], [SymlinkNode]), the builder
    that derives the checksums bottom-up, the dictionary (JSON)
    representation of a tree, the [Checkpoint] container with its
    traversal, and the textual encoding of [CheckpointMeta]; and of the
    configuration store of [bakker/config.py].

    Python values that travel through [from_dict] are dynamically typed,
    so they are modelled by the type [pyval]; exceptions are modelled by
    the error monad [res]; a Python [dict] is an insertion-ordered
    association list with pairwise distinct keys. *)

From Stdlib Require Import ZArith Ascii String List Bool Lia.
From stdpp Require Import base list sorting strings.

Set Warnings "-register-all,-abstract-large-number".

Open Scope string_scope.
Open Scope list_scope.

(** ** Python values and exceptions *)

(** The exceptions the modelled code can raise.  The texts of the messages
    are not modelled, only the class of the exception ([KeyError] keeps the
    missing key). *)
Inductive exn : Type :=
| KeyError (key : string)
| TypeError
| ValueError
| IndexError
| AssertionError
| AttributeError
| RecursionError
| OSError.

Inductive res (A : Type) : Type :=
| OK (a : A)
| Raise (e : exn).
Arguments OK {A} a.
Arguments Raise {A} e.

#[global] Instance res_ret : MRet res := fun A a => OK a.
#[global] Instance res_bind : MBind res := fun A B f m =>
  match m with
  | OK a => f a
  | Raise e => Raise e
  end.

Definition raises {A} (r : res A) : Prop :=
  match r with
  | OK _ => False
  | Raise _ => True
  end.

(** The values [json.loads] produces, floating-point numbers apart.
    The keys of a JSON object are strings. *)
Inductive pyval : Type :=
| PNone
| PBool (b : bool)
| PInt (z : Z)
| PStr (s : string)
| PList (l : list pyval)
| PDict (kvs : list (string * pyval)).

Fixpoint assoc {V} (k : string) (kvs : list (string * V)) : option V :=
  match kvs with
  | [] => None
  | (k', v) :: rest => if String.eqb k' k then Some v else assoc k rest
  end.

(** [d[k]] for a string [k]: a [KeyError] on a dict without the key, a
    [TypeError] on every other value (a list or a string is not indexed by
    a string, [None] and numbers are not subscriptable). *)
Definition subscript (d : pyval) (k : string) : res pyval :=
  match d with
  | PDict kvs =>
      match assoc k kvs with
      | Some v => OK v
      | None => Raise (KeyError k)
      end
  | _ => Raise TypeError
  end.

(** [v == s] for a string literal [s]. *)
Definition py_eq_str (v : pyval) (s : string) : bool :=
  match v with
  | PStr s' => String.eqb s' s
  | _ => false
  end.

Fixpoint chars (s : string) : list string :=
  match s with
  | EmptyString => []
  | String c s' => String c EmptyString :: chars s'
  end.

(** [for x in v]: the elements of a list, the keys of a dict, the
    characters of a string (each a string again; strings are byte strings
    here, so a character outside ASCII counts byte by byte); other values
    are not iterable. *)
Definition py_iter (v : pyval) : res (list pyval) :=
  match v with
  | PList l => OK l
  | PDict kvs => OK (map (fun kv => PStr (fst kv)) kvs)
  | PStr s => OK (map PStr (chars s))
  | _ => Raise TypeError
  end.

(** ** Dictionaries

    Python's [dict] keeps its keys in insertion order; storing under a key
    that is already present replaces the value and leaves the key where it
    was. *)

Definition hashable (v : pyval) : bool :=
  match v with
  | PList _ | PDict _ => false
  | _ => true
  end.

Definition py_num (v : pyval) : option Z :=
  match v with
  | PBool b => Some (if b then 1 else 0)%Z
  | PInt z => Some z
  | _ => None
  end.

(** Equality of hashable values as dictionary keys ([True == 1]). *)
Definition key_eqb (a b : pyval) : bool :=
  match a, b with
  | PNone, PNone => true
  | PStr s, PStr t => String.eqb s t
  | _, _ =>
      match py_num a, py_num b with
      | Some x, Some y => Z.eqb x y
      | _, _ => false
      end
  end.

Section Dict.
Context {K V : Type} (eqb : K -> K -> bool).

Fixpoint dict_setitem (k : K) (v : V) (d : list (K * V)) : list (K * V) :=
  match d with
  | [] => [(k, v)]
  | (k', v') :: rest =>
      if eqb k' k then (k', v) :: rest
      else (k', v') :: dict_setitem k v rest
  end.

Fixpoint dict_getitem (k : K) (d : list (K * V)) : option V :=
  match d with
  | [] => None
  | (k', v') :: rest => if eqb k' k then Some v' else dict_getitem k rest
  end.

Definition dict_keys (d : list (K * V)) : list K := map fst d.
Definition dict_values (d : list (K * V)) : list V := map snd d.
End Dict.

(** ** The node hierarchy *)

(** [name], [checksum] and [permissions] hold whatever the constructor was
    given: the builder stores a string, a hexadecimal digest and an
    integer, [from_dict] stores the fields of the document as they are. *)
Inductive TreeNode : Type :=
| DirectoryNode (name checksum permissions : pyval)
    (children : list (pyval * TreeNode))
| FileNode (name checksum permissions : pyval)
| SymlinkNode (name checksum permissions : pyval).

Definition node_name (n : TreeNode) : pyval :=
  match n with
  | DirectoryNode name _ _ _ | FileNode name _ _ | SymlinkNode name _ _ => name
  end.

Definition node_checksum (n : TreeNode) : pyval :=
  match n with
  | DirectoryNode _ c _ _ | FileNode _ c _ | SymlinkNode _ c _ => c
  end.

Definition node_permissions (n : TreeNode) : pyval :=
  match n with
  | DirectoryNode _ _ p _ | FileNode _ _ p | SymlinkNode _ _ p => p
  end.

Definition isinstance_DirectoryNode (n : TreeNode) : bool :=
  match n with
  | DirectoryNode _ _ _ _ => true
  | _ => false
  end.

(** [to_dict] of the three classes, dispatched on the class of [self]. *)
Fixpoint to_dict (self : TreeNode) : pyval :=
  match self with
  | DirectoryNode name checksum permissions children =>
      PDict [("name", name);
             ("checksum", checksum);
             ("permissions", permissions);
             ("children", PList (map (fun kv => to_dict (snd kv)) children));
             ("type", PStr "directory")]
  | FileNode name checksum permissions =>
      PDict [("name", name);
             ("checksum", checksum);
             ("permissions", permissions);
             ("type", PStr "file")]
  | SymlinkNode name checksum permissions =>
      PDict [("name", name);
             ("checksum", checksum);
             ("permissions", permissions);
             ("type", PStr "symlink")]
  end.

(** *** Decoding *)

Definition FileNode_from_dict (d : pyval) : res TreeNode :=
  name ← subscript d "name";
  checksum ← subscript d "checksum";
  permissions ← subscript d "permissions";
  OK (FileNode name checksum permissions).

Definition SymlinkNode_from_dict (d : pyval) : res TreeNode :=
  name ← subscript d "name";
  checksum ← subscript d "checksum";
  permissions ← subscript d "permissions";
  OK (SymlinkNode name checksum permissions).

Section FromDict.
(** The recursive call [TreeNode.from_dict]. *)
Variable from_dict : pyval -> res TreeNode.

(** [{child['name']: TreeNode.from_dict(child) for child in ...}]: for
    each element the key is evaluated, then the value, then the pair is
    stored (an unhashable key is a [TypeError]). *)
Fixpoint dict_comprehension (items : list pyval)
    (acc : list (pyval * TreeNode)) : res (list (pyval * TreeNode)) :=
  match items with
  | [] => OK acc
  | child :: rest =>
      k ← subscript child "name";
      v ← from_dict child;
      if hashable k
      then dict_comprehension rest (dict_setitem key_eqb k v acc)
      else Raise TypeError
  end.

Definition DirectoryNode_from_dict (d : pyval) : res TreeNode :=
  name ← subscript d "name";
  checksum ← subscript d "checksum";
  permissions ← subscript d "permissions";
  cs ← subscript d "children";
  items ← py_iter cs;
  children ← dict_comprehension items [];
  OK (DirectoryNode name checksum permissions children).

Definition from_dict_body (d : pyval) : res TreeNode :=
  ty ← subscript d "type";
  if py_eq_str ty "directory" then DirectoryNode_from_dict d
  else if py_eq_str ty "file" then FileNode_from_dict d
  else if py_eq_str ty "symlink" then SymlinkNode_from_dict d
  else (_ ← subscript d "name"; Raise TypeError).
End FromDict.

(** The nesting depth of a value bounds the recursion of [from_dict]. *)
Fixpoint depth (v : pyval) : nat :=
  match v with
  | PList l => S (fold_right (fun c m => Nat.max (depth c) m) 0 l)
  | PDict kvs => S (fold_right (fun kv m => Nat.max (depth (snd kv)) m) 0 kvs)
  | _ => 0
  end.

Fixpoint from_dict_fuel (fuel : nat) (d : pyval) : res TreeNode :=
  match fuel with
  | 0 => Raise RecursionError
  | S fuel' => from_dict_body (from_dict_fuel fuel') d
  end.

(** [TreeNode.from_dict]: the calls nest as deep as the document does, so
    a fuel above [depth d] is never used up ([TreeNode_from_dict_unfold]). *)
Definition TreeNode_from_dict (d : pyval) : res TreeNode :=
  from_dict_fuel (S (depth d)) d.

(** ** The filesystem the builder reads

    The builder consults the operating system by path.  Here the entry
    found at a path is a value of [fsentry], and the [os] functions are
    functions of that entry.  A symbolic link records the text it points
    to and what following it leads to, which is all that [os.path.isfile]
    and [os.path.isdir] look at. *)

Inductive link_target : Type :=
| ToFile
| ToDirectory
| ToOther
| Dangling.

Inductive fsentry : Type :=
| FsFile (st_mode : Z) (content : string)
| FsDir (st_mode : Z) (listing : list (string * fsentry))
| FsSymlink (st_mode : Z) (points_to : string) (resolves : link_target)
| FsOther (st_mode : Z).

Definition os_path_islink (e : fsentry) : bool :=
  match e with
  | FsSymlink _ _ _ => true
  | _ => false
  end.

(** [os.path.isfile] and [os.path.isdir] follow symbolic links. *)
Definition os_path_isfile (e : fsentry) : bool :=
  match e with
  | FsFile _ _ => true
  | FsSymlink _ _ ToFile => true
  | _ => false
  end.

Definition os_path_isdir (e : fsentry) : bool :=
  match e with
  | FsDir _ _ => true
  | FsSymlink _ _ ToDirectory => true
  | _ => false
  end.

(** [os.lstat(path).st_mode]: the mode of the entry itself. *)
Definition lstat_st_mode (e : fsentry) : Z :=
  match e with
  | FsFile m _ | FsDir m _ | FsSymlink m _ _ | FsOther m => m
  end.

(** [stat.S_IMODE]: the permission bits, [mode & 0o7777]. *)
Definition S_IMODE (mode : Z) : Z := Z.land mode 4095.

Definition startswith_slash (s : string) : bool :=
  match s with
  | String c _ => Ascii.eqb c "/"
  | EmptyString => false
  end.

Fixpoint endswith_slash (s : string) : bool :=
  match s with
  | EmptyString => false
  | String c EmptyString => Ascii.eqb c "/"
  | String _ rest => endswith_slash rest
  end.

(** [os.path.join(a, b)] of [posixpath], for two components. *)
Definition os_path_join (a b : string) : string :=
  if startswith_slash b then b
  else if (String.length a =? 0)%nat || endswith_slash a then a +:+ b
  else a +:+ "/" +:+ b.

Fixpoint str_take (n : nat) (s : string) : string :=
  match n, s with
  | S n', String c rest => String c (str_take n' rest)
  | _, _ => EmptyString
  end.

Fixpoint str_drop (n : nat) (s : string) : string :=
  match n, s with
  | S n', String _ rest => str_drop n' rest
  | _, _ => s
  end.

(** Python compares strings by code point; on UTF-8 text that is the
    byte-wise lexicographic order of [String.leb]. *)
Definition str_le (s1 s2 : string) : Prop := String.leb s1 s2 = true.

#[global] Instance str_le_dec : RelDecision str_le :=
  fun s1 s2 => bool_eq_dec (String.leb s1 s2) true.

(** [sorted] on a list of strings. *)
Definition sorted (l : list string) : list string := merge_sort str_le l.

(** ** The builder *)

Definition BLOCKSIZE : nat := 65536.

Section Builder.
(** The streaming 64-bit hash of the [xxhash] package: a fresh state,
    [update] with a byte string and [hexdigest]. *)
Context {hstate : Type}.
Variable xxh64 : hstate.
Variable update : hstate -> string -> hstate.
Variable hexdigest : hstate -> string.

(** [message.update(v)] for a value [v] that has to be a string. *)
Definition update_py (message : hstate) (v : pyval) : res hstate :=
  match v with
  | PStr s => OK (update message s)
  | _ => Raise TypeError
  end.

(** The read loop of [FileNode.build_node]: [file_buffer] is the chunk
    last read and [f] what the file object has not delivered yet.  Every
    round consumes a non-empty chunk, so a fuel of the length of the file
    is enough ([read_loop_returns]). *)
Fixpoint read_loop (fuel : nat) (message : hstate) (file_buffer f : string)
    : option hstate :=
  if (String.length file_buffer =? 0)%nat then Some message
  else
    match fuel with
    | 0 => None
    | S fuel' =>
        read_loop fuel' (update message file_buffer)
          (str_take BLOCKSIZE f) (str_drop BLOCKSIZE f)
    end.

(** [FileNode.build_node].  Past the two assertions the entry is a regular
    file, and the read loop has fuel enough: the two [OSError] branches are
    never taken. *)
Definition FileNode_build_node (e : fsentry) (path name : string)
    : res TreeNode :=
  if negb (os_path_isfile e) then Raise AssertionError
  else if os_path_islink e then Raise AssertionError
  else
    let permissions := S_IMODE (lstat_st_mode e) in
    match e with
    | FsFile _ content =>
        match read_loop (String.length content) xxh64
                (str_take BLOCKSIZE content) (str_drop BLOCKSIZE content) with
        | Some message =>
            let checksum := hexdigest message in
            OK (FileNode (PStr name) (PStr checksum) (PInt permissions))
        | None => Raise OSError
        end
    | _ => Raise OSError
    end.

(** [SymlinkNode.build_node]; [os.readlink] gives the text of the link. *)
Definition SymlinkNode_build_node (e : fsentry) (path name : string)
    : res TreeNode :=
  if negb (os_path_islink e) then Raise AssertionError
  else
    let permissions := S_IMODE (lstat_st_mode e) in
    match e with
    | FsSymlink _ points_to _ =>
        let message := update xxh64 points_to in
        let checksum := hexdigest message in
        OK (SymlinkNode (PStr name) (PStr checksum) (PInt permissions))
    | _ => Raise OSError
    end.

(** What a call of the builder gives: its result or exception, and the
    lines it printed. *)
Definition built (A : Type) : Type := (res A * list string)%type.

(** [children[child_name].checksum] for every name of [names];
    [None] has no attribute [checksum]. *)
Fixpoint child_checksums_of (children : list (string * option TreeNode))
    (names : list string) : res (list pyval) :=
  match names with
  | [] => OK []
  | child_name :: rest =>
      match dict_getitem String.eqb child_name children with
      | Some (Some node) =>
          digests ← child_checksums_of children rest;
          OK (node_checksum node :: digests)
      | Some None => Raise AttributeError
      | None => Raise (KeyError child_name)
      end
  end.

(** [for child_digest in child_checksums: message.update(child_digest)]. *)
Fixpoint update_all (message : hstate) (digests : list pyval) : res hstate :=
  match digests with
  | [] => OK message
  | child_digest :: rest =>
      message' ← update_py message child_digest;
      update_all message' rest
  end.

(** The children as the constructor of [DirectoryNode] receives them.
    The checksum loop has run over every key before, so no value is
    [None] here. *)
Fixpoint children_dict (children : list (string * option TreeNode))
    : res (list (pyval * TreeNode)) :=
  match children with
  | [] => OK []
  | (child_name, Some node) :: rest =>
      d ← children_dict rest;
      OK ((PStr child_name, node) :: d)
  | (_, None) :: _ => Raise AttributeError
  end.

Section Directory.
(** The recursive call [TreeNode.build_node]. *)
Variable build_node : fsentry -> string -> string -> built (option TreeNode).
Variable path : string.

(** The loop over [os.listdir(path)]. *)
Fixpoint listdir_loop (listing : list (string * fsentry))
    (children : list (string * option TreeNode)) (out : list string)
    : built (list (string * option TreeNode)) :=
  match listing with
  | [] => (OK children, out)
  | (child_name, child) :: rest =>
      let child_path := os_path_join path child_name in
      if negb (os_path_isfile child) && negb (os_path_isdir child)
      then listdir_loop rest children (out ++ ["Ignored: " +:+ child_path])
      else
        match build_node child child_path child_name with
        | (OK node, printed) =>
            listdir_loop rest
              (dict_setitem String.eqb child_name node children)
              (out ++ printed)
        | (Raise e, printed) => (Raise e, out ++ printed)
        end
  end.

(** The body of [DirectoryNode.build_node] once [path] is known to be
    a directory with mode [st_mode] and listing [listing]. *)
Definition DirectoryNode_build (st_mode : Z)
    (listing : list (string * fsentry)) (name : string) : built TreeNode :=
  let permissions := S_IMODE st_mode in
  match listdir_loop listing [] [] with
  | (Raise e, out) => (Raise e, out)
  | (OK children, out) =>
      (child_checksums ←
         child_checksums_of children (sorted (dict_keys children));
       message ← update_all xxh64 child_checksums;
       let checksum := hexdigest message in
       nodes ← children_dict children;
       OK (DirectoryNode (PStr name) (PStr checksum) (PInt permissions)
             nodes),
       out)
  end.
End Directory.

(** A node built without printing. *)
Definition wrap_node (r : res TreeNode) : built (option TreeNode) :=
  (n ← r; OK (Some n), []).

(** [TreeNode.build_node]: the dispatch on the kind of the entry; an entry
    of no known kind prints a line and gives [None]. *)
Fixpoint TreeNode_build_node (e : fsentry) (path name : string)
    {struct e} : built (option TreeNode) :=
  if os_path_islink e then wrap_node (SymlinkNode_build_node e path name)
  else if os_path_isfile e then wrap_node (FileNode_build_node e path name)
  else if os_path_isdir e then
    match e with
    | FsDir st_mode listing =>
        match DirectoryNode_build TreeNode_build_node path
                st_mode listing name with
        | (r, out) => (n ← r; OK (Some n), out)
        end
    | _ => (Raise OSError, [])
    end
  else (OK None, ["Could not backup: " +:+ path]).

(** [DirectoryNode.build_node] called on its own.  A directory reached
    through a symbolic link has no listing in [fsentry]; the dispatch of
    [TreeNode.build_node] never asks for one. *)
Definition DirectoryNode_build_node (e : fsentry) (path name : string)
    : built TreeNode :=
  if negb (os_path_isdir e) then (Raise AssertionError, [])
  else
    match e with
    | FsDir st_mode listing =>
        DirectoryNode_build TreeNode_build_node path st_mode listing name
    | _ => (Raise OSError, [])
    end.

(** The node [TreeNode.build_node] returns for an entry, if any. *)
Definition built_node (e : fsentry) (path name : string) : option TreeNode :=
  match fst (TreeNode_build_node e path name) with
  | OK r => r
  | Raise _ => None
  end.

(** The children that pass the guard of the listing loop, with what the
    loop stores for them, in the order of the listing. *)
Definition built_children (path : string) (listing : list (string * fsentry))
    : list (string * option TreeNode) :=
  map (fun ne => (fst ne,
                  built_node (snd ne) (os_path_join path (fst ne)) (fst ne)))
    (List.filter
       (fun ne => os_path_isfile (snd ne) || os_path_isdir (snd ne))
       listing).
End Builder.

(** ** Time stamps *)

(** A naive [datetime] (no time zone), as [datetime.now()] returns it. *)
Record datetime : Type := mk_datetime {
  year : Z;
  month : Z;
  day : Z;
  hour : Z;
  minute : Z;
  second : Z;
  microsecond : Z
}.

Definition is_leap (y : Z) : bool :=
  ((y mod 4 =? 0) && negb (y mod 100 =? 0) || (y mod 400 =? 0))%Z.

Definition days_in_month (y m : Z) : Z :=
  (match m with
   | 2 => if is_leap y then 29 else 28
   | 4 | 6 | 9 | 11 => 30
   | _ => 31
   end)%Z.

(** The values the class [datetime] admits. *)
Definition valid_datetime (t : datetime) : bool :=
  ((1 <=? year t) && (year t <=? 9999) &&
   (1 <=? month t) && (month t <=? 12) &&
   (1 <=? day t) && (day t <=? days_in_month (year t) (month t)) &&
   (0 <=? hour t) && (hour t <? 24) &&
   (0 <=? minute t) && (minute t <? 60) &&
   (0 <=? second t) && (second t <? 60) &&
   (0 <=? microsecond t) && (microsecond t <? 1000000))%Z.

Definition digit_char (d : Z) : ascii := ascii_of_N (Z.to_N (48 + d)).

(** [n] printed with [width] decimal digits, zero padded ([%0<width>d]
    for a number of at most [width] digits). *)
Fixpoint zero_padded (width : nat) (n : Z) : string :=
  match width with
  | 0 => EmptyString
  | S w =>
      zero_padded w (n / 10) +:+ String (digit_char (n mod 10)) EmptyString
  end.

(** [datetime.isoformat()] of a naive value: [YYYY-MM-DDTHH:MM:SS], and
    [.ffffff] after it when the microsecond is not zero. *)
Definition isoformat (t : datetime) : string :=
  zero_padded 4 (year t) +:+ "-" +:+ zero_padded 2 (month t) +:+ "-" +:+
  zero_padded 2 (day t) +:+ "T" +:+ zero_padded 2 (hour t) +:+ ":" +:+
  zero_padded 2 (minute t) +:+ ":" +:+ zero_padded 2 (second t) +:+
  (if (microsecond t =? 0)%Z then ""
   else "." +:+ zero_padded 6 (microsecond t)).

(** Modelled from the spec: the value of a decimal digit, for the parser
    [datetime_from_iso_format] of [bakker/utils.py] (not among the
    sources). *)
Definition digit_value (c : ascii) : option Z :=
  let n := Z.of_N (N_of_ascii c) in
  if ((48 <=? n) && (n <=? 57))%Z then Some (n - 48)%Z else None.

(** Modelled from the spec: a field of the time stamp for the parser
    [datetime_from_iso_format]; exactly [width] decimal digits at the head
    of [s], their value (after the digits already read, [acc]) and the
    rest of [s]. *)
Fixpoint read_digits (width : nat) (acc : Z) (s : string)
    : option (Z * string) :=
  match width with
  | 0 => Some (acc, s)
  | S w =>
      match s with
      | String c rest =>
          d ← digit_value c;
          read_digits w (10 * acc + d)%Z rest
      | EmptyString => None
      end
  end.

(** Modelled from the spec: a separator of the time stamp for the parser
    [datetime_from_iso_format]. *)
Definition expect (c : ascii) (s : string) : option string :=
  match s with
  | String c' rest => if Ascii.eqb c' c then Some rest else None
  | EmptyString => None
  end.

(** Modelled from the spec: the ISO-8601 text [YYYY-MM-DDTHH:MM:SS] with
    or without a fraction of six digits after it, read into a value that
    [datetime] admits; the body of the parser
    [datetime_from_iso_format]. *)
Definition parse_iso (s : string) : option datetime :=
  '(y, s) ← read_digits 4 0 s;
  s ← expect "-" s;
  '(mo, s) ← read_digits 2 0 s;
  s ← expect "-" s;
  '(d, s) ← read_digits 2 0 s;
  s ← expect "T" s;
  '(h, s) ← read_digits 2 0 s;
  s ← expect ":" s;
  '(mi, s) ← read_digits 2 0 s;
  s ← expect ":" s;
  '(sec, s) ← read_digits 2 0 s;
  '(us, s) ←
    match s with
    | EmptyString => Some (0%Z, s)
    | _ => s ← expect "." s; read_digits 6 0 s
    end;
  match s with
  | EmptyString =>
      let t := mk_datetime y mo d h mi sec us in
      if valid_datetime t then Some t else None
  | _ => None
  end.

(** Modelled from the spec: [datetime_from_iso_format] of [bakker/utils.py],
    which is not among the sources.  It parses an ISO-8601 time stamp with
    or without a fractional-seconds component; an absent fraction is zero
    microseconds; a text that is no such time stamp is an error. *)
Definition datetime_from_iso_format (s : string) : res datetime :=
  match parse_iso s with
  | Some t => OK t
  | None => Raise ValueError
  end.

(** ** Checkpoint *)

Record Checkpoint : Type := mk_Checkpoint {
  root : TreeNode;
  time : datetime;
  name : option string
}.

Definition in_range (lo hi c : ascii) : bool :=
  ((nat_of_ascii lo <=? nat_of_ascii c) && (nat_of_ascii c <=? nat_of_ascii hi))%nat.

(** The character class [[a-zA-Z0-9_\-.]]. *)
Definition name_char (c : ascii) : bool :=
  in_range "a" "z" c || in_range "A" "Z" c || in_range "0" "9" c ||
  Ascii.eqb c "_" || Ascii.eqb c "-" || Ascii.eqb c ".".

Definition newline : ascii := ascii_of_nat 10.

(** [$] without [re.MULTILINE] matches at the end of the text and just
    before a line feed that is the last character of the text. *)
Definition re_dollar (rest : string) : bool :=
  match rest with
  | EmptyString => true
  | String c EmptyString => Ascii.eqb c newline
  | _ => false
  end.

(** [[class]*$]: the class holds no line feed, so [$] can only match after
    the longest run of class characters. *)
Fixpoint re_class_star_dollar (s : string) : bool :=
  match s with
  | String c rest =>
      if name_char c then re_class_star_dollar rest else re_dollar s
  | EmptyString => re_dollar s
  end.

(** The truth of [re.match('^[a-zA-Z0-9_\-.]+$', name)]. *)
Definition re_match_name (name : string) : bool :=
  match name with
  | String c rest => name_char c && re_class_star_dollar rest
  | EmptyString => false
  end.

(** [Checkpoint(root, time, name)]; [now] is what [datetime.now()] gives. *)
Definition Checkpoint_init (now : datetime) (root : TreeNode)
    (time : option datetime) (name : option string) : res Checkpoint :=
  let name_ok :=
    match name with
    | None => true
    | Some s => re_match_name s
    end in
  if negb name_ok then Raise AssertionError
  else
    OK (mk_Checkpoint root
          (match time with None => now | Some t => t end)
          name).

(** *** Traversal *)

(** How a generator ends: exhausted, by an exception, or (for the fuelled
    loop only) still running. *)
Inductive gen_end : Type :=
| Exhausted
| Raised (e : exn)
| Unfinished.

(** [stack.pop()] on a non-empty list: the last element and the list
    without it. *)
Fixpoint list_pop {A} (l : list A) : option (A * list A) :=
  match l with
  | [] => None
  | [x] => Some (x, [])
  | x :: rest =>
      match list_pop rest with
      | Some (y, rest') => Some (y, x :: rest')
      | None => None
      end
  end.

(** [os.path.join(current_path, child_name)] with a key of the children
    dict: a key that is no string is a [TypeError]. *)
Definition join_key (current_path : string) (child_name : pyval) : res string :=
  match child_name with
  | PStr s => OK (os_path_join current_path s)
  | _ => Raise TypeError
  end.

(** The [for] loop over [current_node.children.items()]. *)
Fixpoint push_children (current_path : string)
    (items : list (pyval * TreeNode)) (stack : list (TreeNode * string))
    : res (list (TreeNode * string)) :=
  match items with
  | [] => OK stack
  | (child_name, child_node) :: rest =>
      p ← join_key current_path child_name;
      push_children current_path rest (stack ++ [(child_node, p)])
  end.

(** The [while] loop of [Checkpoint.iter]: the pairs it yields and how it
    ends. *)
Fixpoint iter_loop (fuel : nat) (stack : list (TreeNode * string))
    : list (TreeNode * string) * gen_end :=
  match list_pop stack with
  | None => ([], Exhausted)
  | Some ((current_node, current_path), stack') =>
      match fuel with
      | 0 => ([], Unfinished)
      | S fuel' =>
          let continue stack'' :=
            let '(yielded, e) := iter_loop fuel' stack'' in
            ((current_node, current_path) :: yielded, e) in
          match current_node with
          | DirectoryNode _ _ _ children =>
              match push_children current_path children stack' with
              | OK stack'' => continue stack''
              | Raise e => ([(current_node, current_path)], Raised e)
              end
          | _ => continue stack'
          end
      end
  end.

(** The number of nodes of a tree: every round of the loop yields one. *)
Fixpoint node_count (n : TreeNode) : nat :=
  match n with
  | DirectoryNode _ _ _ children =>
      S (fold_right (fun kv m => node_count (snd kv) + m) 0 children)
  | _ => 1
  end.

Definition Checkpoint_iter (self : Checkpoint)
    : list (TreeNode * string) * gen_end :=
  iter_loop (node_count (root self)) [(root self, "")].

(** ** CheckpointMeta *)

Record CheckpointMeta : Type := mk_CheckpointMeta {
  meta_checksum : string;
  meta_time : datetime;
  meta_name : option string
}.

Definition CheckpointMeta_to_string (self : CheckpointMeta) : string :=
  let timestring := isoformat (meta_time self) in
  let timestring :=
    timestring +:+
    (if (String.length timestring =? 19)%nat then ".000000" else "") in
  meta_checksum self +:+ "_" +:+ timestring +:+
  match meta_name self with
  | Some n => if (String.length n =? 0)%nat then "" else "_" +:+ n
  | None => ""
  end.

(** The text before the first [sep] and the text after it. *)
Fixpoint cut (sep : ascii) (s : string) : option (string * string) :=
  match s with
  | EmptyString => None
  | String c rest =>
      if Ascii.eqb c sep then Some (EmptyString, rest)
      else
        match cut sep rest with
        | Some (before, after) => Some (String c before, after)
        | None => None
        end
  end.

(** [s.split(sep, maxsplit)] for a separator of one character. *)
Fixpoint py_split (sep : ascii) (maxsplit : nat) (s : string) : list string :=
  match maxsplit with
  | 0 => [s]
  | S m =>
      match cut sep s with
      | Some (before, after) => before :: py_split sep m after
      | None => [s]
      end
  end.

Definition CheckpointMeta_from_string (string : string) : res CheckpointMeta :=
  let boom := py_split "_" 2 string in
  checksum ← match boom with c :: _ => OK c | [] => Raise IndexError end;
  time ← match boom with
         | _ :: t :: _ => datetime_from_iso_format t
         | _ => Raise IndexError
         end;
  let name :=
    if (List.length boom =? 2)%nat then None
    else match boom with _ :: _ :: n :: _ => Some n | _ => None end in
  OK (mk_CheckpointMeta checksum time name).

(** ** Predicates and reference definitions of the properties *)

(** The keys of a dict: hashable and pairwise different. *)
Fixpoint distinct_keys (ks : list pyval) : bool :=
  match ks with
  | [] => true
  | k :: rest =>
      hashable k && negb (existsb (key_eqb k) rest) && distinct_keys rest
  end.

(** The children of every directory of the tree have pairwise different
    names: the tree is one that a children mapping keyed by child name can
    hold. *)
Fixpoint sibling_names_distinct (n : TreeNode) : bool :=
  match n with
  | DirectoryNode _ _ _ children =>
      distinct_keys (map (fun kv => node_name (snd kv)) children) &&
      forallb (fun kv => sibling_names_distinct (snd kv)) children
  | _ => true
  end.

Definition is_str (v : pyval) : bool :=
  match v with
  | PStr _ => true
  | _ => false
  end.

(** Every key of every children dict of the tree is a string. *)
Fixpoint str_keys (n : TreeNode) : bool :=
  match n with
  | DirectoryNode _ _ _ children =>
      forallb (fun kv => is_str (fst kv) && str_keys (snd kv)) children
  | _ => true
  end.

Definition key_str (k : pyval) : string :=
  match k with
  | PStr s => s
  | _ => ""
  end.

(** The depth-first walk in which, below every directory, the child
    inserted last comes first: the node itself, then the walks of its
    children from the last one to the first one. *)
Fixpoint last_first_walk (n : TreeNode) (path : string)
    : list (TreeNode * string) :=
  (n, path) ::
  match n with
  | DirectoryNode _ _ _ children =>
      (fix later (items : list (pyval * TreeNode)) :=
         match items with
         | [] => []
         | (k, c) :: rest =>
             later rest ++ last_first_walk c (os_path_join path (key_str k))
         end) children
  | _ => []
  end.

(** The children of a directory node in lexicographic order of their
    names. *)
Definition child_name_le (a b : pyval * TreeNode) : Prop :=
  str_le (key_str (fst a)) (key_str (fst b)).

#[global] Instance child_name_le_dec : RelDecision child_name_le :=
  fun a b => str_le_dec (key_str (fst a)) (key_str (fst b)).

Definition children_in_name_order (children : list (pyval * TreeNode))
    : list (pyval * TreeNode) :=
  merge_sort child_name_le children.

Definition children_of (n : TreeNode) : list (pyval * TreeNode) :=
  match n with
  | DirectoryNode _ _ _ children => children
  | _ => []
  end.

(** The elements [DirectoryNode.from_dict] iterates over, the only values
    [TreeNode.from_dict] is called on again. *)
Definition child_items (d : pyval) : list pyval :=
  match subscript d "children" with
  | OK cs =>
      match py_iter cs with
      | OK items => items
      | Raise _ => []
      end
  | Raise _ => []
  end.

(** The type discriminator of the document is one of the three known. *)
Definition type_recognized (d : pyval) : bool :=
  match subscript d "type" with
  | OK ty =>
      py_eq_str ty "directory" || py_eq_str ty "file" || py_eq_str ty "symlink"
  | Raise _ => false
  end.

(** The value stored last under a key equal to [k] by a sequence of
    stores. *)
Fixpoint last_value {K V} (eqb : K -> K -> bool) (k : K)
    (stores : list (K * V)) : option V :=
  match stores with
  | [] => None
  | (k', v) :: rest =>
      match last_value eqb k rest with
      | Some w => Some w
      | None => if eqb k' k then Some v else None
      end
  end.

Definition store_all {K V} (eqb : K -> K -> bool)
    (stores : list (K * V)) (d : list (K * V)) : list (K * V) :=
  fold_left (fun acc kv => dict_setitem eqb (fst kv) (snd kv) acc) stores d.

(** Every child of the dict is stored under (a key equal to) its own name
    and is itself a tree with pairwise different sibling names. *)
Definition keyed_by_name (d : list (pyval * TreeNode)) : Prop :=
  Forall (fun kv => key_eqb (fst kv) (node_name (snd kv)) = true /\
                    sibling_names_distinct (snd kv) = true) d.

(** What holds of every node the builder returns for an entry called
    [name]. *)
Definition built_ok (name : string) (node : TreeNode) : Prop :=
  node_name node = PStr name /\
  is_str (node_checksum node) = true /\
  sibling_names_distinct node = true.

(** What holds of every entry of the children dict of the listing loop. *)
Definition stored_ok (kv : string * option TreeNode) : Prop :=
  exists node, snd kv = Some node /\ built_ok (fst kv) node.

(** The dispatch returns, and returns a node exactly for a symlink, a file
    or a directory. *)
Definition returns_ok {hstate : Type} (xxh64 : hstate)
    (update : hstate -> string -> hstate) (hexdigest : hstate -> string)
    (e : fsentry) : Prop :=
  forall path name, exists r out,
    TreeNode_build_node xxh64 update hexdigest e path name = (OK r, out) /\
    match r with
    | Some node =>
        os_path_islink e || os_path_isfile e || os_path_isdir e = true /\
        built_ok name node
    | None =>
        os_path_islink e || os_path_isfile e || os_path_isdir e = false
    end.

Section StoredChildren.
Context {hstate : Type}.
Variable xxh64 : hstate.
Variable update : hstate -> string -> hstate.
Variable hexdigest : hstate -> string.

(** The children of the directory node for a listing in which no name
    comes twice: for every entry that is a file or a directory, in the
    order of the listing, the node the dispatch builds for it, under its
    name. *)
Definition built_nodes (path : string) (listing : list (string * fsentry))
    : list (pyval * TreeNode) :=
  flat_map
    (fun ne =>
       match built_node xxh64 update hexdigest (snd ne)
               (os_path_join path (fst ne)) (fst ne) with
       | Some node => [(PStr (fst ne), node)]
       | None => []
       end)
    (List.filter (fun ne => os_path_isfile (snd ne) || os_path_isdir (snd ne))
       listing).

(** The child of the name [n], whatever the listing: the node the dispatch
    builds for the last entry of that name that is a file or a directory,
    if there is one. *)
Definition built_child (path : string) (listing : list (string * fsentry))
    (n : string) : option TreeNode :=
  match last_value String.eqb n
          (built_children xxh64 update hexdigest path listing) with
  | Some r => r
  | None => None
  end.
End StoredChildren.

(** What the loop of [Checkpoint.iter] yields from a stack: the walks of
    its elements from the top (the last element) down. *)
Fixpoint stack_walk (stack : list (TreeNode * string))
    : list (TreeNode * string) :=
  match stack with
  | [] => []
  | (n, p) :: rest => stack_walk rest ++ last_first_walk n p
  end.

Definition stack_count (stack : list (TreeNode * string)) : nat :=
  fold_right (fun np m => node_count (fst np) + m) 0 stack.

(** What the loop pushes for the children of a directory at [path]. *)
Definition pushed (path : string) (children : list (pyval * TreeNode))
    : list (TreeNode * string) :=
  map (fun kv => (snd kv, os_path_join path (key_str (fst kv)))) children.

Fixpoint has_char (c : ascii) (s : string) : bool :=
  match s with
  | EmptyString => false
  | String c' rest => Ascii.eqb c' c || has_char c rest
  end.

(** The time stamp with its six digits of microseconds, as
    [CheckpointMeta.to_string] writes it. *)
Definition iso_micro (t : datetime) : string :=
  zero_padded 4 (year t) +:+ "-" +:+ zero_padded 2 (month t) +:+ "-" +:+
  zero_padded 2 (day t) +:+ "T" +:+ zero_padded 2 (hour t) +:+ ":" +:+
  zero_padded 2 (minute t) +:+ ":" +:+ zero_padded 2 (second t) +:+
  "." +:+ zero_padded 6 (microsecond t).

(** A name is absent or not empty. *)
Definition name_encodable (name : option string) : bool :=
  match name with
  | Some EmptyString => false
  | _ => true
  end.

Fixpoint all_name_chars (s : string) : bool :=
  match s with
  | EmptyString => true
  | String c rest => name_char c && all_name_chars rest
  end.

(** A hash whose state is the text it was fed, to run the builder on
    examples. *)
Definition transcript_new : string := "".
Definition transcript_update (st s : string) : string := st +:+ s.
Definition transcript_hexdigest (st : string) : string := st.

(** No directory of the entry lists a name twice. *)
Fixpoint unique_names (e : fsentry) : Prop :=
  match e with
  | FsDir _ listing =>
      List.NoDup (map fst listing) /\
      (fix all (l : list (string * fsentry)) : Prop :=
         match l with
         | [] => True
         | ne :: rest => unique_names (snd ne) /\ all rest
         end) listing
  | _ => True
  end.

(** The same filesystem entry with the listings of its directories, at
    any depth, enumerated in another order. *)
Inductive reordered : fsentry -> fsentry -> Prop :=
| reordered_same (e : fsentry) : reordered e e
| reordered_dir (st_mode : Z) (l l1 l' : list (string * fsentry)) :
    Forall2 (fun a b => fst a = fst b /\ reordered (snd a) (snd b)) l l1 ->
    l1 ≡ₚ l' ->
    reordered (FsDir st_mode l) (FsDir st_mode l').

(** The checksum of an optional node. *)
Definition checksum_of (r : option TreeNode) : option pyval :=
  match r with
  | Some node => Some (node_checksum node)
  | None => None
  end.

(** ** The rest of [Checkpoint] *)

(** The assertion of [Checkpoint.__init__] on the name. *)
Definition name_accepted (name : option string) : bool :=
  match name with
  | None => true
  | Some s => re_match_name s
  end.

(** What [Checkpoint(root, name=name)] makes when [root] may be [None]:
    the constructor does not look at the root. *)
Inductive checkpoint_object : Type :=
| WithRoot (c : Checkpoint)
| WithoutRoot (time : datetime) (name : option string).

Section BuildCheckpoint.
Context {hstate : Type}.
Variable xxh64 : hstate.
Variable update : hstate -> string -> hstate.
Variable hexdigest : hstate -> string.

(** [Checkpoint.build_checkpoint(path, name)]: the tree is built first, with
    the empty name for its root, and the checkpoint is constructed (and its
    name checked) afterwards; [now] is what [datetime.now()] gives. *)
Definition Checkpoint_build_checkpoint (now : datetime) (e : fsentry)
    (path : string) (name : option string) : built checkpoint_object :=
  match TreeNode_build_node xxh64 update hexdigest e path "" with
  | (Raise ex, out) => (Raise ex, out)
  | (OK (Some root), out) =>
      (c ← Checkpoint_init now root None name; OK (WithRoot c), out)
  | (OK None, out) =>
      (if negb (name_accepted name) then Raise AssertionError
       else OK (WithoutRoot now name), out)
  end.
End BuildCheckpoint.

(** [self.meta] for a checkpoint whose root carries a string as checksum,
    as every root from the builder does.  The record [CheckpointMeta] holds
    a string checksum; for a root that carries another value (a decoded
    root can) the meta object has no image here, which is [None]. *)
Definition Checkpoint_meta (self : Checkpoint) : option CheckpointMeta :=
  match node_checksum (root self) with
  | PStr c => Some (mk_CheckpointMeta c (time self) (name self))
  | _ => None
  end.

Definition name_to_json (name : option string) : pyval :=
  match name with
  | Some n => PStr n
  | None => PNone
  end.

(** The dictionary [Checkpoint.to_json] hands to [json.dumps]. *)
Definition Checkpoint_to_json_dict (self : Checkpoint) : pyval :=
  PDict [("root", to_dict (root self));
         ("time", PStr (isoformat (time self)));
         ("name", name_to_json (name self))].

(** [Checkpoint.from_json] from the value [json.loads] returned.  The time
    and the name of the document have to be strings ([None] for the name is
    fine): the parser and [re.match] raise a [TypeError] on another
    value. *)
Definition Checkpoint_from_json_dict (tree_dict : pyval) : res Checkpoint :=
  r ← subscript tree_dict "root";
  root ← TreeNode_from_dict r;
  t ← subscript tree_dict "time";
  time ← match t with
         | PStr s => datetime_from_iso_format s
         | _ => Raise TypeError
         end;
  n ← subscript tree_dict "name";
  name ← match n with
         | PNone => OK None
         | PStr s => OK (Some s)
         | _ => Raise TypeError
         end;
  Checkpoint_init time root (Some time) name.

(** ** Further predicates *)

(** Every directory of the tree holds its children under their own names,
    each name once. *)
Fixpoint keyed_exactly (n : TreeNode) : Prop :=
  match n with
  | DirectoryNode _ _ _ children =>
      distinct_keys (dict_keys children) = true /\
      (fix all (l : list (pyval * TreeNode)) : Prop :=
         match l with
         | [] => True
         | kv :: rest =>
             fst kv = node_name (snd kv) /\ keyed_exactly (snd kv) /\ all rest
         end) children
  | _ => True
  end.

(** [P] holds of the node and of every node below it. *)
Fixpoint all_nodes (P : TreeNode -> Prop) (n : TreeNode) : Prop :=
  P n /\
  match n with
  | DirectoryNode _ _ _ children =>
      (fix all (l : list (pyval * TreeNode)) : Prop :=
         match l with
         | [] => True
         | kv :: rest => all_nodes P (snd kv) /\ all rest
         end) children
  | _ => True
  end.

(** The permissions of the node are permission bits: an integer from 0 to
    [0o7777]. *)
Definition permission_bits (n : TreeNode) : Prop :=
  exists p, node_permissions n = PInt p /\ (0 <= p <= 4095)%Z.

(** The checksum of the node is a string. *)
Definition checksum_is_str (n : TreeNode) : Prop :=
  is_str (node_checksum n) = true.

(** The nodes of a tree: the node, then the nodes of its children. *)
Fixpoint nodes_of (n : TreeNode) : list TreeNode :=
  n ::
  match n with
  | DirectoryNode _ _ _ children =>
      (fix go (l : list (pyval * TreeNode)) : list TreeNode :=
         match l with
         | [] => []
         | kv :: rest => nodes_of (snd kv) ++ go rest
         end) children
  | _ => []
  end.

(** The text [<checksum>_<time with microseconds>], and [_<name>] after it
    for a name. *)
Definition meta_text (checksum : string) (t : datetime) (name : option string)
    : string :=
  checksum +:+ "_" +:+ iso_micro t +:+
  match name with
  | Some n => "_" +:+ n
  | None => ""
  end.

(** ** The configuration store

    The class [Config] of [bakker/config.py]: a JSON value kept in
    [self.config] and written to the configuration file after every
    change.  A key is a dotted path through nested dicts.  The file is
    modelled by the value [json.load] reads from it ([None] while there is
    no file); failures of the file system and the recursion limit of the
    interpreter are not modelled. *)

(** [s.split(sep)] without a limit, for a separator of one character. *)
Fixpoint split_all (sep : ascii) (s : string) : list string :=
  match s with
  | EmptyString => [EmptyString]
  | String c rest =>
      if Ascii.eqb c sep then EmptyString :: split_all sep rest
      else
        match split_all sep rest with
        | first :: others => String c first :: others
        | [] => [String c EmptyString]
        end
  end.

Record Config : Type := mk_Config {
  config : pyval;
  config_file : option pyval
}.

(** [Config()], on the content of the configuration file. *)
Definition Config_init (file : option pyval) : Config :=
  match file with
  | Some loaded => mk_Config loaded file
  | None => mk_Config (PDict []) file
  end.

Definition Config_save (config : pyval) : Config :=
  mk_Config config (Some config).

(** [del d[k]] for a string [k]; a dict holds a key once, and the entry
    goes. *)
Definition remove_key (k : string) (kvs : list (string * pyval))
    : list (string * pyval) :=
  List.filter (fun kv => negb (String.eqb (fst kv) k)) kvs.

Definition delitem (d : pyval) (k : string) : res pyval :=
  match d with
  | PDict kvs =>
      match assoc k kvs with
      | Some _ => OK (PDict (remove_key k kvs))
      | None => Raise (KeyError k)
      end
  | _ => Raise TypeError
  end.

(** [d[k] = v] for a string [k]. *)
Definition setitem (d : pyval) (k : string) (v : pyval) : res pyval :=
  match d with
  | PDict kvs => OK (PDict (dict_setitem String.eqb k v kvs))
  | _ => Raise TypeError
  end.

Definition py_len (v : pyval) : res nat :=
  match v with
  | PDict kvs => OK (length kvs)
  | PList l => OK (length l)
  | PStr s => OK (String.length s)
  | _ => Raise TypeError
  end.

(** The loop [for key in keys[:-1]: current = current.setdefault(key, {})]
    followed by [current[keys[-1]] = value], as the value [current] holds
    afterwards.  The dicts are updated in place; an exception is raised
    before anything was stored, since a dict that [setdefault] creates is
    followed by dicts only. *)
Fixpoint set_path (keys : list string) (value : pyval) (current : pyval)
    : res pyval :=
  match keys with
  | [] => Raise IndexError
  | key :: rest =>
      match rest with
      | [] => setitem current key value
      | _ :: _ =>
          match current with
          | PDict kvs =>
              let next :=
                match assoc key kvs with
                | Some v => v
                | None => PDict []
                end in
              next' ← set_path rest value next;
              OK (PDict (dict_setitem String.eqb key next' kvs))
          | _ => Raise AttributeError
          end
      end
  end.

Definition Config_setitem (self : Config) (key : string) (value : pyval)
    : res Config :=
  if negb (is_str value) then Raise AssertionError
  else
    current ← set_path (split_all "." key) value (config self);
    OK (Config_save current).

(** The loop [for key in keys: current = current[key]]. *)
Fixpoint get_path (keys : list string) (current : pyval) : res pyval :=
  match keys with
  | [] => OK current
  | key :: rest => next ← subscript current key; get_path rest next
  end.

(** What [__getitem__] does: it returns a string, or raises; the
    [KeyError()] it raises itself carries no key. *)
Inductive getitem_outcome : Type :=
| Returns (value : string)
| Raises (e : exn)
| RaisesBareKeyError.

Definition Config_getitem (self : Config) (key : string) : getitem_outcome :=
  match get_path (split_all "." key) (config self) with
  | OK (PStr s) => Returns s
  | OK _ => RaisesBareKeyError
  | Raise e => Raises e
  end.

(** [del_dict_item(d, keys)], as the value [d] holds afterwards. *)
Fixpoint del_dict_item (d : pyval) (keys : list string) : res pyval :=
  match keys with
  | [] => Raise IndexError
  | key :: rest =>
      match rest with
      | [] => delitem d key
      | _ :: _ =>
          child ← subscript d key;
          child' ← del_dict_item child rest;
          d' ← setitem d key child';
          len ← py_len child';
          if (len =? 0)%nat then delitem d' key else OK d'
      end
  end.

Definition Config_delitem (self : Config) (key : string) : res Config :=
  d ← del_dict_item (config self) (split_all "." key);
  OK (Config_save d).

(** [key in config]: only a [KeyError] is caught. *)
Definition Config_contains (self : Config) (key : string) : res bool :=
  match Config_getitem self key with
  | Returns _ => OK true
  | Raises (KeyError _) | RaisesBareKeyError => OK false
  | Raises e => Raise e
  end.

Definition next_prefix (prefix : option string) (key : string) : string :=
  match prefix with
  | Some p => p +:+ "." +:+ key
  | None => key
  end.

(** What the generator [build_items(d, prefix)] yields over a dict. *)
Fixpoint build_items (d : pyval) (prefix : option string)
    : list (string * string) :=
  match d with
  | PDict kvs =>
      flat_map
        (fun kv =>
           match snd kv with
           | PDict _ => build_items (snd kv) (Some (next_prefix prefix (fst kv)))
           | PStr s => [(next_prefix prefix (fst kv), s)]
           | _ => []
           end) kvs
  | _ => []
  end.

(** [list(config.items())]; [d.items()] exists for a dict only. *)
Definition Config_items (self : Config) : res (list (string * string)) :=
  match config self with
  | PDict _ => OK (build_items (config self) None)
  | _ => Raise AttributeError
  end.

(** A JSON value as [json.load] returns it has every key once in a dict;
    [dotless] asks in addition that no key holds a dot. *)
Fixpoint dotless (v : pyval) : bool :=
  match v with
  | PDict kvs =>
      bool_decide (NoDup (map fst kvs)) &&
      forallb (fun kv => negb (has_char "." (fst kv)) && dotless (snd kv)) kvs
  | _ => true
  end.

(** The dotted key that names a path. *)
Fixpoint join_dots (keys : list string) : string :=
  match keys with
  | [] => ""
  | key :: rest =>
      match rest with
      | [] => key
      | _ :: _ => key +:+ "." +:+ join_dots rest
      end
  end.

(** No dict below the root is empty. *)
Definition is_empty_dict (v : pyval) : bool :=
  match v with
  | PDict [] => true
  | _ => false
  end.

Fixpoint no_empty_dicts (v : pyval) : bool :=
  match v with
  | PDict kvs =>
      forallb
        (fun kv => negb (is_empty_dict (snd kv)) && no_empty_dicts (snd kv))
        kvs
  | _ => true
  end.

(** ** Example data *)

Definition example_config : pyval :=
  PDict [("default", PDict [("storage", PStr "fs")]);
         ("storage", PDict [("file_system", PDict [("path", PStr "/b")])])].

Definition example_config_moved : pyval :=
  PDict [("default", PDict [("storage", PStr "fs")]);
         ("storage", PDict [("file_system", PDict [("path", PStr "/mnt")])])].

(** A directory with a regular file, a subdirectory, a symlink to the
    file, a symlink whose target does not exist and a named pipe. *)
Definition example_listing : list (string * fsentry) :=
  [("b.txt", FsFile 33188 "hello");
   ("a", FsDir 16877 [("x", FsFile 33261 "x!")]);
   ("link", FsSymlink 41471 "b.txt" ToFile);
   ("dead", FsSymlink 41471 "nowhere" Dangling);
   ("pipe", FsOther 4516)].

(** The same directory, enumerated in another order. *)
Definition example_listing_reordered : list (string * fsentry) :=
  [("pipe", FsOther 4516);
   ("link", FsSymlink 41471 "b.txt" ToFile);
   ("a", FsDir 16877 [("x", FsFile 33261 "x!")]);
   ("dead", FsSymlink 41471 "nowhere" Dangling);
   ("b.txt", FsFile 33188 "hello")].

Definition example_tree : TreeNode :=
  DirectoryNode (PStr "") (PStr "c0") (PInt 493)
    [(PStr "d", DirectoryNode (PStr "d") (PStr "c1") (PInt 493)
                  [(PStr "x", FileNode (PStr "x") (PStr "c2") (PInt 420));
                   (PStr "y", FileNode (PStr "y") (PStr "c3") (PInt 420))]);
     (PStr "l", SymlinkNode (PStr "l") (PStr "c4") (PInt 511))].

(** A directory record whose children list names "a" twice. *)
Definition example_duplicate_children : list pyval :=
  [PDict [("name", PStr "a"); ("checksum", PStr "c1");
          ("permissions", PInt 420); ("type", PStr "file")];
   PDict [("name", PStr "b"); ("checksum", PStr "c2");
          ("permissions", PInt 420); ("type", PStr "file")];
   PDict [("name", PStr "a"); ("checksum", PStr "c3");
          ("permissions", PInt 511); ("type", PStr "symlink")]].

Definition example_duplicate_record : pyval :=
  PDict [("name", PStr ""); ("checksum", PStr "c0"); ("permissions", PInt 493);
         ("children", PList example_duplicate_children);
         ("type", PStr "directory")].

Definition example_duplicate_decoded : list (pyval * TreeNode) :=
  [(PStr "a", FileNode (PStr "a") (PStr "c1") (PInt 420));
   (PStr "b", FileNode (PStr "b") (PStr "c2") (PInt 420));
   (PStr "a", SymlinkNode (PStr "a") (PStr "c3") (PInt 511))].

(** A directory object made by hand whose two children carry one name:
    no children mapping keyed by child name holds it. *)
Definition example_same_name_tree : TreeNode :=
  DirectoryNode (PStr "") (PStr "c0") (PInt 493)
    [(PStr "k1", FileNode (PStr "x") (PStr "c1") (PInt 420));
     (PStr "k2", FileNode (PStr "x") (PStr "c2") (PInt 420))].

(** What the builder returns for the example directory, read at "/src"
    with the hash that keeps what it was fed. *)
Definition example_built_tree : TreeNode :=
  DirectoryNode (PStr "") (PStr "x!hellob.txt") (PInt 493)
    [(PStr "b.txt", FileNode (PStr "b.txt") (PStr "hello") (PInt 420));
     (PStr "a", DirectoryNode (PStr "a") (PStr "x!") (PInt 493)
                  [(PStr "x", FileNode (PStr "x") (PStr "x!") (PInt 493))]);
     (PStr "link", SymlinkNode (PStr "link") (PStr "b.txt") (PInt 511))].

Definition example_built_out : list string :=
  ["Ignored: /src/dead"; "Ignored: /src/pipe"].

(** The example directory with the listing of its subdirectory "a" and its
    own listing enumerated in other orders. *)
Definition example_deep_listing : list (string * fsentry) :=
  [("b", FsFile 33188 "hello");
   ("a", FsDir 16877 [("x", FsFile 33261 "x!"); ("y", FsFile 33188 "y?")])].

Definition example_deep_listing_reordered : list (string * fsentry) :=
  [("a", FsDir 16877 [("y", FsFile 33188 "y?"); ("x", FsFile 33261 "x!")]);
   ("b", FsFile 33188 "hello")].

(** * Properties *)

#[local] Opaque BLOCKSIZE.

(** ** Dictionaries *)

Section DictFacts.
Context {K V : Type} (eqb : K -> K -> bool).
Hypothesis eqb_sym : forall a b, eqb a b = eqb b a.
Hypothesis eqb_trans :
  forall a b c, eqb a b = true -> eqb b c = true -> eqb a c = true.

Lemma eqb_congr_l a b c : eqb a b = true -> eqb a c = eqb b c.
Proof using eqb_sym eqb_trans.
  intros Hab. destruct (eqb b c) eqn:Hbc.
  - eauto.
  - destruct (eqb a c) eqn:Hac; [|done].
    rewrite <- Hbc. symmetry. apply (eqb_trans b a c); [|done].
    by rewrite eqb_sym.
Qed.

Lemma dict_getitem_setitem (k k' : K) (v : V) (d : list (K * V)) :
  dict_getitem eqb k (dict_setitem eqb k' v d) =
    if eqb k' k then Some v else dict_getitem eqb k d.
Proof using eqb_sym eqb_trans.
  induction d as [|[e ve] d IH]; simpl; [done|].
  destruct (eqb e k') eqn:He; simpl.
  - rewrite (eqb_congr_l e k' k He). by destruct (eqb k' k).
  - rewrite IH. destruct (eqb e k) eqn:Hek; [|done].
    destruct (eqb k' k) eqn:Hk; [|done].
    rewrite eqb_sym in Hk. by rewrite (eqb_trans e k k' Hek Hk) in He.
Qed.

Lemma dict_getitem_store_all (k : K) (stores d : list (K * V)) :
  dict_getitem eqb k (store_all eqb stores d) =
    match last_value eqb k stores with
    | Some w => Some w
    | None => dict_getitem eqb k d
    end.
Proof using eqb_sym eqb_trans.
  revert d. induction stores as [|[k' v] stores IH]; intros d; simpl; [done|].
  unfold store_all in *. simpl. rewrite IH.
  destruct (last_value eqb k stores); [done|].
  rewrite dict_getitem_setitem. by destruct (eqb k' k).
Qed.

(** The store that is not overwritten later is the one that is read. *)
Lemma last_value_lookup (k : K) (v : V) (stores : list (K * V)) (i : nat) :
  stores !! i = Some (k, v) ->
  eqb k k = true ->
  (forall j k' v', i < j -> stores !! j = Some (k', v') -> eqb k' k = false) ->
  last_value eqb k stores = Some v.
Proof.
  revert i. induction stores as [|[k0 v0] stores IH]; intros i Hi Hk Hlater.
  - done.
  - destruct i as [|i]; simpl in *.
    + injection Hi as -> ->.
      assert (last_value eqb k stores = None) as ->; [|by rewrite Hk].
      clear IH. induction stores as [|[k1 v1] stores IH]; [done|].
      simpl. rewrite IH.
      * by rewrite (Hlater 1 k1 v1 ltac:(lia) eq_refl).
      * intros j k' v' Hj Hl. destruct j as [|j]; [lia|].
        apply (Hlater (S (S j)) k' v'); [lia|done].
    + rewrite (IH i Hi Hk); [done|].
      intros j k' v' Hj Hl. apply (Hlater (S j) k' v'); [lia|done].
Qed.

Lemma dict_setitem_fresh (k : K) (v : V) (d : list (K * V)) :
  existsb (fun e => eqb e k) (dict_keys d) = false ->
  dict_setitem eqb k v d = d ++ [(k, v)].
Proof.
  induction d as [|[e ve] d IH]; simpl; [done|].
  intros [He Hd]%orb_false_elim. rewrite He, IH; done.
Qed.

Lemma dict_keys_setitem (k : K) (v : V) (d : list (K * V)) :
  dict_keys (dict_setitem eqb k v d) =
    if existsb (fun e => eqb e k) (dict_keys d) then dict_keys d
    else dict_keys d ++ [k].
Proof.
  induction d as [|[e ve] d IH]; simpl; [done|].
  destruct (eqb e k) eqn:He; simpl; [done|].
  rewrite IH. by destruct (existsb _ _).
Qed.
End DictFacts.

Lemma key_eqb_sym (a b : pyval) : key_eqb a b = key_eqb b a.
Proof.
  destruct a, b; simpl; try done; try apply Z.eqb_sym; apply String.eqb_sym.
Qed.

Lemma key_eqb_trans (a b c : pyval) :
  key_eqb a b = true -> key_eqb b c = true -> key_eqb a c = true.
Proof.
  destruct a, b; simpl; try done; destruct c; simpl; try done;
    rewrite ?Z.eqb_eq, ?String.eqb_eq; congruence.
Qed.

Lemma key_eqb_refl (k : pyval) : hashable k = true -> key_eqb k k = true.
Proof.
  destruct k; simpl; try done; intros _;
    auto using Z.eqb_refl, String.eqb_refl.
Qed.

Lemma string_eqb_trans (a b c : string) :
  String.eqb a b = true -> String.eqb b c = true -> String.eqb a c = true.
Proof. rewrite !String.eqb_eq. congruence. Qed.

(** ** Decoding never runs out of fuel *)

Lemma depth_elem (c : pyval) (l : list pyval) :
  In c l -> depth c < depth (PList l).
Proof.
  simpl. induction l as [|x l IH]; simpl; [done|].
  intros [->|Hin]; [lia|]. specialize (IH Hin). lia.
Qed.

Lemma depth_assoc (k : string) (kvs : list (string * pyval)) (v : pyval) :
  assoc k kvs = Some v -> depth v < depth (PDict kvs).
Proof.
  simpl. induction kvs as [|[k' v'] kvs IH]; simpl; [done|].
  destruct (String.eqb k' k).
  - intros [= ->]. lia.
  - intros H. specialize (IH H). lia.
Qed.

Lemma child_items_depth (d c : pyval) :
  In c (child_items d) -> depth c < depth d.
Proof.
  unfold child_items, subscript.
  destruct d as [| | | | |kvs]; simpl; try done.
  destruct (assoc "children" kvs) as [cs|] eqn:Hcs; [|done].
  apply depth_assoc in Hcs.
  destruct cs as [| | |s|l|kvs']; simpl; try done.
  - intros (x & <- & _)%in_map_iff. simpl. apply Nat.lt_0_succ.
  - intros Hin. apply depth_elem in Hin. simpl in *. lia.
  - intros (x & <- & _)%in_map_iff. simpl. apply Nat.lt_0_succ.
Qed.

Lemma dict_comprehension_ext (r1 r2 : pyval -> res TreeNode)
    (items : list pyval) (acc : list (pyval * TreeNode)) :
  (forall c, In c items -> r1 c = r2 c) ->
  dict_comprehension r1 items acc = dict_comprehension r2 items acc.
Proof.
  revert acc. induction items as [|c items IH]; intros acc Hext; simpl; [done|].
  rewrite (Hext c) by (by left).
  destruct (subscript c "name") as [k|]; simpl; [|done].
  destruct (r2 c) as [v|]; simpl; [|done].
  destruct (hashable k); [|done].
  apply IH. intros c' Hc'. apply Hext. by right.
Qed.

Lemma from_dict_body_ext (r1 r2 : pyval -> res TreeNode) (d : pyval) :
  (forall c, In c (child_items d) -> r1 c = r2 c) ->
  from_dict_body r1 d = from_dict_body r2 d.
Proof.
  intros Hext. unfold from_dict_body.
  destruct (subscript d "type") as [ty|]; simpl; [|done].
  destruct (py_eq_str ty "directory"); [|done].
  unfold DirectoryNode_from_dict, child_items in *.
  destruct (subscript d "name"); simpl; [|done].
  destruct (subscript d "checksum"); simpl; [|done].
  destruct (subscript d "permissions"); simpl; [|done].
  destruct (subscript d "children") as [cs|]; simpl; [|done].
  destruct (py_iter cs) as [items|]; simpl; [|done].
  by rewrite (dict_comprehension_ext r1 r2 items []).
Qed.

Lemma from_dict_fuel_irrelevant (n m : nat) (d : pyval) :
  depth d < n -> depth d < m -> from_dict_fuel n d = from_dict_fuel m d.
Proof.
  revert m d. induction n as [|n IH]; intros m d Hn Hm; [lia|].
  destruct m as [|m]; [lia|]. simpl.
  apply from_dict_body_ext. intros c Hc%child_items_depth.
  apply IH; lia.
Qed.

(** [TreeNode_from_dict] satisfies the recursive equation of the source. *)
Lemma TreeNode_from_dict_unfold (d : pyval) :
  TreeNode_from_dict d = from_dict_body TreeNode_from_dict d.
Proof.
  unfold TreeNode_from_dict at 1. simpl.
  apply from_dict_body_ext. intros c Hc%child_items_depth.
  unfold TreeNode_from_dict. apply from_dict_fuel_irrelevant; lia.
Qed.

(** ** Decoding a representation *)

Lemma dict_comprehension_decodes (rec : pyval -> res TreeNode)
    (items : list pyval) (decoded acc : list (pyval * TreeNode)) :
  Forall2 (fun c kv => subscript c "name" = OK (fst kv) /\
                       hashable (fst kv) = true /\ rec c = OK (snd kv))
    items decoded ->
  dict_comprehension rec items acc = OK (store_all key_eqb decoded acc).
Proof.
  intros H. revert acc.
  induction H as [|c [k v] items decoded (Hk & Hh & Hv) _ IH]; intros acc;
    simpl in *; [done|].
  rewrite Hk, Hv. simpl. rewrite Hh. apply IH.
Qed.

Lemma dict_comprehension_raises (rec : pyval -> res TreeNode)
    (before after : list pyval) (c : pyval) (acc : list (pyval * TreeNode)) :
  raises (rec c) ->
  raises (dict_comprehension rec (before ++ c :: after) acc).
Proof.
  intros Hc. revert acc.
  induction before as [|b before IH]; intros acc; simpl.
  - destruct (subscript c "name"); simpl; [|done].
    destruct (rec c); simpl; [done|done].
  - destruct (subscript b "name") as [k|]; simpl; [|done].
    destruct (rec b); simpl; [|done].
    destruct (hashable k); [apply IH|done].
Qed.

Example from_dict_file_example :
  TreeNode_from_dict
    (PDict [("name", PStr "a.txt"); ("checksum", PStr "ef46db3751d8e999");
            ("permissions", PInt 420); ("type", PStr "file")])
  = OK (FileNode (PStr "a.txt") (PStr "ef46db3751d8e999") (PInt 420)).
Proof. reflexivity. Qed.

Example from_dict_unknown_type_example :
  TreeNode_from_dict
    (PDict [("name", PStr "pipe"); ("checksum", PStr "0");
            ("permissions", PInt 420); ("type", PStr "fifo")])
  = Raise TypeError.
Proof. reflexivity. Qed.

Example from_dict_unknown_type_no_name_example :
  TreeNode_from_dict (PDict [("type", PStr "fifo")]) = Raise (KeyError "name").
Proof. reflexivity. Qed.

(** C5: [TreeNode.from_dict] on a record whose type discriminator is none of
    directory, file and symlink raises an exception (a [TypeError], or the
    [KeyError] of building its message when the record has no name); the
    exception also ends the decoding of every directory record that holds
    such a record among its children, so no partial tree is returned. *)
Theorem TreeNode_from_dict_unrecognized_type (d : pyval) :
  type_recognized d = false ->
  (exists e, TreeNode_from_dict d = Raise e /\
     (forall ty, subscript d "type" = OK ty ->
        e = TypeError \/ e = KeyError "name")) /\
  (forall n c p before after,
     raises (TreeNode_from_dict
               (PDict [("name", n); ("checksum", c); ("permissions", p);
                       ("children", PList (before ++ d :: after));
                       ("type", PStr "directory")]))).
Proof.
  intros Hty.
  assert (exists e, TreeNode_from_dict d = Raise e /\
     (forall ty, subscript d "type" = OK ty ->
        e = TypeError \/ e = KeyError "name")) as Hd.
  { rewrite TreeNode_from_dict_unfold. unfold from_dict_body, type_recognized in *.
    destruct (subscript d "type") as [ty|e] eqn:Hsub; simpl.
    - apply orb_false_elim in Hty as [[H1 H2]%orb_false_elim H3].
      rewrite H1, H2, H3.
      destruct d as [| | | | |kvs]; simpl in *; try done.
      destruct (assoc "name" kvs); simpl; eauto.
    - exists e. split; [done|]. intros ty [=]. }
  split; [done|].
  intros n c p before after. rewrite TreeNode_from_dict_unfold.
  unfold from_dict_body, DirectoryNode_from_dict. simpl.
  destruct Hd as (e & He & _).
  pose proof (dict_comprehension_raises TreeNode_from_dict before after d []) as Hr.
  rewrite He in Hr. specialize (Hr I).
  destruct (dict_comprehension _ _ _); [done|done].
Qed.

Lemma TreeNode_from_dict_unrecognized_type_witness :
  type_recognized (PDict [("name", PStr "pipe"); ("type", PStr "fifo")]) = false /\
  exists e,
    TreeNode_from_dict (PDict [("name", PStr "pipe"); ("type", PStr "fifo")])
      = Raise e /\
    (forall ty,
       subscript (PDict [("name", PStr "pipe"); ("type", PStr "fifo")]) "type"
         = OK ty ->
       e = TypeError \/ e = KeyError "name").
Proof.
  split; [reflexivity|].
  exact (proj1 (TreeNode_from_dict_unrecognized_type
                  (PDict [("name", PStr "pipe"); ("type", PStr "fifo")])
                  eq_refl)).
Defined.

Lemma distinct_keys_setitem (k : pyval) (v : TreeNode)
    (d : list (pyval * TreeNode)) :
  hashable k = true ->
  distinct_keys (dict_keys d) = true ->
  distinct_keys (dict_keys (dict_setitem key_eqb k v d)) = true.
Proof.
  intros Hk. induction d as [|[e ve] d IH]; simpl.
  - by rewrite Hk.
  - intros [[He Hne]%andb_prop Hd]%andb_prop.
    destruct (key_eqb e k) eqn:Hek; simpl.
    + by rewrite He, Hne, Hd.
    + rewrite He, (IH Hd). simpl. rewrite andb_true_r.
      rewrite (dict_keys_setitem key_eqb).
      destruct (existsb (fun e0 => key_eqb e0 k) (dict_keys d)); [done|].
      rewrite existsb_app. simpl. rewrite Hek.
      apply negb_true_iff in Hne. by rewrite Hne.
Qed.

Lemma distinct_keys_store_all (stores d : list (pyval * TreeNode)) :
  Forall (fun kv => hashable (fst kv) = true) stores ->
  distinct_keys (dict_keys d) = true ->
  distinct_keys (dict_keys (store_all key_eqb stores d)) = true.
Proof.
  intros H. revert d. induction H as [|[k v] stores Hk _ IH]; intros d Hd.
  - done.
  - unfold store_all in *. simpl. apply IH. by apply distinct_keys_setitem.
Qed.

Example DirectoryNode_from_dict_duplicate_example :
  TreeNode_from_dict
    (PDict [("name", PStr ""); ("checksum", PStr "c0"); ("permissions", PInt 493);
            ("children",
             PList [PDict [("name", PStr "a"); ("checksum", PStr "c1");
                           ("permissions", PInt 420); ("type", PStr "file")];
                    PDict [("name", PStr "b"); ("checksum", PStr "c2");
                           ("permissions", PInt 420); ("type", PStr "file")];
                    PDict [("name", PStr "a"); ("checksum", PStr "c3");
                           ("permissions", PInt 511); ("type", PStr "symlink")]]);
            ("type", PStr "directory")])
  = OK (DirectoryNode (PStr "") (PStr "c0") (PInt 493)
          [(PStr "a", SymlinkNode (PStr "a") (PStr "c3") (PInt 511));
           (PStr "b", FileNode (PStr "b") (PStr "c2") (PInt 420))]).
Proof. reflexivity. Qed.

(** C9: [DirectoryNode.from_dict] on a representation whose children list
    repeats a name raises no error; the child mapping of the directory it
    returns holds, under every name, the node decoded from the last entry of
    the list with that name (and holds every name once). *)
Theorem DirectoryNode_from_dict_last_entry_wins
    (d name checksum permissions : pyval) (cs : list pyval)
    (decoded : list (pyval * TreeNode)) :
  subscript d "name" = OK name ->
  subscript d "checksum" = OK checksum ->
  subscript d "permissions" = OK permissions ->
  subscript d "children" = OK (PList cs) ->
  Forall2 (fun c kv => subscript c "name" = OK (fst kv) /\
                       hashable (fst kv) = true /\
                       TreeNode_from_dict c = OK (snd kv)) cs decoded ->
  exists children,
    DirectoryNode_from_dict TreeNode_from_dict d
      = OK (DirectoryNode name checksum permissions children) /\
    distinct_keys (dict_keys children) = true /\
    (forall i k node,
       decoded !! i = Some (k, node) ->
       (forall j k' node',
          i < j -> decoded !! j = Some (k', node') -> key_eqb k' k = false) ->
       dict_getitem key_eqb k children = Some node).
Proof.
  intros Hn Hc Hp Hcs Hdec.
  exists (store_all key_eqb decoded []). split; [|split].
  - unfold DirectoryNode_from_dict. rewrite Hn, Hc, Hp, Hcs. simpl.
    by rewrite (dict_comprehension_decodes _ cs decoded []).
  - apply distinct_keys_store_all; [|done].
    clear -Hdec. induction Hdec as [|c kv cs decoded (_ & Hh & _) _ IH];
      constructor; done.
  - intros i k node Hi Hlater.
    rewrite (dict_getitem_store_all key_eqb key_eqb_sym key_eqb_trans).
    rewrite (last_value_lookup key_eqb k node decoded i Hi); [done| |done].
    apply key_eqb_refl.
    destruct (Forall2_lookup_r _ _ _ _ _ Hdec Hi) as (c & _ & _ & Hh & _).
    done.
Qed.

(** ** Round trip through the representation *)

(** Induction on a tree with the hypothesis for every child of a
    directory. *)
Lemma TreeNode_ind' (P : TreeNode -> Prop) :
  (forall n c p children,
     Forall (fun kv => P (snd kv)) children ->
     P (DirectoryNode n c p children)) ->
  (forall n c p, P (FileNode n c p)) ->
  (forall n c p, P (SymlinkNode n c p)) ->
  forall t, P t.
Proof.
  intros Hdir Hfile Hsym. fix IH 1. intros [n c p children|n c p|n c p].
  - apply Hdir. induction children as [|[k t] children IHc]; constructor.
    + apply IH.
    + apply IHc.
  - apply Hfile.
  - apply Hsym.
Qed.

Lemma subscript_to_dict_name (t : TreeNode) :
  subscript (to_dict t) "name" = OK (node_name t).
Proof. by destruct t. Qed.

Lemma distinct_keys_app_cons (ks rest : list pyval) (k : pyval) :
  distinct_keys (ks ++ k :: rest) = true ->
  existsb (fun e => key_eqb e k) ks = false /\
  distinct_keys ((ks ++ [k]) ++ rest) = true.
Proof.
  intros H. split; [|by rewrite <- app_assoc].
  induction ks as [|e ks IH]; simpl in *; [done|].
  apply andb_prop in H as [[_ Hne]%andb_prop Hd].
  rewrite (IH Hd), orb_false_r.
  apply negb_true_iff in Hne. rewrite existsb_app in Hne.
  apply orb_false_elim in Hne as [_ Hne]. simpl in Hne.
  by apply orb_false_elim in Hne as [Hne _].
Qed.

Lemma store_all_distinct (stores acc : list (pyval * TreeNode)) :
  distinct_keys (dict_keys acc ++ dict_keys stores) = true ->
  store_all key_eqb stores acc = acc ++ stores.
Proof.
  revert acc. induction stores as [|[k v] stores IH]; intros acc Hd.
  - by rewrite app_nil_r.
  - unfold store_all in *. simpl in *.
    apply distinct_keys_app_cons in Hd as [Hfresh Hd].
    rewrite (dict_setitem_fresh key_eqb k v acc Hfresh).
    rewrite IH.
    + by rewrite <- app_assoc.
    + unfold dict_keys in *. by rewrite map_app.
Qed.

(** C3: for every node tree (directory, file or symlink, nested to any
    depth) whose directories hold children of pairwise different names,
    [TreeNode.from_dict] of its [to_dict] returns a tree, and the [to_dict]
    of that tree is the [to_dict] of the original. *)
Theorem from_dict_to_dict_round_trip (t : TreeNode) :
  sibling_names_distinct t = true ->
  exists t', TreeNode_from_dict (to_dict t) = OK t' /\ to_dict t' = to_dict t.
Proof.
  induction t as [n c p children IH|n c p|n c p] using TreeNode_ind';
    intros Hwf.
  - simpl in Hwf. apply andb_prop in Hwf as [Hnames Hsub].
    assert (exists decoded,
      Forall2 (fun kv kv' =>
                 fst kv' = node_name (snd kv) /\
                 TreeNode_from_dict (to_dict (snd kv)) = OK (snd kv') /\
                 to_dict (snd kv') = to_dict (snd kv)) children decoded)
      as [decoded Hdec].
    { clear Hnames. induction IH as [|kv children Hkv _ IHc].
      - exists []. constructor.
      - simpl in Hsub. apply andb_prop in Hsub as [Hkv' Hsub].
        destruct (Hkv Hkv') as (t' & Ht' & Heq).
        destruct (IHc Hsub) as (decoded & Hdec).
        exists ((node_name (snd kv), t') :: decoded). by constructor. }
    exists (DirectoryNode n c p decoded). split.
    + rewrite TreeNode_from_dict_unfold.
      unfold from_dict_body, DirectoryNode_from_dict. simpl.
      rewrite (dict_comprehension_decodes _ _ decoded []).
      * rewrite store_all_distinct; [done|]. simpl.
        replace (dict_keys decoded)
          with (map (fun kv => node_name (snd kv)) children); [done|].
        clear -Hdec. induction Hdec as [|kv kv' ? ? (Hk & _) _ IHd]; simpl;
          [done|]. by rewrite Hk, IHd.
      * clear -Hdec Hnames.
        assert (Forall (fun kv => hashable (node_name (snd kv)) = true) children)
          as Hh.
        { clear -Hnames. induction children as [|kv children IHc];
            constructor; simpl in Hnames;
            apply andb_prop in Hnames as [[Hh _]%andb_prop Hd]; auto. }
        induction Hdec as [|kv kv' ? ? (Hk & Ht & _) _ IHd]; simpl;
          constructor.
        -- rewrite subscript_to_dict_name, Hk.
           inversion Hh; subst. repeat split; assumption || reflexivity.
        -- apply IHd; [|by inversion Hh].
           simpl in Hnames. by apply andb_prop in Hnames as [_ ?].
    + simpl.
      assert (map (fun kv => to_dict (snd kv)) decoded
              = map (fun kv => to_dict (snd kv)) children) as ->; [|done].
      clear -Hdec. induction Hdec as [|kv kv' ? ? (_ & _ & Heq) _ IHd]; simpl;
        [done|by rewrite Heq, IHd].
  - exists (FileNode n c p). by rewrite TreeNode_from_dict_unfold.
  - exists (SymlinkNode n c p). by rewrite TreeNode_from_dict_unfold.
Qed.

(** *** The trees [from_dict] returns have pairwise different sibling names *)

Lemma key_eqb_hashable_r (a b : pyval) : key_eqb a b = true -> hashable b = true.
Proof. by destruct a, b. Qed.

Lemma keyed_names_fresh (k n : pyval) (d : list (pyval * TreeNode)) :
  existsb (key_eqb k) (dict_keys d) = false ->
  key_eqb k n = true ->
  keyed_by_name d ->
  existsb (key_eqb n) (map (fun kv => node_name (snd kv)) d) = false.
Proof.
  intros Hk Hn Hd. induction Hd as [|[k' v'] d [Hkv _] _ IH]; simpl in *; [done|].
  apply orb_false_elim in Hk as [Hk' Hk]. rewrite (IH Hk), orb_false_r.
  destruct (key_eqb n (node_name v')) eqn:Hnn; [|done].
  rewrite <- Hk'. symmetry.
  apply (key_eqb_trans k n k' Hn).
  apply (key_eqb_trans n (node_name v') k' Hnn).
  by rewrite key_eqb_sym.
Qed.

Lemma keyed_names_distinct (d : list (pyval * TreeNode)) :
  distinct_keys (dict_keys d) = true ->
  keyed_by_name d ->
  distinct_keys (map (fun kv => node_name (snd kv)) d) = true.
Proof.
  intros Hd Hk. induction Hk as [|[k v] d [Hkv Hv] Hk IH]; simpl in *; [done|].
  apply andb_prop in Hd as [[_ Hne]%andb_prop Hd].
  rewrite (key_eqb_hashable_r _ _ Hkv), (IH Hd), andb_true_r. simpl.
  apply negb_true_iff in Hne. by rewrite (keyed_names_fresh k _ d Hne Hkv Hk).
Qed.

Lemma keyed_by_name_setitem (k : pyval) (v : TreeNode)
    (d : list (pyval * TreeNode)) :
  node_name v = k -> hashable k = true -> sibling_names_distinct v = true ->
  keyed_by_name d -> keyed_by_name (dict_setitem key_eqb k v d).
Proof.
  intros Hn Hh Hv Hd. induction Hd as [|[e ve] d [He Hve] Hd IH]; simpl.
  - constructor; [|constructor]. simpl. rewrite Hn. by rewrite key_eqb_refl.
  - destruct (key_eqb e k) eqn:Hek.
    + constructor; [|done]. simpl. by rewrite Hn.
    + by constructor.
Qed.

Lemma dict_comprehension_keyed (rec : pyval -> res TreeNode)
    (items : list pyval) (acc children : list (pyval * TreeNode)) :
  (forall c t, In c items -> rec c = OK t ->
     subscript c "name" = OK (node_name t) /\ sibling_names_distinct t = true) ->
  distinct_keys (dict_keys acc) = true -> keyed_by_name acc ->
  dict_comprehension rec items acc = OK children ->
  distinct_keys (dict_keys children) = true /\ keyed_by_name children.
Proof.
  revert acc. induction items as [|c items IH]; intros acc Hrec Hd Hk; simpl.
  - by intros [= <-].
  - destruct (subscript c "name") as [k|] eqn:Hsub; simpl; [|done].
    destruct (rec c) as [t|] eqn:Ht; simpl; [|done].
    destruct (hashable k) eqn:Hh; [|done].
    destruct (Hrec c t (or_introl eq_refl) Ht) as [Hname Ht'].
    rewrite Hsub in Hname. injection Hname as Hname.
    apply IH.
    + intros c' t' Hin. apply Hrec. by right.
    + by apply distinct_keys_setitem.
    + by apply keyed_by_name_setitem.
Qed.

Lemma from_dict_fuel_names_distinct (n : nat) (d : pyval) (t : TreeNode) :
  from_dict_fuel n d = OK t ->
  subscript d "name" = OK (node_name t) /\ sibling_names_distinct t = true.
Proof.
  revert d t. induction n as [|n IH]; intros d t; simpl; [done|].
  unfold from_dict_body.
  destruct (subscript d "type") as [ty|]; simpl; [|done].
  destruct (py_eq_str ty "directory").
  - unfold DirectoryNode_from_dict.
    destruct (subscript d "name") as [nm|]; simpl; [|done].
    destruct (subscript d "checksum"); simpl; [|done].
    destruct (subscript d "permissions"); simpl; [|done].
    destruct (subscript d "children") as [cs|]; simpl; [|done].
    destruct (py_iter cs) as [items|]; simpl; [|done].
    destruct (dict_comprehension _ items []) as [children|] eqn:Hc; simpl;
      [|done].
    intros [= <-]. split; [done|]. simpl.
    apply dict_comprehension_keyed in Hc as [Hd Hk];
      [|by intros c t _; apply IH|done|constructor].
    rewrite (keyed_names_distinct children Hd Hk). simpl.
    apply forallb_forall. intros kv Hin.
    unfold keyed_by_name in Hk. rewrite Forall_forall in Hk.
    apply list_elem_of_In in Hin. by destruct (Hk kv Hin).
  - destruct (py_eq_str ty "file").
    + unfold FileNode_from_dict.
      destruct (subscript d "name") as [nm|]; simpl; [|done].
      destruct (subscript d "checksum"); simpl; [|done].
      destruct (subscript d "permissions"); simpl; [|done].
      by intros [= <-].
    + destruct (py_eq_str ty "symlink").
      * unfold SymlinkNode_from_dict.
        destruct (subscript d "name") as [nm|]; simpl; [|done].
        destruct (subscript d "checksum"); simpl; [|done].
        destruct (subscript d "permissions"); simpl; [|done].
        by intros [= <-].
      * by destruct (subscript d "name").
Qed.

(** X1: in every tree that [TreeNode.from_dict] returns, the children of
    each directory have pairwise different names (the hypothesis of the
    round trip): of the records of one name only one child is kept. *)
Lemma TreeNode_from_dict_names_distinct (d : pyval) (t : TreeNode) :
  TreeNode_from_dict d = OK t -> sibling_names_distinct t = true.
Proof. intros H. by apply from_dict_fuel_names_distinct in H as [_ ?]. Qed.

(** ** The order of strings and [sorted] *)

Lemma string_compare_cons (a b : ascii) (s t : string) :
  String.compare (String a s) (String b t) =
    match Ascii.compare a b with
    | Eq => String.compare s t
    | ne => ne
    end.
Proof. reflexivity. Qed.

Lemma string_leb_trans (s1 s2 s3 : string) :
  String.leb s1 s2 = true -> String.leb s2 s3 = true -> String.leb s1 s3 = true.
Proof.
  unfold String.leb. revert s2 s3.
  induction s1 as [|a s1 IH]; intros [|b s2] [|c s3]; try done.
  rewrite !string_compare_cons. unfold Ascii.compare.
  destruct (N.compare_spec (N_of_ascii a) (N_of_ascii b)) as [Hab|Hab|Hab];
    destruct (N.compare_spec (N_of_ascii b) (N_of_ascii c)) as [Hbc|Hbc|Hbc];
    destruct (N.compare_spec (N_of_ascii a) (N_of_ascii c)) as [Hac|Hac|Hac];
    try done; try lia.
  apply IH.
Qed.

#[global] Instance str_le_trans : Transitive str_le.
Proof. intros s1 s2 s3. apply string_leb_trans. Qed.

#[global] Instance str_le_antisym : AntiSymm (=) str_le.
Proof. intros s1 s2. apply String.leb_antisym. Qed.

#[global] Instance str_le_total : Total str_le.
Proof. intros s1 s2. apply String.leb_total. Qed.

#[global] Instance child_name_le_trans : Transitive child_name_le.
Proof. intros a b c. apply string_leb_trans. Qed.

#[global] Instance child_name_le_total : Total child_name_le.
Proof. intros a b. apply String.leb_total. Qed.

(** [sorted] does not depend on the order of the list it is given. *)
Lemma sorted_Permutation (l1 l2 : list string) :
  l1 ≡ₚ l2 -> sorted l1 = sorted l2.
Proof.
  intros Hp. unfold sorted. apply (Sorted_unique str_le).
  - apply Sorted_merge_sort, _.
  - apply Sorted_merge_sort, _.
  - by rewrite !merge_sort_Permutation.
Qed.

(** Sorting the children by name puts their names in the order [sorted]
    gives. *)
Lemma children_in_name_order_keys (children : list (pyval * TreeNode)) :
  map (fun kv => key_str (fst kv)) (children_in_name_order children) =
  sorted (map (fun kv => key_str (fst kv)) children).
Proof.
  unfold sorted, children_in_name_order. apply (Sorted_unique str_le).
  - apply (Sorted_fmap _ child_name_le str_le); [done|].
    apply Sorted_merge_sort, _.
  - apply Sorted_merge_sort, _.
  - rewrite !merge_sort_Permutation. done.
Qed.

Example sorted_example : sorted ["b"; "a"; "B"; "ab"] = ["B"; "a"; "ab"; "b"].
Proof. reflexivity. Qed.

(** ** Dictionaries keyed by strings *)

Lemma dict_setitem_str_fresh {V} (k : string) (v : V) (d : list (string * V)) :
  ~ In k (dict_keys d) -> dict_setitem String.eqb k v d = d ++ [(k, v)].
Proof.
  intros Hk. apply dict_setitem_fresh.
  apply not_true_is_false. intros (e & He & ->%String.eqb_eq)%existsb_exists.
  done.
Qed.

Lemma store_all_str_NoDup {V} (stores acc : list (string * V)) :
  List.NoDup (dict_keys acc ++ dict_keys stores) ->
  store_all String.eqb stores acc = acc ++ stores.
Proof.
  revert acc. induction stores as [|[k v] stores IH]; intros acc Hnd.
  - by rewrite app_nil_r.
  - unfold store_all in *. simpl in *.
    rewrite dict_setitem_str_fresh.
    + rewrite IH; [by rewrite <- app_assoc|].
      unfold dict_keys in *. rewrite map_app. simpl.
      by rewrite <- app_assoc.
    + apply NoDup_remove_2 in Hnd. intros Hin. apply Hnd.
      apply in_or_app. by left.
Qed.

Lemma dict_getitem_str_NoDup {V} (k : string) (v : V) (d : list (string * V)) :
  List.NoDup (dict_keys d) -> In (k, v) d ->
  dict_getitem String.eqb k d = Some v.
Proof.
  induction d as [|[k' v'] d IH]; simpl; [done|].
  intros Hnd [[= -> ->]|Hin].
  - by rewrite String.eqb_refl.
  - inversion Hnd as [|? ? Hk' Hnd']; subst.
    destruct (String.eqb_spec k' k) as [->|_]; [|by apply IH].
    exfalso. apply Hk'. unfold dict_keys. apply in_map_iff. by exists (k, v).
Qed.

Lemma dict_getitem_str_None {V} (k : string) (d : list (string * V)) :
  ~ In k (dict_keys d) -> dict_getitem String.eqb k d = None.
Proof.
  induction d as [|[k' v'] d IH]; simpl; [done|].
  intros Hk. destruct (String.eqb_spec k' k) as [->|_]; [tauto|].
  apply IH. tauto.
Qed.

Lemma NoDup_keys_setitem_str {V} (k : string) (v : V) (d : list (string * V)) :
  List.NoDup (dict_keys d) ->
  List.NoDup (dict_keys (dict_setitem String.eqb k v d)).
Proof.
  intros Hnd. rewrite dict_keys_setitem.
  destruct (existsb _ _) eqn:Hex; [done|].
  apply NoDup_ListNoDup, NoDup_app. rewrite !NoDup_ListNoDup.
  split; [done|]. split; [|apply NoDup_ListNoDup, NoDup_singleton].
  intros x Hx ->%list_elem_of_singleton.
  apply not_true_iff_false in Hex. apply Hex.
  apply existsb_exists. exists k. split; [by apply list_elem_of_In|].
  apply String.eqb_refl.
Qed.

Lemma Forall_setitem_str {V} (P : string * V -> Prop) (k : string) (v : V)
    (d : list (string * V)) :
  P (k, v) -> Forall P d -> Forall P (dict_setitem String.eqb k v d).
Proof.
  intros Hkv Hd. induction Hd as [|[e ve] d He Hd IH]; simpl.
  - by repeat constructor.
  - destruct (String.eqb_spec e k) as [->|_]; by constructor.
Qed.

Lemma store_all_str_invariant {V} (P : string * V -> Prop)
    (stores acc : list (string * V)) :
  Forall P stores -> Forall P acc -> List.NoDup (dict_keys acc) ->
  Forall P (store_all String.eqb stores acc) /\
  List.NoDup (dict_keys (store_all String.eqb stores acc)).
Proof.
  intros Hs. revert acc. induction Hs as [|[k v] stores Hkv _ IH]; intros acc Ha Hnd.
  - done.
  - unfold store_all in *. simpl. apply IH.
    + by apply Forall_setitem_str.
    + by apply NoDup_keys_setitem_str.
Qed.

Lemma distinct_keys_PStr (l : list string) :
  List.NoDup l -> distinct_keys (map PStr l) = true.
Proof.
  induction 1 as [|k l Hk _ IH]; simpl; [done|].
  rewrite IH, andb_true_r. apply negb_true_iff, not_true_is_false.
  intros (e & (k' & <- & Hin)%in_map_iff & Heq%String.eqb_eq)%existsb_exists.
  by subst.
Qed.

(** ** The builder *)

Lemma str_take_drop_length (n : nat) (s : string) :
  String.length (str_take n s) + String.length (str_drop n s) = String.length s.
Proof.
  revert s. induction n as [|n IH]; intros [|c s]; simpl; try done.
  by rewrite IH.
Qed.

(** Induction on a filesystem entry with the hypothesis for every entry of
    a directory listing. *)
Lemma fsentry_ind' (P : fsentry -> Prop) :
  (forall m content, P (FsFile m content)) ->
  (forall m listing,
     Forall (fun ne => P (snd ne)) listing -> P (FsDir m listing)) ->
  (forall m points_to resolves, P (FsSymlink m points_to resolves)) ->
  (forall m, P (FsOther m)) ->
  forall e, P e.
Proof.
  intros Hfile Hdir Hsym Hother. fix IH 1. intros [m c|m listing|m t r|m].
  - apply Hfile.
  - apply Hdir. induction listing as [|[n e] listing IHl]; constructor.
    + apply IH.
    + apply IHl.
  - apply Hsym.
  - apply Hother.
Qed.

Section BuilderFacts.
Context {hstate : Type}.
Variable xxh64 : hstate.
Variable update : hstate -> string -> hstate.
Variable hexdigest : hstate -> string.

Local Abbreviation build := (TreeNode_build_node xxh64 update hexdigest).
Local Abbreviation returns := (returns_ok xxh64 update hexdigest).

Lemma read_loop_returns (fuel : nat) (message : hstate) (file_buffer f : string) :
  String.length file_buffer + String.length f <= fuel ->
  exists m, read_loop update fuel message file_buffer f = Some m.
Proof.
  revert message file_buffer f.
  induction fuel as [|fuel IH]; intros message file_buffer f Hlen; simpl.
  - destruct (String.length file_buffer) eqn:Hb; simpl; [eauto|lia].
  - destruct (String.length file_buffer) eqn:Hb; simpl; [eauto|].
    apply IH. rewrite str_take_drop_length. lia.
Qed.

(** The checksum of a file node is determined by the bytes of the file. *)
Lemma FileNode_build_node_content (content : string) :
  exists checksum, forall st_mode path name,
    FileNode_build_node xxh64 update hexdigest (FsFile st_mode content) path name
    = OK (FileNode (PStr name) (PStr checksum) (PInt (S_IMODE st_mode))).
Proof.
  destruct (read_loop_returns (String.length content) xxh64
              (str_take BLOCKSIZE content) (str_drop BLOCKSIZE content))
    as [m Hm].
  { by rewrite str_take_drop_length. }
  exists (hexdigest m). intros st_mode path name.
  unfold FileNode_build_node. simpl. by rewrite Hm.
Qed.

Lemma SymlinkNode_build_node_target st_mode points_to resolves path name :
  SymlinkNode_build_node xxh64 update hexdigest
    (FsSymlink st_mode points_to resolves) path name
  = OK (SymlinkNode (PStr name) (PStr (hexdigest (update xxh64 points_to)))
          (PInt (S_IMODE st_mode))).
Proof. reflexivity. Qed.
Lemma listdir_loop_spec (path : string) (listing : list (string * fsentry))
    (children : list (string * option TreeNode)) (out : list string) :
  Forall (fun ne => returns (snd ne)) listing ->
  exists out',
    listdir_loop build path listing children out
    = (OK (store_all String.eqb
             (built_children xxh64 update hexdigest path listing) children),
       out') /\
    (forall line, In line out -> In line out') /\
    (forall n e, In (n, e) listing ->
       os_path_isfile e || os_path_isdir e = false ->
       In ("Ignored: " +:+ os_path_join path n) out').
Proof.
  intros H. revert children out.
  induction H as [|[n e] listing He _ IH]; intros children out; simpl.
  - exists out. by repeat split.
  - unfold built_children. simpl.
    destruct (os_path_isfile e || os_path_isdir e) eqn:Hguard.
    + apply orb_true_iff in Hguard.
      assert (negb (os_path_isfile e) && negb (os_path_isdir e) = false) as ->.
      { destruct Hguard as [-> | ->]; simpl; [done|apply andb_false_r]. }
      simpl in He.
      destruct (He (os_path_join path n) n) as (r & printed & Hb & _).
      rewrite Hb.
      destruct (IH (dict_setitem String.eqb n r children) (out ++ printed))
        as (out' & Hloop & Hout & Hign).
      exists out'. split; [|split].
      * rewrite Hloop. unfold built_children, built_node, store_all. simpl.
        by rewrite Hb.
      * intros line Hin. apply Hout, in_or_app. by left.
      * intros n' e' [[= -> ->]|Hin] Hg; [|by eapply Hign].
        destruct Hguard as [Hf|Hd]; rewrite ?Hf, ?Hd, ?orb_true_r in Hg; done.
    + apply orb_false_elim in Hguard as [-> ->]. simpl.
      destruct (IH children
                  (out ++ ["Ignored: " +:+ os_path_join path n]))
        as (out' & Hloop & Hout & Hign).
      exists out'. split; [done|split].
      * intros line Hin. apply Hout, in_or_app. by left.
      * intros n' e' [[= -> ->]|Hin] Hg; [|by eapply Hign].
        apply Hout, in_or_app. right. by left.
Qed.

Lemma built_children_stored_ok (path : string)
    (listing : list (string * fsentry)) :
  Forall (fun ne => returns (snd ne)) listing ->
  Forall stored_ok (built_children xxh64 update hexdigest path listing).
Proof.
  intros H. unfold built_children.
  induction H as [|[n e] listing He _ IH]; simpl; [constructor|].
  destruct (os_path_isfile e || os_path_isdir e) eqn:Hguard; [|done].
  simpl in *. constructor; [|done].
  destruct (He (os_path_join path n) n) as (r & printed & Hb & Hr).
  unfold stored_ok, built_node. simpl. rewrite Hb. simpl.
  destruct r as [node|].
  - exists node. by destruct Hr.
  - apply orb_false_elim in Hr as [Hr Hd].
    apply orb_false_elim in Hr as [_ Hf].
    rewrite Hf, Hd in Hguard. done.
Qed.
Lemma children_dict_ok (children : list (string * option TreeNode)) :
  Forall stored_ok children ->
  exists nodes,
    children_dict children = OK nodes /\
    Forall2 (fun kv nv => fst nv = PStr (fst kv) /\ snd kv = Some (snd nv) /\
                          built_ok (fst kv) (snd nv)) children nodes.
Proof.
  induction 1 as [|[n r] children (node & Hr & Hok) _ (nodes & Hd & Hf)].
  - by exists [].
  - simpl in *. subst r. rewrite Hd. simpl.
    exists ((PStr n, node) :: nodes). split; [done|]. by constructor.
Qed.

Lemma child_checksums_of_spec (children : list (string * option TreeNode))
    (l : list (pyval * TreeNode)) :
  List.NoDup (dict_keys children) ->
  (forall nv, In nv l ->
     exists n, fst nv = PStr n /\ In (n, Some (snd nv)) children) ->
  child_checksums_of children (map (fun nv => key_str (fst nv)) l)
  = OK (map (fun nv => node_checksum (snd nv)) l).
Proof.
  intros Hnd. induction l as [|[k node] l IH]; intros Hl; simpl; [done|].
  destruct (Hl (k, node) (or_introl eq_refl)) as (n & Hk & Hin).
  simpl in *. subst k. simpl.
  rewrite (dict_getitem_str_NoDup n (Some node) children Hnd Hin).
  rewrite IH; [done|]. intros nv Hnv. apply Hl. by right.
Qed.

Lemma update_all_str (message : hstate) (digests : list pyval) :
  Forall (fun v => is_str v = true) digests ->
  exists message', update_all update message digests = OK message'.
Proof.
  intros H. revert message.
  induction H as [|v digests Hv _ IH]; intros message; simpl; [eauto|].
  destruct v; try done. simpl. apply IH.
Qed.

(** The body of [DirectoryNode.build_node]: the children it stores and
    the digest it computes. *)
Lemma DirectoryNode_build_spec (path : string) (st_mode : Z)
    (listing : list (string * fsentry)) (name : string) :
  Forall (fun ne => returns (snd ne)) listing ->
  exists nodes out message,
    DirectoryNode_build xxh64 update hexdigest build path st_mode listing name
    = (OK (DirectoryNode (PStr name) (PStr (hexdigest message))
             (PInt (S_IMODE st_mode)) nodes), out) /\
    Forall2 (fun kv nv => fst nv = PStr (fst kv) /\ snd kv = Some (snd nv) /\
                          built_ok (fst kv) (snd nv))
      (store_all String.eqb
         (built_children xxh64 update hexdigest path listing) []) nodes /\
    List.NoDup (dict_keys (store_all String.eqb
         (built_children xxh64 update hexdigest path listing) [])) /\
    child_checksums_of
      (store_all String.eqb
         (built_children xxh64 update hexdigest path listing) [])
      (sorted (dict_keys (store_all String.eqb
         (built_children xxh64 update hexdigest path listing) [])))
    = OK (map (fun nv => node_checksum (snd nv))
            (children_in_name_order nodes)) /\
    update_all update xxh64
      (map (fun nv => node_checksum (snd nv)) (children_in_name_order nodes))
    = OK message /\
    (forall n e, In (n, e) listing ->
       os_path_isfile e || os_path_isdir e = false ->
       In ("Ignored: " +:+ os_path_join path n) out).
Proof.
  intros Hret.
  destruct (listdir_loop_spec path listing [] [] Hret)
    as (out & Hloop & _ & Hign).
  set (children := store_all String.eqb
         (built_children xxh64 update hexdigest path listing) []) in *.
  destruct (store_all_str_invariant stored_ok
              (built_children xxh64 update hexdigest path listing) [])
    as [Hok Hnd]; [by apply built_children_stored_ok|constructor|constructor|].
  fold children in Hok, Hnd.
  destruct (children_dict_ok children Hok) as (nodes & Hnodes & Hf2).
  assert (forall nv, In nv nodes ->
            exists n, fst nv = PStr n /\ In (n, Some (snd nv)) children /\
                      built_ok n (snd nv)) as Hin.
  { clear -Hf2. induction Hf2 as [|[n r] nv children nodes (Hk & Hr & Hb) _ IH].
    - done.
    - intros nv' [<-|Hnv'].
      + exists n. simpl in *. subst r. split; [done|]. split; [by left|done].
      + destruct (IH nv' Hnv') as (n' & ? & ? & ?).
        exists n'. split; [done|]. split; [by right|done]. }
  assert (map (fun nv => key_str (fst nv)) nodes = dict_keys children) as Hkeys.
  { clear -Hf2. induction Hf2 as [|kv nv ? ? (Hk & _) _ IH]; simpl; [done|].
    by rewrite Hk, IH. }
  assert (children_in_name_order nodes ≡ₚ nodes) as Hperm
    by apply merge_sort_Permutation.
  assert (child_checksums_of children (sorted (dict_keys children))
          = OK (map (fun nv => node_checksum (snd nv))
                  (children_in_name_order nodes))) as Hsums.
  { rewrite <- Hkeys, <- children_in_name_order_keys.
    apply child_checksums_of_spec; [done|].
    intros nv Hnv. destruct (Hin nv) as (n & ? & ? & _); [|by exists n].
    apply list_elem_of_In. rewrite <- Hperm. by apply list_elem_of_In. }
  destruct (update_all_str xxh64
              (map (fun nv => node_checksum (snd nv))
                 (children_in_name_order nodes))) as [message Hmsg].
  { apply Forall_forall. intros v (nv & <- & Hnv%list_elem_of_In)%list_elem_of_In%in_map_iff.
    rewrite Hperm in Hnv. apply list_elem_of_In in Hnv.
    destruct (Hin nv Hnv) as (n & _ & _ & _ & Hs & _). done. }
  exists nodes, out, message. split; [|done].
  unfold DirectoryNode_build. rewrite Hloop. fold children.
  rewrite Hsums. simpl. rewrite Hmsg. simpl. by rewrite Hnodes.
Qed.

(** The builder returns for every entry of the filesystem. *)
Lemma TreeNode_build_node_returns (e : fsentry) : returns e.
Proof.
  induction e as [m content|m listing IH|m points_to resolves|m]
    using fsentry_ind'; intros path name.
  - destruct (FileNode_build_node_content content) as [checksum Hc].
    exists (Some (FileNode (PStr name) (PStr checksum) (PInt (S_IMODE m)))), [].
    split; [|done]. simpl. unfold wrap_node. by rewrite Hc.
  - destruct (DirectoryNode_build_spec path m listing name IH)
      as (nodes & out & message & Hb & Hf2 & Hnd & _ & _ & _).
    eexists (Some _), out. split.
    + simpl. rewrite Hb. done.
    + split; [done|]. split; [done|]. split; [done|]. simpl.
      apply andb_true_intro. split.
      * replace (map (fun kv => node_name (snd kv)) nodes)
          with (map PStr (dict_keys (store_all String.eqb
                  (built_children xxh64 update hexdigest path listing) []))).
        { by apply distinct_keys_PStr. }
        clear -Hf2. induction Hf2 as [|kv nv ? ? (_ & _ & Hn & _) _ IHf];
          simpl; [done|]. by rewrite Hn, IHf.
      * apply forallb_forall. intros nv Hnv.
        clear -Hf2 Hnv. induction Hf2 as [|kv nv' ? ? (_ & _ & _ & _ & Hs) _ IHf].
        -- done.
        -- destruct Hnv as [<-|Hnv]; [done|by apply IHf].
  - exists (Some (SymlinkNode (PStr name)
                    (PStr (hexdigest (update xxh64 points_to)))
                    (PInt (S_IMODE m)))), [].
    split; [done|]. done.
  - exists None, ["Could not backup: " +:+ path]. done.
Qed.
Lemma built_children_keys (path : string) (listing : list (string * fsentry)) :
  dict_keys (built_children xxh64 update hexdigest path listing)
  = map fst (List.filter
               (fun ne => os_path_isfile (snd ne) || os_path_isdir (snd ne))
               listing).
Proof. unfold built_children, dict_keys. by rewrite map_map. Qed.

Lemma built_children_NoDup (path : string) (listing : list (string * fsentry)) :
  List.NoDup (map fst listing) ->
  List.NoDup (dict_keys (built_children xxh64 update hexdigest path listing)).
Proof.
  rewrite built_children_keys.
  induction listing as [|[n e] listing IH]; simpl; [done|].
  intros Hnd. inversion Hnd as [|? ? Hn Hnd']; subst.
  destruct (os_path_isfile e || os_path_isdir e); simpl; [|by apply IH].
  constructor; [|by apply IH].
  intros (ne & <- & [Hin _]%filter_In)%in_map_iff.
  apply Hn, in_map_iff. by exists ne.
Qed.

Lemma built_children_Permutation (path : string)
    (listing listing' : list (string * fsentry)) :
  listing ≡ₚ listing' ->
  built_children xxh64 update hexdigest path listing
  ≡ₚ built_children xxh64 update hexdigest path listing'.
Proof.
  intros Hp. unfold built_children. apply Permutation_map.
  induction Hp as [|x l l' _ IH|x y l|l l' l'' _ IH1 _ IH2]; simpl.
  - done.
  - destruct (os_path_isfile _ || _); [by constructor|done].
  - destruct (os_path_isfile (snd x) || _), (os_path_isfile (snd y) || _);
      try done. apply perm_swap.
  - by rewrite IH1.
Qed.

(** Without duplicates in the listing, the children dict holds the built
    children in the order of the listing. *)
Lemma store_all_built_children (path : string)
    (listing : list (string * fsentry)) :
  List.NoDup (map fst listing) ->
  store_all String.eqb (built_children xxh64 update hexdigest path listing) []
  = built_children xxh64 update hexdigest path listing.
Proof.
  intros Hnd. rewrite store_all_str_NoDup; [done|].
  by apply built_children_NoDup.
Qed.
End BuilderFacts.

Lemma dict_getitem_str_In {V} (k : string) (v : V) (d : list (string * V)) :
  dict_getitem String.eqb k d = Some v -> In (k, v) d.
Proof.
  induction d as [|[k' v'] d IH]; simpl; [done|].
  destruct (String.eqb_spec k' k) as [->|_].
  - intros [= ->]. by left.
  - intros H. right. by apply IH.
Qed.

Lemma dict_getitem_str_not_In {V} (k : string) (d : list (string * V)) :
  dict_getitem String.eqb k d = None -> ~ In k (dict_keys d).
Proof.
  induction d as [|[k' v'] d IH]; simpl; [tauto|].
  destruct (String.eqb_spec k' k) as [->|Hne]; [done|].
  intros H [?|?]; [done|by apply IH].
Qed.

Lemma dict_getitem_str_Permutation {V} (k : string) (d d' : list (string * V)) :
  List.NoDup (dict_keys d) -> d ≡ₚ d' ->
  dict_getitem String.eqb k d = dict_getitem String.eqb k d'.
Proof.
  intros Hnd Hp.
  assert (List.NoDup (dict_keys d')) as Hnd'.
  { eapply Permutation_NoDup; [|exact Hnd]. by apply Permutation_map. }
  destruct (dict_getitem String.eqb k d) as [v|] eqn:Hd.
  - symmetry. apply dict_getitem_str_NoDup; [done|].
    eapply Permutation_in; [exact Hp|]. by apply dict_getitem_str_In.
  - symmetry. apply dict_getitem_str_None.
    intros Hin. apply (dict_getitem_str_not_In k d Hd).
    eapply Permutation_in; [|exact Hin].
    apply Permutation_map. by symmetry.
Qed.

Lemma child_checksums_of_ext (c1 c2 : list (string * option TreeNode))
    (names : list string) :
  (forall n, dict_getitem String.eqb n c1 = dict_getitem String.eqb n c2) ->
  child_checksums_of c1 names = child_checksums_of c2 names.
Proof.
  intros Hext. induction names as [|n names IH]; simpl; [done|].
  by rewrite Hext, IH.
Qed.

Lemma dict_getitem_nodes (k : string)
    (children : list (string * option TreeNode))
    (nodes : list (pyval * TreeNode)) :
  Forall2 (fun kv nv => fst nv = PStr (fst kv) /\ snd kv = Some (snd nv) /\
                        built_ok (fst kv) (snd nv)) children nodes ->
  dict_getitem key_eqb (PStr k) nodes =
    match dict_getitem String.eqb k children with
    | Some r => r
    | None => None
    end.
Proof.
  induction 1 as [|[n r] [k' node] children nodes (Hk & Hr & _) _ IH]; simpl;
    [done|].
  simpl in *. subst k' r. simpl. by destruct (String.eqb n k).
Qed.


Section BuilderClaims.
Context {hstate : Type}.
Variable xxh64 : hstate.
Variable update : hstate -> string -> hstate.
Variable hexdigest : hstate -> string.

Local Abbreviation build := (TreeNode_build_node xxh64 update hexdigest).
Local Abbreviation build_dir :=
  (DirectoryNode_build_node xxh64 update hexdigest).

Lemma DirectoryNode_build_node_spec (st_mode : Z)
    (listing : list (string * fsentry)) (path name : string) :
  exists nodes out message,
    build_dir (FsDir st_mode listing) path name
    = (OK (DirectoryNode (PStr name) (PStr (hexdigest message))
             (PInt (S_IMODE st_mode)) nodes), out) /\
    update_all update xxh64
      (map (fun nv => node_checksum (snd nv)) (children_in_name_order nodes))
    = OK message.
Proof.
  destruct (DirectoryNode_build_spec xxh64 update hexdigest path st_mode
              listing name) as (nodes & out & message & Hb & _ & _ & _ & Hm & _).
  { apply Forall_forall. intros ne _. apply TreeNode_build_node_returns. }
  by exists nodes, out, message.
Qed.

Lemma update_all_fold (message : hstate) (digests : list string) :
  update_all update message (map PStr digests)
  = OK (fold_left update digests message).
Proof.
  revert message. induction digests as [|d digests IH]; intros message;
    [done|apply IH].
Qed.

Lemma str_values (l : list pyval) :
  Forall (fun v => is_str v = true) l -> exists strs, l = map PStr strs.
Proof.
  induction 1 as [|v l Hv _ [strs ->]]; [by exists []|].
  destruct v as [| | |d| |]; try done. by exists (d :: strs).
Qed.

Lemma built_nodes_stored (path : string) (l : list (string * fsentry))
    (nodes : list (pyval * TreeNode)) :
  Forall2 (fun kv nv => fst nv = PStr (fst kv) /\ snd kv = Some (snd nv) /\
                        built_ok (fst kv) (snd nv))
    (built_children xxh64 update hexdigest path l) nodes ->
  nodes = built_nodes xxh64 update hexdigest path l.
Proof.
  unfold built_children, built_nodes.
  generalize (List.filter
                (fun ne => os_path_isfile (snd ne) || os_path_isdir (snd ne))
                l).
  intros entries. revert nodes.
  induction entries as [|ne entries IH]; intros nodes Hf2; simpl in *.
  - by inversion Hf2.
  - inversion Hf2 as [|kv [k node] ? nodes' (Hk & Hr & _) Hrest]; subst.
    simpl in *. rewrite Hr, Hk. simpl. f_equal. by apply IH.
Qed.

(** The body of [DirectoryNode.build_node], with the digest written out:
    the children stored, the checksums that are read in the order of the
    sorted names, and the hash fed with them one after the other. *)
Lemma DirectoryNode_build_digest (st_mode : Z)
    (listing : list (string * fsentry)) (path name : string) :
  exists nodes out digests,
    build_dir (FsDir st_mode listing) path name
    = (OK (DirectoryNode (PStr name)
             (PStr (hexdigest (fold_left update digests xxh64)))
             (PInt (S_IMODE st_mode)) nodes), out) /\
    Forall2 (fun kv nv => fst nv = PStr (fst kv) /\ snd kv = Some (snd nv) /\
                          built_ok (fst kv) (snd nv))
      (store_all String.eqb
         (built_children xxh64 update hexdigest path listing) []) nodes /\
    child_checksums_of
      (store_all String.eqb
         (built_children xxh64 update hexdigest path listing) [])
      (sorted (dict_keys (store_all String.eqb
         (built_children xxh64 update hexdigest path listing) [])))
    = OK (map PStr digests) /\
    map (fun nv => node_checksum (snd nv)) (children_in_name_order nodes)
    = map PStr digests.
Proof.
  destruct (DirectoryNode_build_spec xxh64 update hexdigest path st_mode
              listing name)
    as (nodes & out & message & Hb & Hf2 & _ & Hs & Hm & _).
  { apply Forall_forall. intros ne _. apply TreeNode_build_node_returns. }
  destruct (str_values
              (map (fun nv => node_checksum (snd nv))
                 (children_in_name_order nodes))) as [digests Hd].
  { apply Forall_forall.
    intros v (nv & <- & Hnv%list_elem_of_In)%list_elem_of_In%in_map_iff.
    unfold children_in_name_order in Hnv.
    rewrite merge_sort_Permutation in Hnv.
    clear -Hf2 Hnv. induction Hf2 as [|kv nv' ? ? (_ & _ & _ & Hstr & _) _ IH].
    - by apply elem_of_nil in Hnv.
    - apply elem_of_cons in Hnv as [->|Hnv]; [done|by apply IH]. }
  rewrite Hd in Hs, Hm. rewrite update_all_fold in Hm. injection Hm as <-.
  by exists nodes, out, digests.
Qed.

(** C1: the checksum of the directory node that [DirectoryNode.build_node]
    returns is the hexadecimal digest of one fresh hash fed, one after the
    other, with the checksum strings of the children the node holds, taken
    in lexicographic order of their names; nothing else is fed, the names
    only give the order.  The children the node holds are the nodes built
    for the entries of the listing that are files or directories.
    Building the directory from a listing enumerated in another order
    gives the same checksum. *)
Theorem DirectoryNode_checksum_in_name_order (st_mode : Z)
    (listing : list (string * fsentry)) (path name : string) :
  exists nodes ordered digests out,
    build_dir (FsDir st_mode listing) path name
    = (OK (DirectoryNode (PStr name)
             (PStr (hexdigest (fold_left update digests xxh64)))
             (PInt (S_IMODE st_mode)) nodes), out) /\
    (forall n,
       dict_getitem key_eqb (PStr n) nodes
       = built_child xxh64 update hexdigest path listing n) /\
    (NoDup (map fst listing) ->
     nodes = built_nodes xxh64 update hexdigest path listing) /\
    ordered ≡ₚ nodes /\
    StronglySorted child_name_le ordered /\
    map (fun nv => node_checksum (snd nv)) ordered = map PStr digests /\
    forall listing',
      NoDup (map fst listing) -> listing ≡ₚ listing' ->
      exists out',
        build_dir (FsDir st_mode listing') path name
        = (OK (DirectoryNode (PStr name)
                 (PStr (hexdigest (fold_left update digests xxh64)))
                 (PInt (S_IMODE st_mode))
                 (built_nodes xxh64 update hexdigest path listing')), out').
Proof.
  destruct (DirectoryNode_build_digest st_mode listing path name)
    as (nodes & out & digests & Hb & Hf2 & Hs & Hd).
  exists nodes, (children_in_name_order nodes), digests, out.
  split; [exact Hb|]. split; [|split; [|split; [|split; [|split]]]].
  - intros n. rewrite (dict_getitem_nodes n _ nodes Hf2).
    rewrite (dict_getitem_store_all String.eqb).
    + unfold built_child.
      by destruct (last_value String.eqb n
                     (built_children xxh64 update hexdigest path listing)).
    + intros a b. apply String.eqb_sym.
    + intros a b c. apply string_eqb_trans.
  - intros Hnd%NoDup_ListNoDup.
    rewrite store_all_built_children in Hf2 by done.
    by apply built_nodes_stored.
  - apply merge_sort_Permutation.
  - apply StronglySorted_merge_sort; apply _.
  - exact Hd.
  - intros listing' Hnd%NoDup_ListNoDup Hp.
    assert (List.NoDup (map fst listing')) as Hnd'.
    { eapply Permutation_NoDup; [|exact Hnd]. by apply Permutation_map. }
    destruct (DirectoryNode_build_digest st_mode listing' path name)
      as (nodes' & out' & digests' & Hb' & Hf2' & Hs' & _).
    rewrite !store_all_built_children in Hs, Hs', Hf2' by done.
    apply built_nodes_stored in Hf2' as ->.
    pose proof (built_children_Permutation xxh64 update hexdigest path _ _ Hp)
      as Hpc.
    rewrite (sorted_Permutation _
               (dict_keys (built_children xxh64 update hexdigest path listing')))
      in Hs by (by apply Permutation_map).
    rewrite (child_checksums_of_ext _
               (built_children xxh64 update hexdigest path listing')) in Hs.
    + rewrite Hs in Hs'. injection Hs' as Hs'.
      assert (digests = digests') as ->.
      { clear -Hs'. revert digests' Hs'.
        induction digests as [|d digests IH]; intros [|d' digests'] H;
          try done.
        injection H as -> H. f_equal. by apply IH. }
      by exists out'.
    + intros n. apply dict_getitem_str_Permutation; [|done].
      by apply built_children_NoDup.
Qed.

(** C8: the checksum of a node is a function of its content alone: of the
    bytes for a file node, of the text of the link for a symlink node
    (whatever it resolves to), of the checksums of the children in
    sorted-name order for a directory node.  The permission bits of the
    entry are stored on the node and do not change the checksum. *)
Theorem checksum_depends_on_content_only :
  (forall content, exists checksum, forall st_mode path name,
     FileNode_build_node xxh64 update hexdigest (FsFile st_mode content)
       path name
     = OK (FileNode (PStr name) (PStr checksum) (PInt (S_IMODE st_mode)))) /\
  (forall points_to st_mode resolves path name,
     SymlinkNode_build_node xxh64 update hexdigest
       (FsSymlink st_mode points_to resolves) path name
     = OK (SymlinkNode (PStr name)
             (PStr (hexdigest (update xxh64 points_to)))
             (PInt (S_IMODE st_mode)))) /\
  (forall st_mode1 st_mode2 listing1 listing2 path1 path2 name1 name2,
     exists nodes1 nodes2 out1 out2 checksum1 checksum2,
       build_dir (FsDir st_mode1 listing1) path1 name1
       = (OK (DirectoryNode (PStr name1) (PStr checksum1)
                (PInt (S_IMODE st_mode1)) nodes1), out1) /\
       build_dir (FsDir st_mode2 listing2) path2 name2
       = (OK (DirectoryNode (PStr name2) (PStr checksum2)
                (PInt (S_IMODE st_mode2)) nodes2), out2) /\
       (map (fun nv => node_checksum (snd nv)) (children_in_name_order nodes1)
        = map (fun nv => node_checksum (snd nv))
            (children_in_name_order nodes2) ->
        checksum1 = checksum2)).
Proof.
  split; [apply FileNode_build_node_content|]. split; [done|].
  intros st_mode1 st_mode2 listing1 listing2 path1 path2 name1 name2.
  destruct (DirectoryNode_build_node_spec st_mode1 listing1 path1 name1)
    as (nodes1 & out1 & message1 & Hb1 & Hm1).
  destruct (DirectoryNode_build_node_spec st_mode2 listing2 path2 name2)
    as (nodes2 & out2 & message2 & Hb2 & Hm2).
  exists nodes1, nodes2, out1, out2, (hexdigest message1), (hexdigest message2).
  split; [done|]. split; [done|].
  intros Heq. rewrite Heq in Hm1. rewrite Hm1 in Hm2. by injection Hm2 as ->.
Qed.
End BuilderClaims.

Section SymlinkChildren.
Context {hstate : Type}.
Variable xxh64 : hstate.
Variable update : hstate -> string -> hstate.
Variable hexdigest : hstate -> string.

Local Abbreviation build := (TreeNode_build_node xxh64 update hexdigest).
Local Abbreviation build_dir :=
  (DirectoryNode_build_node xxh64 update hexdigest).

End SymlinkChildren.


(** ** Traversal *)

Lemma list_pop_snoc {A} (l : list A) (x : A) : list_pop (l ++ [x]) = Some (x, l).
Proof.
  induction l as [|y l IH]; simpl; [done|].
  rewrite IH. by destruct l.
Qed.

Lemma stack_walk_app (a b : list (TreeNode * string)) :
  stack_walk (a ++ b) = stack_walk b ++ stack_walk a.
Proof.
  induction a as [|[n p] a IH]; simpl.
  - by rewrite app_nil_r.
  - by rewrite IH, app_assoc.
Qed.

Lemma stack_count_app (a b : list (TreeNode * string)) :
  stack_count (a ++ b) = stack_count a + stack_count b.
Proof.
  unfold stack_count. induction a as [|[n p] a IH]; simpl; [done|].
  rewrite IH. lia.
Qed.

Lemma last_first_walk_directory (n c p : pyval)
    (children : list (pyval * TreeNode)) (path : string) :
  last_first_walk (DirectoryNode n c p children) path
  = (DirectoryNode n c p children, path) :: stack_walk (pushed path children).
Proof.
  simpl. f_equal. induction children as [|[k t] children IH]; simpl; [done|].
  by rewrite IH.
Qed.

Lemma node_count_directory (n c p : pyval) (children : list (pyval * TreeNode))
    (path : string) :
  node_count (DirectoryNode n c p children)
  = S (stack_count (pushed path children)).
Proof.
  simpl. f_equal. unfold stack_count, pushed.
  induction children as [|[k t] children IH]; simpl; [done|]. by rewrite IH.
Qed.

Lemma push_children_str (path : string) (children : list (pyval * TreeNode))
    (stack : list (TreeNode * string)) :
  forallb (fun kv => is_str (fst kv) && str_keys (snd kv)) children = true ->
  push_children path children stack = OK (stack ++ pushed path children) /\
  Forall (fun np => str_keys (fst np) = true) (pushed path children).
Proof.
  revert stack. induction children as [|[k t] children IH]; intros stack; simpl.
  - intros _. by rewrite app_nil_r.
  - intros [[Hk Ht]%andb_prop Hc]%andb_prop.
    destruct k; try done. simpl.
    destruct (IH (stack ++ [(t, os_path_join path s)]) Hc) as [-> Hf].
    split; [by rewrite <- app_assoc|by constructor].
Qed.

Lemma node_count_pos (n : TreeNode) : 1 <= node_count n.
Proof. destruct n; simpl; lia. Qed.

(** With enough fuel the loop empties its stack, and yields the walks of
    the stacked nodes from the top down. *)
Lemma iter_loop_walk (fuel : nat) (stack : list (TreeNode * string)) :
  Forall (fun np => str_keys (fst np) = true) stack ->
  stack_count stack <= fuel ->
  iter_loop fuel stack = (stack_walk stack, Exhausted).
Proof.
  revert stack. induction fuel as [|fuel IH]; intros stack Hkeys Hfuel.
  - destruct stack as [|[n p] stack]; [done|].
    unfold stack_count in Hfuel. simpl in Hfuel.
    pose proof (node_count_pos n). lia.
  - destruct (decide (stack = [])) as [->|Hne]; [done|].
    destruct (exists_last Hne) as (stack' & [n p] & ->).
    apply Forall_app in Hkeys as [Hkeys' Hn].
    apply Forall_cons in Hn as [Hn _]. simpl in Hn.
    rewrite stack_count_app in Hfuel. unfold stack_count at 2 in Hfuel.
    simpl in Hfuel. rewrite stack_walk_app. simpl.
    rewrite list_pop_snoc.
    destruct n as [nm c pm children|nm c pm|nm c pm].
    + destruct (push_children_str p children stack' Hn) as [-> Hpushed].
      rewrite (node_count_directory nm c pm children p) in Hfuel.
      rewrite IH.
      * by rewrite stack_walk_app, last_first_walk_directory.
      * by apply Forall_app.
      * rewrite stack_count_app. lia.
    + simpl in Hfuel. rewrite IH; [done|done|lia].
    + simpl in Hfuel. rewrite IH; [done|done|lia].
Qed.

Example Checkpoint_iter_example :
  fst (Checkpoint_iter
         (mk_Checkpoint
            (DirectoryNode (PStr "") (PStr "c") (PInt 493)
               [(PStr "d", DirectoryNode (PStr "d") (PStr "c1") (PInt 493)
                             [(PStr "x", FileNode (PStr "x") (PStr "c2") (PInt 420));
                              (PStr "y", FileNode (PStr "y") (PStr "c3") (PInt 420))]);
                (PStr "l", SymlinkNode (PStr "l") (PStr "c4") (PInt 511))])
            (mk_datetime 2024 1 1 0 0 0 0) None))
  = [(DirectoryNode (PStr "") (PStr "c") (PInt 493)
        [(PStr "d", DirectoryNode (PStr "d") (PStr "c1") (PInt 493)
                      [(PStr "x", FileNode (PStr "x") (PStr "c2") (PInt 420));
                       (PStr "y", FileNode (PStr "y") (PStr "c3") (PInt 420))]);
         (PStr "l", SymlinkNode (PStr "l") (PStr "c4") (PInt 511))], "");
     (SymlinkNode (PStr "l") (PStr "c4") (PInt 511), "l");
     (DirectoryNode (PStr "d") (PStr "c1") (PInt 493)
        [(PStr "x", FileNode (PStr "x") (PStr "c2") (PInt 420));
         (PStr "y", FileNode (PStr "y") (PStr "c3") (PInt 420))], "d");
     (FileNode (PStr "y") (PStr "c3") (PInt 420), "d/y");
     (FileNode (PStr "x") (PStr "c2") (PInt 420), "d/x")].
Proof. reflexivity. Qed.

(** C7: [Checkpoint.iter] yields finitely many pairs and ends; they are the
    depth-first walk from [(root, "")] in which the children of every
    directory come last-inserted first.  For a root directory whose
    children, inserted as [a] then [b], are no directories, the pairs are
    [(root, ""), (b, "b"), (a, "a")]. *)
Theorem Checkpoint_iter_last_inserted_first (self : Checkpoint) :
  str_keys (root self) = true ->
  Checkpoint_iter self = (last_first_walk (root self) "", Exhausted) /\
  (forall n c p a b,
     root self = DirectoryNode n c p [(PStr "a", a); (PStr "b", b)] ->
     isinstance_DirectoryNode a = false ->
     isinstance_DirectoryNode b = false ->
     Checkpoint_iter self = ([(root self, ""); (b, "b"); (a, "a")], Exhausted)).
Proof.
  intros Hkeys.
  assert (Checkpoint_iter self = (last_first_walk (root self) "", Exhausted))
    as Hwalk.
  { unfold Checkpoint_iter. rewrite iter_loop_walk.
    - simpl. done.
    - by repeat constructor.
    - unfold stack_count. simpl. lia. }
  split; [done|].
  intros n c p a b Hroot Ha Hb. rewrite Hwalk, Hroot.
  by destruct a, b.
Qed.

(** ** The textual encoding of a CheckpointMeta *)

#[local] Arguments String.append : simpl nomatch.

Lemma append_assoc (a b c : string) : (a +:+ b) +:+ c = a +:+ (b +:+ c).
Proof. induction a as [|x a IH]; simpl; [done|by rewrite IH]. Qed.

Lemma append_nil_r (a : string) : a +:+ "" = a.
Proof. induction a as [|x a IH]; simpl; [done|by rewrite IH]. Qed.

Lemma length_append (a b : string) :
  String.length (a +:+ b) = String.length a + String.length b.
Proof. induction a as [|x a IH]; simpl; [done|by rewrite IH]. Qed.

Lemma has_char_append (c : ascii) (a b : string) :
  has_char c (a +:+ b) = has_char c a || has_char c b.
Proof.
  induction a as [|x a IH]; simpl; [done|]. by rewrite IH, orb_assoc.
Qed.

Lemma cut_at_first (sep : ascii) (a rest : string) :
  has_char sep a = false -> cut sep (a +:+ String sep rest) = Some (a, rest).
Proof.
  induction a as [|x a IH]; simpl.
  - intros _. by rewrite Ascii.eqb_refl.
  - intros [-> Ha]%orb_false_elim. by rewrite (IH Ha).
Qed.

Lemma cut_absent (sep : ascii) (s : string) :
  has_char sep s = false -> cut sep s = None.
Proof.
  induction s as [|x s IH]; simpl; [done|].
  intros [-> Hs]%orb_false_elim. by rewrite (IH Hs).
Qed.

Lemma length_zero_padded (w : nat) (n : Z) :
  String.length (zero_padded w n) = w.
Proof.
  revert n. induction w as [|w IH]; intros n; simpl; [done|].
  rewrite length_append, IH. simpl. lia.
Qed.

Lemma digit_char_facts (d : Z) :
  (0 <= d < 10)%Z ->
  digit_value (digit_char d) = Some d /\
  Ascii.eqb (digit_char d) "_" = false.
Proof.
  intros Hd.
  assert (d = 0 \/ d = 1 \/ d = 2 \/ d = 3 \/ d = 4 \/ d = 5 \/ d = 6 \/
          d = 7 \/ d = 8 \/ d = 9)%Z as H by lia.
  repeat (destruct H as [->|H]; [by split|]). by subst.
Qed.

#[local] Opaque digit_char digit_value.

Lemma has_char_zero_padded (w : nat) (n : Z) :
  has_char "_" (zero_padded w n) = false.
Proof.
  revert n. induction w as [|w IH]; intros n; cbn [zero_padded]; [done|].
  rewrite has_char_append, IH. cbn [has_char orb].
  destruct (digit_char_facts (n mod 10)) as [_ ->]; [|done].
  apply Z.mod_pos_bound. lia.
Qed.

(** Reading back the digits that [zero_padded] wrote. *)
Lemma read_digits_zero_padded (w k : nat) (n acc : Z) (rest : string) :
  (0 <= n < 10 ^ Z.of_nat w)%Z ->
  read_digits (w + k) acc (zero_padded w n +:+ rest)
  = read_digits k (acc * 10 ^ Z.of_nat w + n)%Z rest.
Proof.
  revert k n acc rest. induction w as [|w IH]; intros k n acc rest Hn.
  - change (10 ^ Z.of_nat 0)%Z with 1%Z in *.
    cbn [zero_padded append Nat.add]. f_equal. lia.
  - rewrite Nat2Z.inj_succ, Z.pow_succ_r in * by lia.
    cbn [zero_padded]. rewrite append_assoc.
    replace (S w + k) with (w + S k) by lia.
    rewrite IH.
    + cbn [read_digits append].
      destruct (digit_char_facts (n mod 10)) as [-> _].
      { apply Z.mod_pos_bound. lia. }
      cbn [mbind option_bind]. f_equal.
      pose proof (Z.div_mod n 10). lia.
    + split; [apply Z.div_pos; lia|].
      apply Z.div_lt_upper_bound; lia.
Qed.

Lemma read_field (w : nat) (n : Z) (rest : string) :
  (0 <= n < 10 ^ Z.of_nat w)%Z ->
  read_digits w 0 (zero_padded w n +:+ rest) = Some (n, rest).
Proof.
  intros Hn. pose proof (read_digits_zero_padded w 0 n 0 rest Hn) as H.
  rewrite Nat.add_0_r in H. rewrite H. cbn [read_digits]. do 2 f_equal.
Qed.

Lemma days_in_month_le (y m : Z) : (days_in_month y m <= 31)%Z.
Proof.
  unfold days_in_month.
  destruct m as [|[[[|[]|]|[[]|[]|]|]|[[[]|[]|]|[[]|[]|]|]|]|];
    try destruct (is_leap y); lia.
Qed.

Lemma valid_datetime_bounds (t : datetime) :
  valid_datetime t = true ->
  (0 <= year t < 10 ^ Z.of_nat 4 /\ 0 <= month t < 10 ^ Z.of_nat 2 /\
   0 <= day t < 10 ^ Z.of_nat 2 /\ 0 <= hour t < 10 ^ Z.of_nat 2 /\
   0 <= minute t < 10 ^ Z.of_nat 2 /\ 0 <= second t < 10 ^ Z.of_nat 2 /\
   0 <= microsecond t < 10 ^ Z.of_nat 6)%Z.
Proof.
  unfold valid_datetime. rewrite !andb_true_iff.
  rewrite !Z.leb_le, !Z.ltb_lt.
  pose proof (days_in_month_le (year t) (month t)).
  change (10 ^ Z.of_nat 4)%Z with 10000%Z.
  change (10 ^ Z.of_nat 2)%Z with 100%Z.
  change (10 ^ Z.of_nat 6)%Z with 1000000%Z.
  lia.
Qed.

#[local] Opaque zero_padded read_digits valid_datetime.

(** The parser reads back the time stamp written with microseconds. *)
Lemma parse_iso_micro (t : datetime) :
  valid_datetime t = true -> parse_iso (iso_micro t) = Some t.
Proof.
  intros Hv.
  destruct (valid_datetime_bounds t Hv) as (Hy & Hmo & Hd & Hh & Hmi & Hs & Hus).
  unfold parse_iso, iso_micro.
  rewrite <- (append_nil_r (zero_padded 6 (microsecond t))).
  rewrite (read_field 4 _ _ Hy). cbn.
  rewrite (read_field 2 _ _ Hmo). cbn.
  rewrite (read_field 2 _ _ Hd). cbn.
  rewrite (read_field 2 _ _ Hh). cbn.
  rewrite (read_field 2 _ _ Hmi). cbn.
  rewrite (read_field 2 _ _ Hs). cbn.
  rewrite (read_field 6 _ _ Hus). cbn.
  destruct t. cbn in *. by rewrite Hv.
Qed.

Lemma zero_padded_6_0 : zero_padded 6 0 = "000000".
Proof. by vm_compute. Qed.

(** [to_string] always writes the six digits of the microseconds. *)
Lemma timestring_iso_micro (t : datetime) :
  isoformat t +:+
    (if (String.length (isoformat t) =? 19)%nat then ".000000" else "")
  = iso_micro t.
Proof.
  unfold isoformat, iso_micro.
  destruct (Z.eqb_spec (microsecond t) 0) as [->|_].
  - rewrite !length_append, !length_zero_padded, zero_padded_6_0.
    cbn [String.length Nat.add Nat.eqb].
    by rewrite !append_assoc.
  - rewrite !length_append, !length_zero_padded.
    cbn [String.length Nat.add Nat.eqb]. by rewrite append_nil_r.
Qed.

Lemma has_char_iso_micro (t : datetime) : has_char "_" (iso_micro t) = false.
Proof.
  unfold iso_micro. rewrite !has_char_append, !has_char_zero_padded. done.
Qed.

Lemma py_split_two (checksum timestring name : string) :
  has_char "_" checksum = false -> has_char "_" timestring = false ->
  py_split "_" 2 (checksum +:+ "_" +:+ timestring +:+ "_" +:+ name)
  = [checksum; timestring; name].
Proof.
  intros Hc Ht. cbn [py_split append].
  rewrite (cut_at_first "_" checksum _ Hc).
  by rewrite (cut_at_first "_" timestring _ Ht).
Qed.

Lemma py_split_one (checksum timestring : string) :
  has_char "_" checksum = false -> has_char "_" timestring = false ->
  py_split "_" 2 (checksum +:+ "_" +:+ timestring) = [checksum; timestring].
Proof.
  intros Hc Ht. cbn [py_split append].
  rewrite (cut_at_first "_" checksum _ Hc).
  by rewrite (cut_absent "_" timestring Ht).
Qed.

Lemma CheckpointMeta_to_string_eq (self : CheckpointMeta) :
  CheckpointMeta_to_string self
  = meta_checksum self +:+ "_" +:+ iso_micro (meta_time self) +:+
    match meta_name self with
    | Some (String c n) => "_" +:+ String c n
    | _ => ""
    end.
Proof.
  unfold CheckpointMeta_to_string. rewrite timestring_iso_micro.
  by destruct (meta_name self) as [[|c n]|].
Qed.

Example CheckpointMeta_to_string_example :
  CheckpointMeta_to_string
    (mk_CheckpointMeta "abc123" (mk_datetime 2024 1 1 0 0 0 0) None)
  = "abc123_2024-01-01T00:00:00.000000".
Proof. by vm_compute. Qed.

Example CheckpointMeta_from_string_example :
  CheckpointMeta_from_string "abc123_2024-01-01T00:00:00.000000"
  = OK (mk_CheckpointMeta "abc123" (mk_datetime 2024 1 1 0 0 0 0) None).
Proof. by vm_compute. Qed.

Example CheckpointMeta_from_string_seconds_example :
  CheckpointMeta_from_string "abc123_2024-01-01T00:00:00_nightly_1"
  = OK (mk_CheckpointMeta "abc123" (mk_datetime 2024 1 1 0 0 0 0)
          (Some "nightly_1")).
Proof. by vm_compute. Qed.

(** C2: for a CheckpointMeta whose checksum holds no underscore, whose time
    is a value of [datetime], and whose name is [None] or a string that is
    not empty (underscores in it or not), [from_string] of [to_string]
    returns a CheckpointMeta with the same checksum, the same time to the
    microsecond and the same name. *)
Theorem CheckpointMeta_round_trip (m : CheckpointMeta) :
  has_char "_" (meta_checksum m) = false ->
  valid_datetime (meta_time m) = true ->
  name_encodable (meta_name m) = true ->
  CheckpointMeta_from_string (CheckpointMeta_to_string m) = OK m.
Proof.
  intros Hc Ht Hn. rewrite CheckpointMeta_to_string_eq.
  unfold CheckpointMeta_from_string.
  destruct m as [checksum t [[|c n]|]]; cbn [meta_checksum meta_time meta_name] in *.
  - done.
  - rewrite py_split_two by (done || apply has_char_iso_micro).
    unfold datetime_from_iso_format. by rewrite (parse_iso_micro t Ht).
  - rewrite append_nil_r.
    rewrite py_split_one by (done || apply has_char_iso_micro).
    unfold datetime_from_iso_format. by rewrite (parse_iso_micro t Ht).
Qed.

Lemma CheckpointMeta_round_trip_witness :
  CheckpointMeta_from_string
    (CheckpointMeta_to_string
       (mk_CheckpointMeta "deadbeef" (mk_datetime 2024 6 1 12 0 0 123456)
          (Some "my_backup")))
  = OK (mk_CheckpointMeta "deadbeef" (mk_datetime 2024 6 1 12 0 0 123456)
          (Some "my_backup")).
Proof.
  apply (CheckpointMeta_round_trip
           (mk_CheckpointMeta "deadbeef" (mk_datetime 2024 6 1 12 0 0 123456)
              (Some "my_backup"))); vm_compute; reflexivity.
Defined.

(** C10: for a CheckpointMeta whose name is the empty string, [to_string]
    writes no name segment: the text is [<checksum>_<isoTime>], the text
    written for the name [None]; [from_string] of it returns a
    CheckpointMeta whose name is [None], not the empty string. *)
Theorem CheckpointMeta_empty_name_decodes_to_None (checksum : string)
    (t : datetime) :
  has_char "_" checksum = false ->
  valid_datetime t = true ->
  CheckpointMeta_to_string (mk_CheckpointMeta checksum t (Some ""))
  = checksum +:+ "_" +:+ iso_micro t /\
  CheckpointMeta_to_string (mk_CheckpointMeta checksum t (Some ""))
  = CheckpointMeta_to_string (mk_CheckpointMeta checksum t None) /\
  CheckpointMeta_from_string
    (CheckpointMeta_to_string (mk_CheckpointMeta checksum t (Some "")))
  = OK (mk_CheckpointMeta checksum t None).
Proof.
  intros Hc Ht.
  assert (CheckpointMeta_to_string (mk_CheckpointMeta checksum t (Some ""))
          = CheckpointMeta_to_string (mk_CheckpointMeta checksum t None)) as Heq.
  { by rewrite !CheckpointMeta_to_string_eq. }
  split; [|split; [done|]].
  - rewrite CheckpointMeta_to_string_eq.
    cbn [meta_checksum meta_time meta_name]. by rewrite append_nil_r.
  - rewrite Heq, CheckpointMeta_to_string_eq.
    cbn [meta_checksum meta_time meta_name]. rewrite append_nil_r.
    unfold CheckpointMeta_from_string.
    rewrite py_split_one by (done || apply has_char_iso_micro).
    unfold datetime_from_iso_format. by rewrite (parse_iso_micro t Ht).
Qed.

Lemma CheckpointMeta_empty_name_decodes_to_None_witness :
  CheckpointMeta_to_string
    (mk_CheckpointMeta "abc123" (mk_datetime 2024 1 1 0 0 0 0) (Some ""))
  = "abc123" +:+ "_" +:+ iso_micro (mk_datetime 2024 1 1 0 0 0 0) /\
  CheckpointMeta_to_string
    (mk_CheckpointMeta "abc123" (mk_datetime 2024 1 1 0 0 0 0) (Some ""))
  = CheckpointMeta_to_string
      (mk_CheckpointMeta "abc123" (mk_datetime 2024 1 1 0 0 0 0) None) /\
  CheckpointMeta_from_string
    (CheckpointMeta_to_string
       (mk_CheckpointMeta "abc123" (mk_datetime 2024 1 1 0 0 0 0) (Some "")))
  = OK (mk_CheckpointMeta "abc123" (mk_datetime 2024 1 1 0 0 0 0) None).
Proof.
  apply (CheckpointMeta_empty_name_decodes_to_None "abc123"
           (mk_datetime 2024 1 1 0 0 0 0)); vm_compute; reflexivity.
Defined.

(** ** Validation of the checkpoint name *)

Lemma re_class_star_dollar_spec (s : string) :
  re_class_star_dollar s = true <->
  exists run, all_name_chars run = true /\
              (s = run \/ s = run +:+ String newline "").
Proof.
  induction s as [|c s IH].
  - split; [|done]. intros _. exists "". split; [done|by left].
  - cbn [re_class_star_dollar]. destruct (name_char c) eqn:Hc.
    + rewrite IH. split.
      * intros (run & Hrun & Hs). exists (String c run). split.
        -- cbn. by rewrite Hc.
        -- destruct Hs as [->| ->]; [by left|by right].
      * intros ([|c' run] & Hrun & Hs).
        -- destruct Hs as [[=]|[= -> _]]. done.
        -- cbn in Hrun. apply andb_prop in Hrun as [_ Hrun].
           exists run. split; [done|].
           destruct Hs as [[= _ ->]|[= _ ->]]; [by left|by right].
    + split.
      * intros Hd. exists "". split; [done|]. right.
        cbn in Hd. destruct s; [|done].
        apply Ascii.eqb_eq in Hd. by subst.
      * intros ([|c' run] & Hrun & Hs).
        -- destruct Hs as [[=]|[= -> ->]]. done.
        -- cbn in Hrun. apply andb_prop in Hrun as [Hc' _].
           destruct Hs as [[= -> _]|[= -> _]]; by rewrite Hc in Hc'.
Qed.

(** What [re.match] with the pattern of the source accepts: a non-empty
    run of characters of the class, and the same followed by one line
    feed. *)
Lemma re_match_name_spec (s : string) :
  re_match_name s = true <->
  exists run, run <> "" /\ all_name_chars run = true /\
              (s = run \/ s = run +:+ String newline "").
Proof.
  destruct s as [|c s].
  - split; [done|]. intros ([|c run] & Hne & _ & [H|H]); done.
  - cbn [re_match_name]. rewrite andb_true_iff, re_class_star_dollar_spec.
    split.
    + intros (Hc & run & Hrun & Hs). exists (String c run).
      split; [done|]. split; [cbn; by rewrite Hc|].
      destruct Hs as [->| ->]; [by left|by right].
    + intros ([|c' run] & Hne & Hrun & Hs); [done|].
      cbn in Hrun. apply andb_prop in Hrun as [Hc' Hrun].
      destruct Hs as [[= -> ->]|[= -> ->]]; (split; [done|]); exists run;
        (split; [done|]); [by left|by right].
Qed.

Lemma Checkpoint_init_raises (now : datetime) (root : TreeNode)
    (time : option datetime) (name : option string) :
  Checkpoint_init now root time name = Raise AssertionError <->
  exists s, name = Some s /\ re_match_name s = false.
Proof.
  unfold Checkpoint_init. destruct name as [s|]; simpl.
  - destruct (re_match_name s) eqn:Hs; simpl.
    + split; [done|]. intros (s' & [= <-] & Hs'). by rewrite Hs in Hs'.
    + split; [by exists s|done].
  - split; [done|]. by intros (s & ? & _).
Qed.

Example Checkpoint_init_bad_name_example :
  Checkpoint_init (mk_datetime 2024 1 1 0 0 0 0)
    (FileNode (PStr "") (PStr "c") (PInt 420)) None (Some "bad/name")
  = Raise AssertionError.
Proof. by vm_compute. Qed.

Example Checkpoint_init_good_name_example :
  Checkpoint_init (mk_datetime 2024 1 1 0 0 0 0)
    (FileNode (PStr "") (PStr "c") (PInt 420)) None (Some "release-1.2_rc1")
  = OK (mk_Checkpoint (FileNode (PStr "") (PStr "c") (PInt 420))
          (mk_datetime 2024 1 1 0 0 0 0) (Some "release-1.2_rc1")).
Proof. by vm_compute. Qed.

(** C4 at the input on which the code departs from it: the name made of
    "abc" and a line feed holds a character outside the class, and the
    constructor accepts it, because [$] also matches before a final line
    feed. *)
Theorem Checkpoint_init_accepts_trailing_newline (now : datetime)
    (root : TreeNode) (time : option datetime) :
  name_char newline = false /\
  all_name_chars ("abc" +:+ String newline "") = false /\
  Checkpoint_init now root time (Some ("abc" +:+ String newline ""))
  = OK (mk_Checkpoint root
          (match time with None => now | Some t => t end)
          (Some ("abc" +:+ String newline ""))).
Proof. by vm_compute. Qed.

(** ** The theorems at concrete inputs *)

Lemma DirectoryNode_from_dict_last_entry_wins_witness :
  exists children,
    DirectoryNode_from_dict TreeNode_from_dict example_duplicate_record
      = OK (DirectoryNode (PStr "") (PStr "c0") (PInt 493) children) /\
    distinct_keys (dict_keys children) = true /\
    (forall i k node,
       example_duplicate_decoded !! i = Some (k, node) ->
       (forall j k' node',
          i < j -> example_duplicate_decoded !! j = Some (k', node') ->
          key_eqb k' k = false) ->
       dict_getitem key_eqb k children = Some node).
Proof.
  apply (DirectoryNode_from_dict_last_entry_wins example_duplicate_record
           (PStr "") (PStr "c0") (PInt 493)
           example_duplicate_children example_duplicate_decoded);
    try reflexivity.
  repeat constructor.
Defined.

Lemma from_dict_to_dict_round_trip_witness :
  exists t',
    TreeNode_from_dict (to_dict example_tree) = OK t' /\
    to_dict t' = to_dict example_tree.
Proof. exact (from_dict_to_dict_round_trip example_tree eq_refl). Defined.

(** The hypothesis of the round trip keeps out the values of [TreeNode]
    that are no children mappings keyed by name: two children of one name
    become one entry of the decoded mapping. *)
Remark same_name_children_collapse :
  sibling_names_distinct example_same_name_tree = false /\
  TreeNode_from_dict (to_dict example_same_name_tree)
  = OK (DirectoryNode (PStr "") (PStr "c0") (PInt 493)
          [(PStr "x", FileNode (PStr "x") (PStr "c2") (PInt 420))]).
Proof. split; reflexivity. Qed.

Example build_example :
  DirectoryNode_build_node transcript_new transcript_update transcript_hexdigest
    (FsDir 16877 example_listing) "/src" ""
  = (OK (DirectoryNode (PStr "") (PStr "x!hellob.txt") (PInt 493)
           [(PStr "b.txt", FileNode (PStr "b.txt") (PStr "hello") (PInt 420));
            (PStr "a", DirectoryNode (PStr "a") (PStr "x!") (PInt 493)
                         [(PStr "x", FileNode (PStr "x") (PStr "x!") (PInt 493))]);
            (PStr "link", SymlinkNode (PStr "link") (PStr "b.txt") (PInt 511))]),
     ["Ignored: /src/dead"; "Ignored: /src/pipe"]).
Proof. by vm_compute. Qed.

Example build_reordered_example :
  match fst (DirectoryNode_build_node transcript_new transcript_update
               transcript_hexdigest (FsDir 16877 example_listing_reordered)
               "/src" "") with
  | OK node => node_checksum node
  | Raise _ => PNone
  end = PStr "x!hellob.txt".
Proof. by vm_compute. Qed.

(** The names of the children are not hashed: renaming them in a way that
    keeps their order keeps the checksum. *)
Example build_renamed_example :
  fst (DirectoryNode_build_node transcript_new transcript_update
         transcript_hexdigest
         (FsDir 16877 [("m", FsFile 33188 "one"); ("n", FsFile 33188 "two")])
         "/src" "")
  = OK (DirectoryNode (PStr "") (PStr "onetwo") (PInt 493)
          [(PStr "m", FileNode (PStr "m") (PStr "one") (PInt 420));
           (PStr "n", FileNode (PStr "n") (PStr "two") (PInt 420))]) /\
  fst (DirectoryNode_build_node transcript_new transcript_update
         transcript_hexdigest
         (FsDir 16877 [("p", FsFile 33188 "one"); ("q", FsFile 33188 "two")])
         "/src" "")
  = OK (DirectoryNode (PStr "") (PStr "onetwo") (PInt 493)
          [(PStr "p", FileNode (PStr "p") (PStr "one") (PInt 420));
           (PStr "q", FileNode (PStr "q") (PStr "two") (PInt 420))]).
Proof. by vm_compute. Qed.

Example dispatch_no_node_example :
  TreeNode_build_node transcript_new transcript_update transcript_hexdigest
    (FsOther 4516) "/src/pipe" "pipe"
  = (OK None, ["Could not backup: /src/pipe"]).
Proof. by vm_compute. Qed.

Lemma example_listing_NoDup : NoDup (map fst example_listing).
Proof. apply (bool_decide_unpack _). by vm_compute. Qed.

Lemma example_listing_Permutation :
  example_listing ≡ₚ example_listing_reordered.
Proof.
  unfold example_listing, example_listing_reordered.
  apply (@Permutation_cons_app _ _ [_; _; _; _] [] _). simpl.
  apply (@Permutation_cons_app _ _ [_; _] [_] _). simpl.
  apply (@Permutation_cons_app _ _ [_] [_] _). simpl.
  apply (@Permutation_cons_app _ _ [_] [] _). simpl.
  done.
Qed.

Lemma DirectoryNode_checksum_in_name_order_witness :
  exists node node' out out',
    DirectoryNode_build_node transcript_new transcript_update
      transcript_hexdigest (FsDir 16877 example_listing) "/src" ""
    = (OK node, out) /\
    DirectoryNode_build_node transcript_new transcript_update
      transcript_hexdigest (FsDir 16877 example_listing_reordered) "/src" ""
    = (OK node', out') /\
    node_checksum node = node_checksum node'.
Proof.
  destruct (DirectoryNode_checksum_in_name_order transcript_new
              transcript_update transcript_hexdigest 16877
              example_listing "/src" "")
    as (nodes & ordered & digests & out & Hb & _ & _ & _ & _ & _ & Hperm).
  destruct (Hperm example_listing_reordered example_listing_NoDup
              example_listing_Permutation) as (out' & Hb').
  eexists _, _, out, out'. split; [exact Hb|]. split; [exact Hb'|].
  reflexivity.
Defined.


Lemma Checkpoint_iter_last_inserted_first_witness :
  Checkpoint_iter (mk_Checkpoint example_tree (mk_datetime 2024 1 1 0 0 0 0) None)
  = (last_first_walk example_tree "", Exhausted).
Proof.
  exact (proj1 (Checkpoint_iter_last_inserted_first
                  (mk_Checkpoint example_tree (mk_datetime 2024 1 1 0 0 0 0)
                     None) eq_refl)).
Defined.

Example Checkpoint_iter_a_b_example :
  Checkpoint_iter
    (mk_Checkpoint
       (DirectoryNode (PStr "") (PStr "c") (PInt 493)
          [(PStr "a", FileNode (PStr "a") (PStr "c1") (PInt 420));
           (PStr "b", SymlinkNode (PStr "b") (PStr "c2") (PInt 511))])
       (mk_datetime 2024 1 1 0 0 0 0) None)
  = ([(DirectoryNode (PStr "") (PStr "c") (PInt 493)
         [(PStr "a", FileNode (PStr "a") (PStr "c1") (PInt 420));
          (PStr "b", SymlinkNode (PStr "b") (PStr "c2") (PInt 511))], "");
      (SymlinkNode (PStr "b") (PStr "c2") (PInt 511), "b");
      (FileNode (PStr "a") (PStr "c1") (PInt 420), "a")], Exhausted).
Proof. by vm_compute. Qed.

(** ** Enumeration order at every depth *)

Lemma reordered_ind' (P : fsentry -> fsentry -> Prop) :
  (forall e, P e e) ->
  (forall st_mode l l1 l',
     Forall2 (fun a b => fst a = fst b /\ reordered (snd a) (snd b) /\
                         P (snd a) (snd b)) l l1 ->
     l1 ≡ₚ l' -> P (FsDir st_mode l) (FsDir st_mode l')) ->
  forall e e', reordered e e' -> P e e'.
Proof.
  intros Hsame Hdir. fix IH 3. intros e e' [e0|st_mode l l1 l' Hf Hp].
  - apply Hsame.
  - apply (Hdir st_mode l l1 l'); [|exact Hp].
    clear Hp. revert l l1 Hf. fix IHf 3.
    intros l l1 [|a b la lb [Hn Hr] Hrest].
    + constructor.
    + constructor; [|by apply IHf]. split; [done|]. split; [done|by apply IH].
Qed.

Lemma unique_names_dir (st_mode : Z) (listing : list (string * fsentry)) :
  unique_names (FsDir st_mode listing) ->
  List.NoDup (map fst listing) /\
  Forall (fun ne => unique_names (snd ne)) listing.
Proof.
  intros [Hnd Hall]. split; [done|].
  clear Hnd. induction listing as [|ne listing IH]; constructor.
  - by destruct Hall.
  - apply IH. by destruct Hall.
Qed.

Lemma child_checksums_of_same_checksums
    (c1 c2 : list (string * option TreeNode)) (names : list string) :
  Forall2 (fun x y => fst x = fst y /\ checksum_of (snd x) = checksum_of (snd y))
    c1 c2 ->
  child_checksums_of c1 names = child_checksums_of c2 names.
Proof.
  intros Hf. induction names as [|n names IH]; simpl; [done|].
  rewrite IH.
  assert (match dict_getitem String.eqb n c1, dict_getitem String.eqb n c2 with
          | Some x, Some y => checksum_of x = checksum_of y
          | None, None => True
          | _, _ => False
          end) as Hget.
  { clear IH. induction Hf as [|[k1 x] [k2 y] c1 c2 [Hk Hx] _ IHf]; simpl; [done|].
    simpl in *. subst k2. by destruct (String.eqb k1 n). }
  destruct (dict_getitem String.eqb n c1) as [[x|]|],
           (dict_getitem String.eqb n c2) as [[y|]|]; simpl in *; try done.
  by injection Hget as ->.
Qed.

Section EnumerationOrder.
Context {hstate : Type}.
Variable xxh64 : hstate.
Variable update : hstate -> string -> hstate.
Variable hexdigest : hstate -> string.

Local Abbreviation build := (TreeNode_build_node xxh64 update hexdigest).
Local Abbreviation node_of := (built_node xxh64 update hexdigest).
Local Abbreviation stored := (built_children xxh64 update hexdigest).

(** The checksums the directory builder feeds to the hash. *)
Local Abbreviation fed path listing :=
  (child_checksums_of (stored path listing)
     (sorted (dict_keys (stored path listing)))).

Lemma fed_Permutation (path : string) (l l' : list (string * fsentry)) :
  List.NoDup (map fst l) -> l ≡ₚ l' -> fed path l = fed path l'.
Proof.
  intros Hnd Hp.
  pose proof (built_children_Permutation xxh64 update hexdigest path _ _ Hp)
    as Hpc.
  rewrite (sorted_Permutation _ (dict_keys (stored path l')))
    by (by apply Permutation_map).
  apply child_checksums_of_ext. intros n.
  apply dict_getitem_str_Permutation; [|done]. by apply built_children_NoDup.
Qed.

Lemma stored_same_checksums (path : string) (l l1 : list (string * fsentry)) :
  Forall2 (fun a b =>
             fst a = fst b /\
             os_path_isfile (snd a) = os_path_isfile (snd b) /\
             os_path_isdir (snd a) = os_path_isdir (snd b) /\
             forall p n, checksum_of (node_of (snd a) p n)
                         = checksum_of (node_of (snd b) p n)) l l1 ->
  Forall2 (fun x y => fst x = fst y /\ checksum_of (snd x) = checksum_of (snd y))
    (stored path l) (stored path l1).
Proof.
  unfold built_children.
  induction 1 as [|[n e] [n1 e1] l l1 (Hn & Hf & Hd & Hc) _ IH]; simpl;
    [constructor|].
  simpl in *. subst n1. rewrite <- Hf, <- Hd.
  destruct (os_path_isfile e || os_path_isdir e); [|done].
  simpl. constructor; [|done]. split; [done|apply Hc].
Qed.

Lemma fed_same_checksums (path : string) (l l1 : list (string * fsentry)) :
  Forall2 (fun a b =>
             fst a = fst b /\
             os_path_isfile (snd a) = os_path_isfile (snd b) /\
             os_path_isdir (snd a) = os_path_isdir (snd b) /\
             forall p n, checksum_of (node_of (snd a) p n)
                         = checksum_of (node_of (snd b) p n)) l l1 ->
  fed path l = fed path l1.
Proof.
  intros Hf%(stored_same_checksums path).
  replace (dict_keys (stored path l1)) with (dict_keys (stored path l)).
  - by apply child_checksums_of_same_checksums.
  - unfold dict_keys. induction Hf as [|x y ? ? [Hk _] _ IH]; simpl; [done|].
    by rewrite Hk, IH.
Qed.

(** The checksum of a built directory is the digest of what is fed. *)
Lemma directory_checksum_fed (path : string) (st_mode : Z)
    (listing : list (string * fsentry)) (name : string) :
  List.NoDup (map fst listing) ->
  exists digests message,
    fed path listing = OK digests /\
    update_all update xxh64 digests = OK message /\
    checksum_of (node_of (FsDir st_mode listing) path name)
    = Some (PStr (hexdigest message)).
Proof.
  intros Hnd.
  destruct (DirectoryNode_build_spec xxh64 update hexdigest path st_mode
              listing name)
    as (nodes & out & message & Hb & _ & _ & Hs & Hm & _).
  { apply Forall_forall. intros ne _. apply TreeNode_build_node_returns. }
  rewrite !store_all_built_children in Hs by done.
  eexists _, message. split; [exact Hs|]. split; [exact Hm|].
  unfold built_node. simpl. by rewrite Hb.
Qed.

(** X2: enumerating the listings of the directories of an entry, at any
    depth, in other orders changes neither the kind of the entry nor the
    checksum of the node built for it. *)
Lemma reordered_same_checksum (e e' : fsentry) :
  reordered e e' ->
  unique_names e ->
  os_path_isfile e = os_path_isfile e' /\
  os_path_isdir e = os_path_isdir e' /\
  forall path name,
    checksum_of (node_of e path name) = checksum_of (node_of e' path name).
Proof.
  induction 1 as [e|st_mode l l1 l' Hf Hp] using reordered_ind'; intros Hu;
    [done|].
  split; [done|]. split; [done|]. intros path name.
  apply unique_names_dir in Hu as [Hnd Hall].
  assert (map fst l1 = map fst l) as Hnames.
  { clear -Hf. induction Hf as [|a b ? ? [Hn _] _ IH]; simpl; [done|].
    by rewrite Hn, IH. }
  assert (fed path l = fed path l') as Hfed.
  { rewrite <- (fed_Permutation path l1 l') by (by rewrite Hnames || done).
    apply fed_same_checksums.
    clear -Hf Hall. induction Hf as [|a b ? ? (Hn & _ & IHab) _ IH];
      constructor.
    - inversion Hall; subst. split; [done|]. by apply IHab.
    - apply IH. by inversion Hall. }
  destruct (directory_checksum_fed path st_mode l name Hnd)
    as (digests & message & Hd & Hm & ->).
  destruct (directory_checksum_fed path st_mode l' name)
    as (digests' & message' & Hd' & Hm' & ->).
  { apply (Permutation_NoDup (l := map fst l1));
      [by apply Permutation_map|by rewrite Hnames]. }
  rewrite Hfed, Hd' in Hd. injection Hd as <-.
  rewrite Hm in Hm'. by injection Hm' as <-.
Qed.
End EnumerationOrder.

(** * Further properties *)

(** ** Trees the builder returns *)

Lemma S_IMODE_bounds (mode : Z) : (0 <= S_IMODE mode <= 4095)%Z.
Proof.
  unfold S_IMODE.
  replace (Z.land mode 4095) with (mode mod 2 ^ 12)%Z
    by (symmetry; apply (Z.land_ones mode 12); lia).
  pose proof (Z.mod_pos_bound mode (2 ^ 12) ltac:(lia)) as H.
  change (2 ^ 12)%Z with 4096%Z in *. lia.
Qed.

Lemma all_nodes_directory (P : TreeNode -> Prop) (n c p : pyval)
    (children : list (pyval * TreeNode)) :
  P (DirectoryNode n c p children) ->
  Forall (fun kv => all_nodes P (snd kv)) children ->
  all_nodes P (DirectoryNode n c p children).
Proof.
  intros HP Hc. split; [done|]. clear HP.
  induction Hc as [|kv children Hkv _ IH]; [done|].
  simpl. split; [exact Hkv|exact IH].
Qed.

Lemma keyed_exactly_directory (n c p : pyval)
    (children : list (pyval * TreeNode)) :
  distinct_keys (dict_keys children) = true ->
  Forall (fun kv => fst kv = node_name (snd kv) /\ keyed_exactly (snd kv))
    children ->
  keyed_exactly (DirectoryNode n c p children).
Proof.
  intros Hd Hc. split; [done|]. clear Hd.
  induction Hc as [|kv children [Hk Hkv] _ IH]; [done|].
  simpl. split; [exact Hk|]. split; [exact Hkv|exact IH].
Qed.

Lemma keyed_exactly_children (n c p : pyval)
    (children : list (pyval * TreeNode)) :
  keyed_exactly (DirectoryNode n c p children) ->
  distinct_keys (dict_keys children) = true /\
  Forall (fun kv => fst kv = node_name (snd kv) /\ keyed_exactly (snd kv))
    children.
Proof.
  intros [Hd Hall]. split; [done|]. clear Hd.
  induction children as [|kv children IH]; constructor.
  - destruct Hall as (? & ? & _). by split.
  - apply IH. by destruct Hall as (_ & _ & ?).
Qed.

Section BuiltTrees.
Context {hstate : Type}.
Variable xxh64 : hstate.
Variable update : hstate -> string -> hstate.
Variable hexdigest : hstate -> string.

Local Abbreviation build := (TreeNode_build_node xxh64 update hexdigest).
Local Abbreviation node_of := (built_node xxh64 update hexdigest).
Local Abbreviation stored := (built_children xxh64 update hexdigest).

Lemma built_node_Some (e : fsentry) (path name : string) (node : TreeNode) :
  node_of e path name = Some node ->
  exists out, build e path name = (OK (Some node), out).
Proof.
  unfold built_node. destruct (build e path name) as [[r|ex] out]; simpl;
    [|done].
  intros ->. by exists out.
Qed.

Lemma stored_from_listing (path : string) (listing : list (string * fsentry)) :
  Forall (fun kv => exists e, In (fst kv, e) listing /\
                      snd kv = node_of e (os_path_join path (fst kv)) (fst kv))
    (store_all String.eqb (stored path listing) []).
Proof.
  apply store_all_str_invariant; [|constructor|constructor].
  unfold built_children. apply Forall_forall.
  intros kv ([n e] & <- & [Hin _]%filter_In)%list_elem_of_In%in_map_iff.
  by exists e.
Qed.

(** A property that holds of the file and symlink nodes the builder makes,
    and of a directory node whenever it holds of its children, holds of
    every node the builder returns. *)
Lemma built_node_invariant (Q : TreeNode -> Prop) :
  (forall name checksum st_mode,
     Q (FileNode (PStr name) (PStr checksum) (PInt (S_IMODE st_mode)))) ->
  (forall name checksum st_mode,
     Q (SymlinkNode (PStr name) (PStr checksum) (PInt (S_IMODE st_mode)))) ->
  (forall name checksum st_mode nodes,
     distinct_keys (dict_keys nodes) = true ->
     Forall (fun nv => fst nv = node_name (snd nv) /\ is_str (fst nv) = true /\
                       Q (snd nv)) nodes ->
     Q (DirectoryNode (PStr name) (PStr checksum) (PInt (S_IMODE st_mode))
          nodes)) ->
  forall e path name node out,
    build e path name = (OK (Some node), out) -> Q node.
Proof.
  intros Hfile Hsym Hdir.
  induction e as [m content|m listing IH|m points_to resolves|m]
    using fsentry_ind'; intros path name node out Hb.
  - destruct (FileNode_build_node_content xxh64 update hexdigest content)
      as [checksum Hc].
    simpl in Hb. unfold wrap_node in Hb. rewrite Hc in Hb.
    injection Hb as <- _. apply Hfile.
  - destruct (DirectoryNode_build_spec xxh64 update hexdigest path m listing
                name)
      as (nodes & out' & message & Hspec & Hf2 & Hnd & _).
    { apply Forall_forall. intros ne _. apply TreeNode_build_node_returns. }
    simpl in Hb. rewrite Hspec in Hb. injection Hb as <- _.
    pose proof (stored_from_listing path listing) as Hfrom.
    apply Hdir.
    + replace (dict_keys nodes)
        with (map PStr (dict_keys (store_all String.eqb (stored path listing) []))).
      { by apply distinct_keys_PStr. }
      clear -Hf2. induction Hf2 as [|kv nv ? ? (Hk & _) _ IHf]; simpl; [done|].
      by rewrite Hk, IHf.
    + clear -Hf2 Hfrom IH.
      induction Hf2 as [|kv nv ? ? (Hk & Hv & Hn & _) _ IHf]; constructor.
      * apply Forall_cons in Hfrom as [(e & Hin & He) _].
        split; [by rewrite Hk, Hn|]. split; [by rewrite Hk|].
        rewrite Hv in He. symmetry in He.
        apply built_node_Some in He as [out He].
        rewrite Forall_forall in IH.
        apply (IH (fst kv, e) ltac:(by apply list_elem_of_In) _ _ _ _ He).
      * apply IHf. by apply Forall_cons in Hfrom as [_ ?].
  - simpl in Hb. injection Hb as <- _. apply Hsym.
  - done.
Qed.

(** X3: every node of a tree the builder returns carries a string as name
    and as checksum, and as permissions the bits of [S_IMODE], an integer
    from 0 to 0o7777. *)
Theorem built_tree_fields (e : fsentry) (path name : string)
    (node : TreeNode) (out : list string) :
  build e path name = (OK (Some node), out) ->
  all_nodes (fun n => is_str (node_name n) = true /\ checksum_is_str n /\
                      permission_bits n) node.
Proof.
  apply (built_node_invariant
           (all_nodes (fun n => is_str (node_name n) = true /\
                                checksum_is_str n /\ permission_bits n))).
  - intros nm c m. repeat split. exists (S_IMODE m). split; [done|].
    apply S_IMODE_bounds.
  - intros nm c m. repeat split. exists (S_IMODE m). split; [done|].
    apply S_IMODE_bounds.
  - intros nm c m nodes _ Hnodes. apply all_nodes_directory.
    + repeat split. exists (S_IMODE m). split; [done|]. apply S_IMODE_bounds.
    + eapply Forall_impl; [exact Hnodes|]. by intros nv (_ & _ & ?).
Qed.

(** The children of every directory of a built tree are stored under
    their own names. *)
Lemma built_tree_keyed_exactly (e : fsentry) (path name : string)
    (node : TreeNode) (out : list string) :
  build e path name = (OK (Some node), out) -> keyed_exactly node.
Proof.
  apply (built_node_invariant keyed_exactly); try done.
  intros nm c m nodes Hd Hnodes. apply keyed_exactly_directory; [done|].
  eapply Forall_impl; [exact Hnodes|]. by intros nv (? & _ & ?).
Qed.

Lemma built_tree_str_keys (e : fsentry) (path name : string)
    (node : TreeNode) (out : list string) :
  build e path name = (OK (Some node), out) -> str_keys node = true.
Proof.
  apply (built_node_invariant (fun n => str_keys n = true)); try done.
  intros nm c m nodes _ Hnodes. simpl. apply forallb_forall.
  intros nv Hnv%list_elem_of_In. rewrite Forall_forall in Hnodes.
  destruct (Hnodes nv Hnv) as (_ & -> & ->). done.
Qed.
End BuiltTrees.

(** ** From a built tree to its representation and back *)

Lemma distinct_keys_hashable (ks : list pyval) :
  distinct_keys ks = true -> Forall (fun k => hashable k = true) ks.
Proof.
  induction ks as [|k ks IH]; simpl; [constructor|].
  intros [[Hk _]%andb_prop Hd]%andb_prop. constructor; [done|by apply IH].
Qed.

(** For a tree in which every directory holds its children under their own
    names, decoding the representation gives the tree itself back. *)
Lemma from_dict_to_dict_exact (t : TreeNode) :
  keyed_exactly t -> TreeNode_from_dict (to_dict t) = OK t.
Proof.
  induction t as [n c p children IH|n c p|n c p] using TreeNode_ind';
    intros Hk.
  - apply keyed_exactly_children in Hk as [Hd Hall].
    rewrite TreeNode_from_dict_unfold.
    unfold from_dict_body, DirectoryNode_from_dict. simpl.
    rewrite (dict_comprehension_decodes _ _ children []).
    + by rewrite store_all_distinct.
    + apply distinct_keys_hashable in Hd. unfold dict_keys in Hd.
      clear -IH Hall Hd.
      induction children as [|kv children IHc]; simpl; constructor.
      * apply Forall_cons in IH as [IHkv _].
        apply Forall_cons in Hall as [[Hname Hkv] _].
        apply Forall_cons in Hd as [Hh _].
        rewrite subscript_to_dict_name, <- Hname. split; [done|].
        split; [done|by apply IHkv].
      * apply IHc;
          first [ by apply Forall_cons in IH as [_ ?]
                | by apply Forall_cons in Hall as [_ ?]
                | by apply Forall_cons in Hd as [_ ?] ].
  - by rewrite TreeNode_from_dict_unfold.
  - by rewrite TreeNode_from_dict_unfold.
Qed.

Lemma example_tree_keyed_exactly : keyed_exactly example_tree.
Proof. simpl. repeat split. Qed.


Section BuiltRoundTrip.
Context {hstate : Type}.
Variable xxh64 : hstate.
Variable update : hstate -> string -> hstate.
Variable hexdigest : hstate -> string.

Local Abbreviation build := (TreeNode_build_node xxh64 update hexdigest).
Local Abbreviation build_dir :=
  (DirectoryNode_build_node xxh64 update hexdigest).
Local Abbreviation node_of := (built_node xxh64 update hexdigest).
Local Abbreviation stored := (built_children xxh64 update hexdigest).

(** X4: a tree the builder returned holds the children of every directory
    under their own names, and is decoded from its own representation as
    the same tree; so is every tree that holds its children that way. *)
Theorem built_tree_round_trip (e : fsentry) (path name : string)
    (node : TreeNode) (out : list string) :
  build e path name = (OK (Some node), out) ->
  keyed_exactly node /\
  TreeNode_from_dict (to_dict node) = OK node /\
  (forall t, keyed_exactly t -> TreeNode_from_dict (to_dict t) = OK t).
Proof.
  intros Hb.
  assert (keyed_exactly node) as Hk
    by apply (built_tree_keyed_exactly xxh64 update hexdigest e path name
                node out Hb).
  split; [done|]. split; [by apply from_dict_to_dict_exact|].
  apply from_dict_to_dict_exact.
Qed.

Lemma DirectoryNode_build_fst (path1 path2 : string) (st_mode : Z)
    (l1 l2 : list (string * fsentry)) (name : string) :
  store_all String.eqb (stored path1 l1) []
  = store_all String.eqb (stored path2 l2) [] ->
  fst (DirectoryNode_build xxh64 update hexdigest build path1 st_mode l1 name)
  = fst (DirectoryNode_build xxh64 update hexdigest build path2 st_mode l2 name).
Proof.
  intros Heq. unfold DirectoryNode_build.
  destruct (listdir_loop_spec xxh64 update hexdigest path1 l1 [] [])
    as (out1 & -> & _).
  { apply Forall_forall. intros ne _. apply TreeNode_build_node_returns. }
  destruct (listdir_loop_spec xxh64 update hexdigest path2 l2 [] [])
    as (out2 & -> & _).
  { apply Forall_forall. intros ne _. apply TreeNode_build_node_returns. }
  simpl. by rewrite Heq.
Qed.

Lemma built_node_fst (e : fsentry) (path name : string) :
  fst (build e path name) = OK (node_of e path name).
Proof.
  destruct (TreeNode_build_node_returns xxh64 update hexdigest e path name)
    as (r & out & Hb & _).
  unfold built_node. by rewrite Hb.
Qed.

(** X5: the node built for an entry does not depend on the path the entry
    is read at (the path only shows in the printed lines): the same
    content at another place gives the same tree. *)
Theorem built_node_path_independent (e : fsentry) (path1 path2 name : string) :
  fst (build e path1 name) = fst (build e path2 name).
Proof.
  revert path1 path2 name.
  induction e as [m content|m listing IH|m points_to resolves|m]
    using fsentry_ind'; intros path1 path2 name; try done.
  assert (stored path1 listing = stored path2 listing) as Hs.
  { unfold built_children.
    induction IH as [|[n e] listing He _ IHl]; simpl; [done|].
    destruct (os_path_isfile e || os_path_isdir e); simpl; [|done].
    rewrite IHl. do 2 f_equal.
    unfold built_node. simpl in He. by rewrite (He _ (os_path_join path2 n)). }
  simpl.
  pose proof (DirectoryNode_build_fst path1 path2 m listing listing name) as H.
  destruct (DirectoryNode_build xxh64 update hexdigest build path1 m listing name)
    as [r1 out1],
    (DirectoryNode_build xxh64 update hexdigest build path2 m listing name)
    as [r2 out2].
  simpl in *. rewrite H; [done|]. by rewrite Hs.
Qed.

Lemma filter_filter {A} (f : A -> bool) (l : list A) :
  List.filter f (List.filter f l) = List.filter f l.
Proof.
  induction l as [|x l IH]; simpl; [done|].
  destruct (f x) eqn:Hx; simpl; [by rewrite Hx, IH|done].
Qed.

(** X6: the entries of a listing that are neither file nor directory leave
    no trace in the built node: building the directory from the listing
    without them gives the same node. *)
Theorem ignored_entries_leave_no_trace (st_mode : Z)
    (listing : list (string * fsentry)) (path name : string) :
  fst (build_dir (FsDir st_mode listing) path name)
  = fst (build_dir
           (FsDir st_mode
              (List.filter
                 (fun ne => os_path_isfile (snd ne) || os_path_isdir (snd ne))
                 listing)) path name).
Proof.
  simpl. apply DirectoryNode_build_fst. unfold built_children.
  by rewrite filter_filter.
Qed.
End BuiltRoundTrip.

(** ** What is fed to the hash *)

Lemma BLOCKSIZE_pos : 0 < BLOCKSIZE.
Proof. apply Nat.ltb_lt. by vm_compute. Qed.

Lemma str_take_length (n : nat) (s : string) : String.length (str_take n s) <= n.
Proof.
  revert s. induction n as [|n IH]; intros [|c s]; simpl; try lia.
  specialize (IH s). lia.
Qed.

Lemma str_take_drop (n : nat) (s : string) : str_take n s +:+ str_drop n s = s.
Proof.
  revert s. induction n as [|n IH]; intros [|c s]; simpl; try done.
  by rewrite IH.
Qed.

Lemma str_take_empty (n : nat) (s : string) :
  0 < n -> str_take n s = "" -> s = "".
Proof. destruct n; [lia|]. by destruct s. Qed.

Lemma length_zero_empty (s : string) : String.length s = 0 -> s = "".
Proof. by destruct s. Qed.

Section Chunks.
Context {hstate : Type}.
Variable xxh64 : hstate.
Variable update : hstate -> string -> hstate.
Variable hexdigest : hstate -> string.

Local Abbreviation build_dir :=
  (DirectoryNode_build_node xxh64 update hexdigest).

(** The read loop feeds the hash with the chunks of the file, in order. *)
Lemma read_loop_chunks (fuel : nat) (message : hstate) (file_buffer f : string) :
  String.length file_buffer + String.length f <= fuel ->
  String.length file_buffer <= BLOCKSIZE ->
  (file_buffer = "" -> f = "") ->
  exists chunks,
    read_loop update fuel message file_buffer f
    = Some (fold_left update chunks message) /\
    fold_right String.append "" chunks = file_buffer +:+ f /\
    Forall (fun c => 1 <= String.length c <= BLOCKSIZE) chunks.
Proof.
  revert message file_buffer f.
  induction fuel as [|fuel IH]; intros message file_buffer f Hfuel Hlen Hempty.
  - assert (file_buffer = "") as -> by (apply length_zero_empty; lia).
    rewrite (Hempty eq_refl). exists []. by repeat split.
  - cbn [read_loop]. destruct (String.length file_buffer) as [|k] eqn:Hk.
    + apply length_zero_empty in Hk. subst. rewrite (Hempty eq_refl).
      exists []. by repeat split.
    + cbn [Nat.eqb].
      destruct (IH (update message file_buffer) (str_take BLOCKSIZE f)
                  (str_drop BLOCKSIZE f)) as (chunks & Hloop & Hcat & Hall).
      * rewrite str_take_drop_length. lia.
      * apply str_take_length.
      * intros Ht. apply (str_take_empty _ _ BLOCKSIZE_pos) in Ht. by subst.
      * exists (file_buffer :: chunks). split; [done|]. split.
        -- cbn [fold_right]. by rewrite Hcat, str_take_drop.
        -- constructor; [lia|done].
Qed.

(** The read loop as [FileNode.build_node] starts it. *)
Lemma read_loop_file (content : string) :
  exists chunks,
    read_loop update (String.length content) xxh64
      (str_take BLOCKSIZE content) (str_drop BLOCKSIZE content)
    = Some (fold_left update chunks xxh64) /\
    fold_right String.append "" chunks = content /\
    Forall (fun c => 1 <= String.length c <= BLOCKSIZE) chunks.
Proof.
  destruct (read_loop_chunks (String.length content) xxh64
              (str_take BLOCKSIZE content) (str_drop BLOCKSIZE content))
    as (chunks & Hloop & Hcat & Hall).
  - by rewrite str_take_drop_length.
  - apply str_take_length.
  - intros Ht. apply (str_take_empty _ _ BLOCKSIZE_pos) in Ht. by subst.
  - exists chunks. by rewrite str_take_drop in Hcat.
Qed.

(** X7: the checksum of a file node is the digest of one hash fed with the
    file cut into chunks: the chunks put together are the bytes of the
    file, in order, and no chunk is empty or longer than 64 KiB. *)
Theorem FileNode_checksum_chunks (st_mode : Z) (content path name : string) :
  exists chunks,
    FileNode_build_node xxh64 update hexdigest (FsFile st_mode content)
      path name
    = OK (FileNode (PStr name)
            (PStr (hexdigest (fold_left update chunks xxh64)))
            (PInt (S_IMODE st_mode))) /\
    fold_right String.append "" chunks = content /\
    Forall (fun c => 1 <= String.length c <= BLOCKSIZE) chunks.
Proof.
  destruct (read_loop_file content) as (chunks & Hloop & Hcat & Hall).
  exists chunks. split; [|done].
  unfold FileNode_build_node. cbn [os_path_isfile os_path_islink negb].
  by rewrite Hloop.
Qed.

Lemma fold_left_update_streaming (chunks : list string) (st : hstate) :
  (forall st a b, update (update st a) b = update st (a +:+ b)) ->
  chunks <> [] ->
  fold_left update chunks st
  = update st (fold_right String.append "" chunks).
Proof.
  intros Hstream. revert st.
  induction chunks as [|c chunks IH]; intros st Hne; [done|].
  cbn [fold_left fold_right]. destruct chunks as [|c' chunks].
  - cbn. by rewrite append_nil_r.
  - rewrite IH by done. apply Hstream.
Qed.

(** X8: with a hash for which feeding two pieces one after the other is
    feeding them joined (a streaming hash), reading in chunks does not
    show: the checksum of a file that is not empty is the digest of its
    bytes fed at once, which is also the checksum of a symlink whose link
    text is those bytes; the checksum of an empty file is the digest of
    the fresh hash. *)
Theorem FileNode_checksum_streaming (st_mode : Z) (content path name : string) :
  (forall st a b, update (update st a) b = update st (a +:+ b)) ->
  FileNode_build_node xxh64 update hexdigest (FsFile st_mode content) path name
  = OK (FileNode (PStr name)
          (PStr (hexdigest
                   (match content with
                    | EmptyString => xxh64
                    | _ => update xxh64 content
                    end)))
          (PInt (S_IMODE st_mode))) /\
  forall m resolves p n,
    SymlinkNode_build_node xxh64 update hexdigest
      (FsSymlink m content resolves) p n
    = OK (SymlinkNode (PStr n) (PStr (hexdigest (update xxh64 content)))
            (PInt (S_IMODE m))).
Proof.
  intros Hstream. split; [|done].
  destruct (read_loop_file content) as (chunks & Hloop & Hcat & Hall).
  unfold FileNode_build_node. cbn [os_path_isfile os_path_islink negb].
  rewrite Hloop. do 3 f_equal. destruct chunks as [|c chunks].
  - cbn in Hcat. by subst.
  - rewrite fold_left_update_streaming by done. rewrite Hcat.
    destruct content; [|done].
    apply Forall_cons in Hall as [Hc _]. destruct c; [cbn in Hc; lia|done].
Qed.

Lemma listdir_loop_all_ignored (build_node : fsentry -> string -> string ->
                                  built (option TreeNode))
    (path : string) (listing : list (string * fsentry))
    (children : list (string * option TreeNode)) (out : list string) :
  Forall (fun ne => os_path_isfile (snd ne) || os_path_isdir (snd ne) = false)
    listing ->
  listdir_loop build_node path listing children out
  = (OK children,
     out ++ map (fun ne => "Ignored: " +:+ os_path_join path (fst ne)) listing).
Proof.
  intros H. revert out. induction H as [|[n e] listing He _ IH]; intros out.
  - cbn. by rewrite app_nil_r.
  - cbn [listdir_loop]. cbn in He.
    apply orb_false_elim in He as [-> ->]. cbn [negb andb].
    rewrite IH. by rewrite <- app_assoc.
Qed.

(** X9: a directory all of whose entries are ignored, an empty directory
    included, is built without children, with the digest of the fresh
    hash as checksum (the checksum of an empty file), and one "Ignored"
    line is printed per entry, in the order of the listing. *)
Theorem DirectoryNode_all_ignored (st_mode : Z)
    (listing : list (string * fsentry)) (path name : string) :
  Forall (fun ne => os_path_isfile (snd ne) || os_path_isdir (snd ne) = false)
    listing ->
  build_dir (FsDir st_mode listing) path name
  = (OK (DirectoryNode (PStr name) (PStr (hexdigest xxh64))
           (PInt (S_IMODE st_mode)) []),
     map (fun ne => "Ignored: " +:+ os_path_join path (fst ne)) listing) /\
  forall m p n,
    FileNode_build_node xxh64 update hexdigest (FsFile m "") p n
    = OK (FileNode (PStr n) (PStr (hexdigest xxh64)) (PInt (S_IMODE m))).
Proof.
  intros H. split.
  - unfold DirectoryNode_build_node, DirectoryNode_build.
    cbn [os_path_isdir negb].
    by rewrite (listdir_loop_all_ignored _ path listing [] [] H).
  - intros m p n.
    destruct (read_loop_file "") as (chunks & Hloop & Hcat & Hall).
    unfold FileNode_build_node. cbn [os_path_isfile os_path_islink negb].
    rewrite Hloop.
    destruct chunks as [|c chunks]; [done|].
    apply Forall_cons in Hall as [Hc _]. destruct c; [cbn in Hc; lia|done].
Qed.
End Chunks.

(** ** The traversal, whatever the keys *)

Lemma push_children_keys (path : string) (children : list (pyval * TreeNode))
    (stack : list (TreeNode * string)) :
  push_children path children stack
  = if forallb (fun kv => is_str (fst kv)) children
    then OK (stack ++ pushed path children)
    else Raise TypeError.
Proof.
  revert stack. induction children as [|[k t] children IH]; intros stack.
  - cbn. by rewrite app_nil_r.
  - cbn [push_children forallb fst]. destruct k; try done.
    cbn. rewrite IH. destruct (forallb _ children); [|done].
    by rewrite <- app_assoc.
Qed.

Lemma str_keys_directory (n c p : pyval) (children : list (pyval * TreeNode))
    (path : string) :
  str_keys (DirectoryNode n c p children)
  = forallb (fun kv => is_str (fst kv)) children &&
    forallb (fun np => str_keys (fst np)) (pushed path children).
Proof.
  cbn [str_keys]. unfold pushed.
  induction children as [|[k t] children IH]; [done|].
  cbn. rewrite IH.
  destruct (is_str k), (str_keys t),
    (forallb (fun kv => is_str (fst kv)) children); done.
Qed.

(** When a key that is no string lies in a tree of the stack, the loop
    ends by the [TypeError] of [os.path.join]. *)
Lemma iter_loop_raises (fuel : nat) (stack : list (TreeNode * string)) :
  stack_count stack <= fuel ->
  forallb (fun np => str_keys (fst np)) stack = false ->
  snd (iter_loop fuel stack) = Raised TypeError.
Proof.
  revert stack. induction fuel as [|fuel IH]; intros stack Hfuel Hkeys.
  - destruct stack as [|[n p] stack]; [done|].
    unfold stack_count in Hfuel. cbn in Hfuel.
    pose proof (node_count_pos n). lia.
  - destruct (decide (stack = [])) as [->|Hne]; [done|].
    destruct (exists_last Hne) as (stack' & [n p] & ->).
    rewrite forallb_app in Hkeys. cbn [forallb fst] in Hkeys.
    rewrite andb_true_r in Hkeys.
    rewrite stack_count_app in Hfuel. unfold stack_count at 2 in Hfuel.
    cbn [fold_right fst] in Hfuel.
    cbn [iter_loop]. rewrite list_pop_snoc.
    destruct n as [nm c pm children|nm c pm|nm c pm].
    + rewrite push_children_keys.
      rewrite (str_keys_directory nm c pm children p) in Hkeys.
      rewrite (node_count_directory nm c pm children p) in Hfuel.
      destruct (forallb (fun kv => is_str (fst kv)) children); [|done].
      specialize (IH (stack' ++ pushed p children)).
      destruct (iter_loop fuel (stack' ++ pushed p children)) as [y e].
      cbn. apply IH.
      * rewrite stack_count_app. lia.
      * by rewrite forallb_app.
    + cbn in Hkeys, Hfuel. rewrite andb_true_r in Hkeys.
      specialize (IH stack'). destruct (iter_loop fuel stack') as [y e].
      cbn. apply IH; [lia|done].
    + cbn in Hkeys, Hfuel. rewrite andb_true_r in Hkeys.
      specialize (IH stack'). destruct (iter_loop fuel stack') as [y e].
      cbn. apply IH; [lia|done].
Qed.

(** X10: [Checkpoint.iter] yields the pair of the root and the empty path
    first, whatever the tree; it ends normally when every key of every
    children dict is a string, and by a [TypeError] otherwise. *)
Theorem Checkpoint_iter_end (self : Checkpoint) :
  (exists rest, fst (Checkpoint_iter self) = (root self, "") :: rest) /\
  snd (Checkpoint_iter self)
  = if str_keys (root self) then Exhausted else Raised TypeError.
Proof.
  split.
  - unfold Checkpoint_iter.
    destruct (root self) as [nm c pm children|nm c pm|nm c pm];
      cbn [node_count iter_loop list_pop].
    + destruct (push_children "" children []) as [st|]; [|by eexists].
      destruct (iter_loop _ st). by eexists.
    + by eexists.
    + by eexists.
  - unfold Checkpoint_iter. destruct (str_keys (root self)) eqn:Hk.
    + rewrite iter_loop_walk; [done|by repeat constructor|].
      unfold stack_count. cbn. lia.
    + apply iter_loop_raises.
      * unfold stack_count. cbn. lia.
      * cbn. by rewrite Hk.
Qed.

Lemma last_first_walk_nodes (n : TreeNode) (path : string) :
  map fst (last_first_walk n path) ≡ₚ nodes_of n.
Proof.
  revert path.
  induction n as [nm c pm children IH|nm c pm|nm c pm] using TreeNode_ind';
    intros path; [|done|done].
  cbn [last_first_walk nodes_of map fst]. constructor.
  induction IH as [|[k t] children Ht _ IHc]; [done|].
  rewrite map_app, Permutation_app_comm.
  by rewrite (Ht _), IHc.
Qed.

(** X11: over a tree whose keys are strings, [Checkpoint.iter] yields
    every node of the tree once: the nodes it yields are the nodes of the
    tree, in another order. *)
Theorem Checkpoint_iter_every_node (self : Checkpoint) :
  str_keys (root self) = true ->
  map fst (fst (Checkpoint_iter self)) ≡ₚ nodes_of (root self) /\
  length (fst (Checkpoint_iter self)) = node_count (root self).
Proof.
  intros Hk.
  assert (Checkpoint_iter self = (last_first_walk (root self) "", Exhausted))
    as ->.
  { unfold Checkpoint_iter. rewrite iter_loop_walk; [done|by repeat constructor|].
    unfold stack_count. cbn. lia. }
  cbn [fst]. split; [apply last_first_walk_nodes|].
  rewrite <- (length_map fst), (last_first_walk_nodes (root self) "").
  clear Hk. generalize (root self). clear self.
  induction t as [nm c pm children IH|nm c pm|nm c pm] using TreeNode_ind';
    [|done|done].
  cbn [nodes_of node_count length]. f_equal.
  induction IH as [|[k t] children Ht _ IHc]; [done|].
  cbn [fold_right snd] in *. by rewrite length_app, Ht, IHc.
Qed.

Lemma Checkpoint_iter_every_node_witness :
  map fst (fst (Checkpoint_iter
                  (mk_Checkpoint example_tree (mk_datetime 2024 1 1 0 0 0 0)
                     None)))
  ≡ₚ nodes_of example_tree /\
  length (fst (Checkpoint_iter
                 (mk_Checkpoint example_tree (mk_datetime 2024 1 1 0 0 0 0)
                    None)))
  = node_count example_tree.
Proof.
  exact (Checkpoint_iter_every_node
           (mk_Checkpoint example_tree (mk_datetime 2024 1 1 0 0 0 0) None)
           eq_refl).
Defined.

(** ** Construction, identifier and document of a checkpoint *)

(** X12: [Checkpoint(root, time, name)] succeeds exactly for the name
    [None] and for a name that is a run of one or more characters of the
    class, alone or followed by one line feed; the checkpoint holds the
    root, the name, and the time given or else the current time.  The
    empty name is never accepted. *)
Theorem Checkpoint_init_accepts (now : datetime) (root : TreeNode)
    (time : option datetime) (name : option string) :
  ((exists cp, Checkpoint_init now root time name = OK cp) <->
   (name = None \/
    exists run, run <> "" /\ all_name_chars run = true /\
                (name = Some run \/ name = Some (run +:+ String newline "")))) /\
  (forall cp, Checkpoint_init now root time name = OK cp ->
     cp = mk_Checkpoint root (match time with None => now | Some t => t end)
            name /\
     name_encodable name = true).
Proof.
  unfold Checkpoint_init. destruct name as [s|]; cbn [negb].
  - destruct (re_match_name s) eqn:Hs; cbn [negb]; split.
    + split; [|by eexists]. intros _. right.
      destruct (proj1 (re_match_name_spec s) Hs)
        as (run & Hne & Hrun & [->| ->]); exists run; auto.
    + intros cp [= <-]. split; [done|]. by destruct s.
    + split; [by intros [cp Hcp]|].
      intros [[=]|(run & Hne & Hrun & Hname)].
      assert (re_match_name s = true) as Habs; [|by rewrite Hs in Habs].
      apply re_match_name_spec. exists run. split; [done|]. split; [done|].
      destruct Hname as [[= ->]|[= ->]]; auto.
    + done.
  - split; [|by intros cp [= <-]].
    split; [by left|by eexists].
Qed.

Lemma cut_present (sep : ascii) (s : string) :
  has_char sep s = true -> exists a b, cut sep s = Some (a, b).
Proof.
  induction s as [|c s IH]; cbn; [done|].
  destruct (Ascii.eqb c sep); cbn; [by eexists _, _|].
  intros (a & b & ->)%IH. by eexists _, _.
Qed.

(** X13: [CheckpointMeta.from_string] raises an [IndexError] exactly on a
    text without underscore; a text with an underscore is decoded, or its
    time part is refused by the parser. *)
Theorem CheckpointMeta_from_string_IndexError (s : string) :
  CheckpointMeta_from_string s = Raise IndexError <-> has_char "_" s = false.
Proof.
  unfold CheckpointMeta_from_string. split.
  - destruct (has_char "_" s) eqn:Hs; [|done].
    destruct (cut_present "_" s Hs) as (a & b & Hcut).
    cbn [py_split]. rewrite Hcut.
    unfold datetime_from_iso_format.
    destruct (cut "_" b) as [[t n]|]; cbn;
      by destruct (parse_iso _).
  - intros Hs. cbn [py_split]. by rewrite (cut_absent "_" s Hs).
Qed.

(** Decoding a text written with both separators in place. *)
Ltac decode_meta_text name Hc Ht :=
  unfold CheckpointMeta_from_string, meta_text;
  destruct name;
  [ rewrite py_split_two by (exact Hc || apply has_char_iso_micro)
  | rewrite append_nil_r;
    rewrite py_split_one by (exact Hc || apply has_char_iso_micro) ];
  unfold datetime_from_iso_format; by rewrite (parse_iso_micro _ Ht).

(** X14: [from_string] reads a text [<checksum>_<time>] or
    [<checksum>_<time>_<name>] back into its parts, when the checksum holds
    no underscore and the time is written with microseconds; everything
    after the second underscore is the name, further underscores included,
    and a text that ends with the second underscore gives the empty
    name. *)
Theorem CheckpointMeta_from_string_text (checksum : string) (t : datetime)
    (name : option string) :
  has_char "_" checksum = false ->
  valid_datetime t = true ->
  CheckpointMeta_from_string (meta_text checksum t name)
  = OK (mk_CheckpointMeta checksum t name).
Proof.
  intros Hc Ht. unfold CheckpointMeta_from_string, meta_text.
  destruct name as [n|].
  - rewrite py_split_two by (done || apply has_char_iso_micro).
    unfold datetime_from_iso_format. by rewrite (parse_iso_micro t Ht).
  - rewrite append_nil_r.
    rewrite py_split_one by (done || apply has_char_iso_micro).
    unfold datetime_from_iso_format. by rewrite (parse_iso_micro t Ht).
Qed.

Lemma CheckpointMeta_from_string_text_witness :
  CheckpointMeta_from_string
    (meta_text "abc123" (mk_datetime 2024 2 29 23 59 59 7) (Some ""))
  = OK (mk_CheckpointMeta "abc123" (mk_datetime 2024 2 29 23 59 59 7)
          (Some "")).
Proof.
  apply (CheckpointMeta_from_string_text "abc123"
           (mk_datetime 2024 2 29 23 59 59 7) (Some "")); by vm_compute.
Defined.

Lemma CheckpointMeta_to_string_text (m : CheckpointMeta) :
  name_encodable (meta_name m) = true ->
  CheckpointMeta_to_string m
  = meta_text (meta_checksum m) (meta_time m) (meta_name m).
Proof.
  intros Hn. rewrite CheckpointMeta_to_string_eq. unfold meta_text.
  by destruct (meta_name m) as [[|c n]|].
Qed.

(** X15: [to_string] gives different texts for different values: two
    CheckpointMeta whose checksums hold no underscore, whose times are
    values of [datetime] and whose names are [None] or not empty have the
    same text only if they are equal. *)
Theorem CheckpointMeta_to_string_injective (m1 m2 : CheckpointMeta) :
  has_char "_" (meta_checksum m1) = false ->
  has_char "_" (meta_checksum m2) = false ->
  valid_datetime (meta_time m1) = true ->
  valid_datetime (meta_time m2) = true ->
  name_encodable (meta_name m1) = true ->
  name_encodable (meta_name m2) = true ->
  CheckpointMeta_to_string m1 = CheckpointMeta_to_string m2 ->
  m1 = m2.
Proof.
  intros Hc1 Hc2 Ht1 Ht2 Hn1 Hn2 Heq.
  rewrite !CheckpointMeta_to_string_text in Heq by done.
  apply (f_equal CheckpointMeta_from_string) in Heq.
  destruct m1 as [c1 t1 n1], m2 as [c2 t2 n2].
  cbn [meta_checksum meta_time meta_name] in *.
  assert (CheckpointMeta_from_string (meta_text c1 t1 n1)
          = OK (mk_CheckpointMeta c1 t1 n1)) as H1
    by decode_meta_text n1 Hc1 Ht1.
  assert (CheckpointMeta_from_string (meta_text c2 t2 n2)
          = OK (mk_CheckpointMeta c2 t2 n2)) as H2
    by decode_meta_text n2 Hc2 Ht2.
  rewrite H1, H2 in Heq. by injection Heq as -> -> ->.
Qed.

Lemma CheckpointMeta_to_string_injective_witness :
  mk_CheckpointMeta "abc123" (mk_datetime 2024 1 1 0 0 0 0) None
  = mk_CheckpointMeta "abc123" (mk_datetime 2024 1 1 0 0 0 0) None.
Proof.
  apply (CheckpointMeta_to_string_injective
           (mk_CheckpointMeta "abc123" (mk_datetime 2024 1 1 0 0 0 0) None)
           (mk_CheckpointMeta "abc123" (mk_datetime 2024 1 1 0 0 0 0) None));
    by vm_compute.
Defined.

(** X16: the identifier of a constructed checkpoint is read back: for a
    checkpoint that the constructor returned, whose root carries a checksum
    without underscore and whose time is a value of [datetime],
    [from_string] of the [to_string] of its meta is that meta (the
    constructor lets no empty name through). *)
Theorem Checkpoint_meta_round_trip (now : datetime) (tree : TreeNode)
    (given : option datetime) (label : option string) (cp : Checkpoint)
    (checksum : string) :
  Checkpoint_init now tree given label = OK cp ->
  node_checksum tree = PStr checksum ->
  has_char "_" checksum = false ->
  valid_datetime (time cp) = true ->
  exists m,
    Checkpoint_meta cp = Some m /\
    m = mk_CheckpointMeta checksum (time cp) label /\
    CheckpointMeta_from_string (CheckpointMeta_to_string m) = OK m.
Proof.
  intros Hinit Hsum Hc Ht.
  assert (cp = mk_Checkpoint tree
                 (match given with None => now | Some t => t end) label /\
          name_encodable label = true) as [-> Hn].
  { unfold Checkpoint_init in Hinit.
    destruct label as [s|]; cbn [negb] in Hinit.
    - destruct (re_match_name s) eqn:Hs; [|done]. cbn [negb] in Hinit.
      injection Hinit as <-. split; [done|]. by destruct s.
    - by injection Hinit as <-. }
  cbn [time] in *. unfold Checkpoint_meta.
  cbn [root time name]. rewrite Hsum.
  eexists. split; [done|]. split; [done|].
  rewrite CheckpointMeta_to_string_text by done.
  cbn [meta_checksum meta_time meta_name]. decode_meta_text label Hc Ht.
Qed.

(** The parser reads back what [isoformat] wrote, with or without the
    fraction. *)
Lemma parse_iso_isoformat (t : datetime) :
  valid_datetime t = true -> parse_iso (isoformat t) = Some t.
Proof.
  intros Hv. unfold isoformat.
  destruct (Z.eqb_spec (microsecond t) 0) as [H0|_].
  - destruct (valid_datetime_bounds t Hv) as (Hy & Hmo & Hd & Hh & Hmi & Hs & _).
    unfold parse_iso.
    rewrite (read_field 4 _ _ Hy). cbn.
    rewrite (read_field 2 _ _ Hmo). cbn.
    rewrite (read_field 2 _ _ Hd). cbn.
    rewrite (read_field 2 _ _ Hh). cbn.
    rewrite (read_field 2 _ _ Hmi). cbn.
    rewrite (read_field 2 _ _ Hs). cbn.
    destruct t. cbn in *. subst. by rewrite Hv.
  - by apply parse_iso_micro.
Qed.

Lemma subscript_json_dict (a b c : pyval) :
  subscript (PDict [("root", a); ("time", b); ("name", c)]) "root" = OK a /\
  subscript (PDict [("root", a); ("time", b); ("name", c)]) "time" = OK b /\
  subscript (PDict [("root", a); ("time", b); ("name", c)]) "name" = OK c.
Proof. done. Qed.

(** X17: a checkpoint is read back from the dictionary [to_json] writes:
    for a checkpoint whose tree holds the children of every directory
    under their own names, whose time is a value of [datetime] (with or
    without microseconds) and whose name passes the check of the
    constructor, [from_json] gives the same checkpoint. *)
Theorem Checkpoint_json_round_trip (cp : Checkpoint) :
  keyed_exactly (root cp) ->
  valid_datetime (time cp) = true ->
  name_accepted (name cp) = true ->
  Checkpoint_from_json_dict (Checkpoint_to_json_dict cp) = OK cp.
Proof.
  destruct cp as [r t n]. cbn [root time name]. intros Hk Ht Hn.
  unfold Checkpoint_from_json_dict, Checkpoint_to_json_dict.
  cbn [root time name].
  destruct (subscript_json_dict (to_dict r) (PStr (isoformat t))
              (name_to_json n)) as (-> & -> & ->).
  cbn [mbind res_bind]. rewrite (from_dict_to_dict_exact r Hk).
  unfold datetime_from_iso_format. rewrite (parse_iso_isoformat t Ht).
  unfold Checkpoint_init. destruct n as [s|]; cbn in *; [|done].
  by rewrite Hn.
Qed.

Lemma Checkpoint_json_round_trip_witness :
  Checkpoint_from_json_dict
    (Checkpoint_to_json_dict
       (mk_Checkpoint example_tree (mk_datetime 2024 1 1 0 0 0 0)
          (Some "release-1.2_rc1")))
  = OK (mk_Checkpoint example_tree (mk_datetime 2024 1 1 0 0 0 0)
          (Some "release-1.2_rc1")).
Proof.
  apply (Checkpoint_json_round_trip
           (mk_Checkpoint example_tree (mk_datetime 2024 1 1 0 0 0 0)
              (Some "release-1.2_rc1")));
    [exact example_tree_keyed_exactly|by vm_compute|by vm_compute].
Defined.

Example Checkpoint_to_json_dict_example :
  Checkpoint_to_json_dict
    (mk_Checkpoint (FileNode (PStr "") (PStr "c") (PInt 420))
       (mk_datetime 2024 1 1 0 0 0 0) None)
  = PDict [("root", PDict [("name", PStr ""); ("checksum", PStr "c");
                           ("permissions", PInt 420); ("type", PStr "file")]);
           ("time", PStr "2024-01-01T00:00:00");
           ("name", PNone)].
Proof. by vm_compute. Qed.

Section BuiltCheckpoints.
Context {hstate : Type}.
Variable xxh64 : hstate.
Variable update : hstate -> string -> hstate.
Variable hexdigest : hstate -> string.

Local Abbreviation build := (TreeNode_build_node xxh64 update hexdigest).
Local Abbreviation build_checkpoint :=
  (Checkpoint_build_checkpoint xxh64 update hexdigest).

(** X18: [Checkpoint.build_checkpoint] always returns or raises after the
    whole tree was built: the lines printed are those of the build, also
    when the name is then refused with an [AssertionError].  With an
    accepted name it returns a checkpoint of the current time whose root
    is the node built with the empty name, and a checkpoint without root
    when the path is none of symlink, file and directory. *)
Theorem Checkpoint_build_checkpoint_spec (now : datetime) (e : fsentry)
    (path : string) (label : option string) :
  exists r out,
    build e path "" = (OK r, out) /\
    build_checkpoint now e path label
    = (if name_accepted label
       then OK (match r with
                | Some tree => WithRoot (mk_Checkpoint tree now label)
                | None => WithoutRoot now label
                end)
       else Raise AssertionError, out) /\
    match r with
    | Some tree =>
        node_name tree = PStr "" /\
        os_path_islink e || os_path_isfile e || os_path_isdir e = true
    | None =>
        os_path_islink e || os_path_isfile e || os_path_isdir e = false /\
        out = ["Could not backup: " +:+ path]
    end.
Proof.
  destruct (TreeNode_build_node_returns xxh64 update hexdigest e path "")
    as (r & out & Hb & Hr).
  exists r, out. split; [done|]. split.
  - unfold Checkpoint_build_checkpoint. rewrite Hb.
    destruct r as [tree|]; [|by destruct (name_accepted label)].
    unfold Checkpoint_init, name_accepted.
    by destruct label as [s|]; [destruct (re_match_name s)|].
  - destruct r as [tree|].
    + destruct Hr as (Hkind & Hname & _). by split.
    + split; [done|]. destruct e as [| | |m]; cbn in Hr; try done.
      cbn in Hb. by injection Hb as <-.
Qed.

(** X19: a checkpoint with a root that [build_checkpoint] returns has the
    current time and the name given, which passed the check; its root has
    the empty name and its tree holds every child under its own name, each
    name once; [iter] yields its nodes, as many as the tree has, in the
    last-inserted-first order and ends without raising; and its meta
    carries a string checksum, the current time and the name. *)
Theorem built_checkpoint_fit (now : datetime) (e : fsentry) (path : string)
    (label : option string) (cp : Checkpoint) (out : list string) :
  build_checkpoint now e path label = (OK (WithRoot cp), out) ->
  time cp = now /\ name cp = label /\ name_accepted label = true /\
  node_name (root cp) = PStr "" /\
  keyed_exactly (root cp) /\
  Checkpoint_iter cp = (last_first_walk (root cp) "", Exhausted) /\
  length (fst (Checkpoint_iter cp)) = node_count (root cp) /\
  exists checksum,
    Checkpoint_meta cp = Some (mk_CheckpointMeta checksum now label).
Proof.
  intros Hcp. unfold Checkpoint_build_checkpoint in Hcp.
  destruct (TreeNode_build_node_returns xxh64 update hexdigest e path "")
    as (r & out' & Hb & Hr).
  rewrite Hb in Hcp. destruct r as [tree|].
  - destruct Hr as (_ & Hname & Hsum & _).
    unfold Checkpoint_init in Hcp.
    assert (name_accepted label = true /\ cp = mk_Checkpoint tree now label)
      as [Hn ->].
    { unfold name_accepted. destruct label as [s|]; cbn in Hcp.
      - destruct (re_match_name s); cbn in Hcp; [|done].
        by injection Hcp as <- _.
      - by injection Hcp as <- _. }
    cbn [root time name].
    pose proof (built_tree_str_keys xxh64 update hexdigest e path "" tree out'
                  Hb) as Hkeys.
    assert (Checkpoint_iter (mk_Checkpoint tree now label)
            = (last_first_walk tree "", Exhausted)) as Hiter.
    { unfold Checkpoint_iter. cbn [root].
      rewrite iter_loop_walk; [done|by repeat constructor|].
      unfold stack_count. cbn. lia. }
    repeat split; try done.
    + apply (built_tree_keyed_exactly xxh64 update hexdigest e path "" tree
               out' Hb).
    + rewrite Hiter. cbn [fst].
      rewrite <- (length_map fst), (last_first_walk_nodes tree "").
      clear. induction tree as [nm c pm children IH|nm c pm|nm c pm]
        using TreeNode_ind'; [|done|done].
      cbn [nodes_of node_count length]. f_equal.
      induction IH as [|[k t] children Ht _ IHc]; [done|].
      cbn [fold_right snd] in *. by rewrite length_app, Ht, IHc.
    + unfold Checkpoint_meta. cbn [root time name].
      destruct (node_checksum tree); try done. by eexists.
  - by destruct (name_accepted label).
Qed.
End BuiltCheckpoints.

(** ** The further theorems at concrete inputs *)

Lemma example_build :
  TreeNode_build_node transcript_new transcript_update transcript_hexdigest
    (FsDir 16877 example_listing) "/src" ""
  = (OK (Some example_built_tree), example_built_out).
Proof. by vm_compute. Qed.

Lemma built_tree_fields_witness :
  all_nodes (fun n => is_str (node_name n) = true /\ checksum_is_str n /\
                      permission_bits n) example_built_tree.
Proof.
  exact (built_tree_fields transcript_new transcript_update
           transcript_hexdigest (FsDir 16877 example_listing) "/src" ""
           example_built_tree example_built_out example_build).
Defined.

Lemma built_tree_round_trip_witness :
  keyed_exactly example_built_tree /\
  TreeNode_from_dict (to_dict example_built_tree) = OK example_built_tree /\
  (forall t, keyed_exactly t -> TreeNode_from_dict (to_dict t) = OK t).
Proof.
  exact (built_tree_round_trip transcript_new transcript_update
           transcript_hexdigest (FsDir 16877 example_listing) "/src" ""
           example_built_tree example_built_out example_build).
Defined.

Lemma transcript_streaming (st a b : string) :
  transcript_update (transcript_update st a) b
  = transcript_update st (a +:+ b).
Proof. apply append_assoc. Qed.

Lemma FileNode_checksum_streaming_witness :
  FileNode_build_node transcript_new transcript_update transcript_hexdigest
    (FsFile 33188 "hello") "/src/b.txt" "b.txt"
  = OK (FileNode (PStr "b.txt")
          (PStr (transcript_hexdigest (transcript_update transcript_new "hello")))
          (PInt (S_IMODE 33188))) /\
  forall m resolves p n,
    SymlinkNode_build_node transcript_new transcript_update
      transcript_hexdigest (FsSymlink m "hello" resolves) p n
    = OK (SymlinkNode (PStr n)
            (PStr (transcript_hexdigest
                     (transcript_update transcript_new "hello")))
            (PInt (S_IMODE m))).
Proof.
  exact (FileNode_checksum_streaming transcript_new transcript_update
           transcript_hexdigest 33188 "hello" "/src/b.txt" "b.txt"
           transcript_streaming).
Defined.

Lemma DirectoryNode_all_ignored_witness :
  DirectoryNode_build_node transcript_new transcript_update
    transcript_hexdigest
    (FsDir 16877 [("dead", FsSymlink 41471 "nowhere" Dangling);
                  ("pipe", FsOther 4516)]) "/src" "d"
  = (OK (DirectoryNode (PStr "d") (PStr (transcript_hexdigest transcript_new))
           (PInt (S_IMODE 16877)) []),
     map (fun ne => "Ignored: " +:+ os_path_join "/src" (fst ne))
       [("dead", FsSymlink 41471 "nowhere" Dangling); ("pipe", FsOther 4516)]) /\
  forall m p n,
    FileNode_build_node transcript_new transcript_update transcript_hexdigest
      (FsFile m "") p n
    = OK (FileNode (PStr n) (PStr (transcript_hexdigest transcript_new))
            (PInt (S_IMODE m))).
Proof.
  apply (DirectoryNode_all_ignored transcript_new transcript_update
           transcript_hexdigest 16877
           [("dead", FsSymlink 41471 "nowhere" Dangling); ("pipe", FsOther 4516)]
           "/src" "d").
  repeat constructor.
Defined.

Lemma Checkpoint_meta_round_trip_witness :
  exists m,
    Checkpoint_meta
      (mk_Checkpoint example_tree (mk_datetime 2024 1 1 0 0 0 0)
         (Some "nightly_1")) = Some m /\
    m = mk_CheckpointMeta "c0" (mk_datetime 2024 1 1 0 0 0 0)
          (Some "nightly_1") /\
    CheckpointMeta_from_string (CheckpointMeta_to_string m) = OK m.
Proof.
  apply (Checkpoint_meta_round_trip (mk_datetime 2024 1 1 0 0 0 0)
           example_tree None (Some "nightly_1")
           (mk_Checkpoint example_tree (mk_datetime 2024 1 1 0 0 0 0)
              (Some "nightly_1")) "c0"); by vm_compute.
Defined.

Lemma example_build_checkpoint :
  Checkpoint_build_checkpoint transcript_new transcript_update
    transcript_hexdigest (mk_datetime 2024 1 1 0 0 0 0)
    (FsDir 16877 example_listing) "/src" (Some "nightly_1")
  = (OK (WithRoot (mk_Checkpoint example_built_tree
                     (mk_datetime 2024 1 1 0 0 0 0) (Some "nightly_1"))),
     example_built_out).
Proof. by vm_compute. Qed.

Lemma built_checkpoint_fit_witness :
  keyed_exactly example_built_tree /\
  Checkpoint_iter (mk_Checkpoint example_built_tree
                     (mk_datetime 2024 1 1 0 0 0 0) (Some "nightly_1"))
  = (last_first_walk example_built_tree "", Exhausted).
Proof.
  destruct (built_checkpoint_fit transcript_new transcript_update
              transcript_hexdigest (mk_datetime 2024 1 1 0 0 0 0)
              (FsDir 16877 example_listing) "/src" (Some "nightly_1")
              (mk_Checkpoint example_built_tree
                 (mk_datetime 2024 1 1 0 0 0 0) (Some "nightly_1"))
              example_built_out example_build_checkpoint)
    as (_ & _ & _ & _ & Hk & Hiter & _).
  exact (conj Hk Hiter).
Defined.

Example build_checkpoint_bad_name_example :
  Checkpoint_build_checkpoint transcript_new transcript_update
    transcript_hexdigest (mk_datetime 2024 1 1 0 0 0 0)
    (FsDir 16877 example_listing) "/src" (Some "bad/name")
  = (Raise AssertionError, example_built_out).
Proof. by vm_compute. Qed.

Example build_checkpoint_no_root_example :
  Checkpoint_build_checkpoint transcript_new transcript_update
    transcript_hexdigest (mk_datetime 2024 1 1 0 0 0 0)
    (FsOther 4516) "/src/pipe" None
  = (OK (WithoutRoot (mk_datetime 2024 1 1 0 0 0 0) None),
     ["Could not backup: /src/pipe"]).
Proof. by vm_compute. Qed.

Lemma example_deep_reordered :
  reordered (FsDir 16877 example_deep_listing)
    (FsDir 16877 example_deep_listing_reordered).
Proof.
  apply (reordered_dir 16877 _
           [("b", FsFile 33188 "hello");
            ("a", FsDir 16877 [("y", FsFile 33188 "y?");
                               ("x", FsFile 33261 "x!")])]).
  - constructor; [split; [done|apply reordered_same]|].
    constructor; [|constructor]. split; [done|].
    apply (reordered_dir 16877 _
             [("x", FsFile 33261 "x!"); ("y", FsFile 33188 "y?")]).
    + repeat constructor.
    + apply perm_swap.
  - apply perm_swap.
Qed.

Lemma example_deep_unique_names :
  unique_names (FsDir 16877 example_deep_listing).
Proof.
  cbn. repeat split; apply NoDup_ListNoDup, (bool_decide_unpack _);
    by vm_compute.
Qed.

Lemma reordered_same_checksum_witness :
  checksum_of (built_node transcript_new transcript_update
                 transcript_hexdigest (FsDir 16877 example_deep_listing)
                 "/src" "")
  = checksum_of (built_node transcript_new transcript_update
                   transcript_hexdigest
                   (FsDir 16877 example_deep_listing_reordered) "/src" "").
Proof.
  exact (proj2 (proj2 (reordered_same_checksum transcript_new
                         transcript_update transcript_hexdigest _ _
                         example_deep_reordered example_deep_unique_names))
           "/src" "").
Defined.

Lemma TreeNode_from_dict_names_distinct_witness :
  sibling_names_distinct
    (DirectoryNode (PStr "") (PStr "c0") (PInt 493)
       [(PStr "a", SymlinkNode (PStr "a") (PStr "c3") (PInt 511));
        (PStr "b", FileNode (PStr "b") (PStr "c2") (PInt 420))]) = true.
Proof.
  exact (TreeNode_from_dict_names_distinct example_duplicate_record _
           DirectoryNode_from_dict_duplicate_example).
Defined.

(** ** The configuration store *)

Lemma assoc_setitem (k : string) (v : pyval) (kvs : list (string * pyval)) :
  assoc k (dict_setitem String.eqb k v kvs) = Some v.
Proof.
  induction kvs as [|[k' v'] kvs IH]; simpl.
  - by rewrite String.eqb_refl.
  - destruct (String.eqb k' k) eqn:E; simpl; by rewrite E.
Qed.

Lemma assoc_setitem_ne (k k' : string) (v : pyval)
    (kvs : list (string * pyval)) :
  k <> k' ->
  assoc k' (dict_setitem String.eqb k v kvs) = assoc k' kvs.
Proof.
  intros Hne. induction kvs as [|[k0 v0] kvs IH]; simpl.
  - destruct (String.eqb k k') eqn:E; [by apply String.eqb_eq in E|done].
  - destruct (String.eqb k0 k) eqn:E; simpl.
    + apply String.eqb_eq in E as ->.
      destruct (String.eqb k k') eqn:E'; [by apply String.eqb_eq in E'|done].
    + by rewrite IH.
Qed.

Lemma assoc_remove_key (k : string) (kvs : list (string * pyval)) :
  assoc k (remove_key k kvs) = None.
Proof.
  induction kvs as [|[k' v'] kvs IH]; [done|].
  unfold remove_key in *. simpl.
  destruct (String.eqb k' k) eqn:E; simpl; [done|]. by rewrite E.
Qed.

Lemma split_all_nonempty (sep : ascii) (s : string) : split_all sep s <> [].
Proof.
  destruct s as [|c s]; [done|]. simpl.
  destruct (Ascii.eqb c sep); [done|]. by destruct (split_all sep s).
Qed.

Lemma set_path_last (key : string) (value current : pyval) :
  set_path [key] value current = setitem current key value.
Proof. done. Qed.

Lemma set_path_inner (key k2 : string) (rest : list string)
    (value current : pyval) :
  set_path (key :: k2 :: rest) value current
  = match current with
    | PDict kvs =>
        next' ← set_path (k2 :: rest) value
                  (match assoc key kvs with
                   | Some v => v
                   | None => PDict []
                   end);
        OK (PDict (dict_setitem String.eqb key next' kvs))
    | _ => Raise AttributeError
    end.
Proof. done. Qed.

Lemma get_path_nil (current : pyval) : get_path [] current = OK current.
Proof. done. Qed.

Lemma get_path_cons (key : string) (rest : list string) (current : pyval) :
  get_path (key :: rest) current
  = (next ← subscript current key; get_path rest next).
Proof. done. Qed.

Lemma del_dict_item_last (d : pyval) (key : string) :
  del_dict_item d [key] = delitem d key.
Proof. done. Qed.

Lemma del_dict_item_inner (d : pyval) (key k2 : string) (rest : list string) :
  del_dict_item d (key :: k2 :: rest)
  = (child ← subscript d key;
     child' ← del_dict_item child (k2 :: rest);
     d' ← setitem d key child';
     len ← py_len child';
     if (len =? 0)%nat then delitem d' key else OK d').
Proof. done. Qed.

#[local] Opaque set_path get_path del_dict_item.

Lemma set_path_get_path (keys : list string) (value c c' : pyval) :
  set_path keys value c = OK c' -> get_path keys c' = OK value.
Proof.
  revert c c'. induction keys as [|k rest IH]; intros c c' H; [done|].
  destruct rest as [|k2 rest].
  - rewrite set_path_last in H. destruct c; try done.
    injection H as <-. rewrite get_path_cons. simpl.
    by rewrite assoc_setitem.
  - rewrite set_path_inner in H. destruct c as [| | | | |kvs]; try done.
    destruct (set_path (k2 :: rest) value _) as [next'|] eqn:E;
      simpl in H; [|done].
    injection H as <-. rewrite get_path_cons. simpl.
    rewrite assoc_setitem. simpl. by eapply IH.
Qed.

Lemma set_path_frame (keys keys' : list string) (value c c' : pyval)
    (w : string) :
  set_path keys value c = OK c' ->
  get_path keys' c = OK (PStr w) ->
  ~ keys `prefix_of` keys' ->
  get_path keys' c' = OK (PStr w).
Proof.
  revert keys' c c'.
  induction keys as [|k rest IH]; intros keys' c c' Hs Hg Hp; [done|].
  destruct keys' as [|k' rest'].
  - (* the value at the root is a string: nothing can be stored below *)
    rewrite get_path_nil in Hg. injection Hg as ->.
    destruct rest; [by rewrite set_path_last in Hs|].
    by rewrite set_path_inner in Hs.
  - rewrite get_path_cons in Hg.
    destruct c as [| | | | |kvs]; try done. simpl in Hg.
    destruct (assoc k' kvs) as [x|] eqn:Ea; [|done]. simpl in Hg.
    destruct (decide (k = k')) as [->|Hne].
    + destruct rest as [|k2 rest].
      * exfalso. apply Hp. by exists rest'.
      * rewrite set_path_inner, Ea in Hs.
        destruct (set_path (k2 :: rest) value x) as [next'|] eqn:E;
          simpl in Hs; [|done].
        injection Hs as <-. rewrite get_path_cons. simpl.
        rewrite assoc_setitem. simpl.
        apply (IH rest' x next' E Hg).
        intros [more ->]. apply Hp. by exists more.
    + assert (exists kvs', c' = PDict kvs' /\ assoc k' kvs' = Some x)
        as (kvs' & -> & Ea').
      { destruct rest as [|k2 rest].
        - rewrite set_path_last in Hs. injection Hs as <-.
          eexists. split; [done|]. by rewrite assoc_setitem_ne.
        - rewrite set_path_inner in Hs.
          destruct (set_path (k2 :: rest) value _) as [next'|];
            simpl in Hs; [|done].
          injection Hs as <-. eexists. split; [done|].
          by rewrite assoc_setitem_ne. }
      rewrite get_path_cons. simpl. by rewrite Ea'.
Qed.

Lemma pyval_ind' (P : pyval -> Prop) :
  P PNone -> (forall b, P (PBool b)) -> (forall z, P (PInt z)) ->
  (forall s, P (PStr s)) ->
  (forall l, Forall P l -> P (PList l)) ->
  (forall kvs, Forall (fun kv => P (snd kv)) kvs -> P (PDict kvs)) ->
  forall v, P v.
Proof.
  intros HN HB HI HS HL HD. fix IH 1.
  intros [|b|z|s|l|kvs]; [exact HN|apply HB|apply HI|apply HS| |].
  - apply HL. induction l as [|x l IHl]; constructor; [apply IH|exact IHl].
  - apply HD. induction kvs as [|[k x] kvs IHk]; constructor;
      [apply IH|exact IHk].
Qed.

Lemma split_all_app (a b : string) :
  split_all "." (a +:+ "." +:+ b) = split_all "." a ++ split_all "." b.
Proof.
  induction a as [|c a IH]; [done|].
  change (String c a +:+ "." +:+ b) with (String c (a +:+ "." +:+ b)).
  cbn [split_all]. destruct (Ascii.eqb c "."); [by rewrite IH|].
  rewrite IH. pose proof (split_all_nonempty "." a) as Hne.
  by destruct (split_all "." a).
Qed.

Lemma join_dots_cons (key k2 : string) (rest : list string) :
  join_dots (key :: k2 :: rest) = key +:+ "." +:+ join_dots (k2 :: rest).
Proof. done. Qed.

Lemma join_dots_split_all (s : string) : join_dots (split_all "." s) = s.
Proof.
  induction s as [|c s IH]; [done|]. simpl.
  pose proof (split_all_nonempty "." s) as Hne.
  destruct (Ascii.eqb c ".") eqn:E.
  - apply Ascii.eqb_eq in E as ->.
    destruct (split_all "." s) as [|f o]; [done|].
    rewrite join_dots_cons, IH. done.
  - destruct (split_all "." s) as [|f o]; [done|].
    destruct o as [|f2 o]; simpl in *; by rewrite <- IH.
Qed.

Lemma split_all_dotless (s : string) :
  has_char "." s = false -> split_all "." s = [s].
Proof.
  induction s as [|c s IH]; [done|]. simpl.
  intros [Hc Hs]%orb_false_iff. by rewrite Hc, IH.
Qed.

Lemma split_all_join_dots (keys : list string) :
  keys <> [] ->
  Forall (fun k => has_char "." k = false) keys ->
  split_all "." (join_dots keys) = keys.
Proof.
  induction keys as [|k rest IH]; [done|]. intros _ Hf.
  apply Forall_cons in Hf as [Hk Hrest].
  destruct rest as [|k2 rest]; [by apply split_all_dotless|].
  rewrite join_dots_cons, split_all_app, split_all_dotless by done.
  by rewrite IH.
Qed.

Lemma join_dots_app (l1 l2 : list string) :
  l1 <> [] -> l2 <> [] ->
  join_dots (l1 ++ l2) = join_dots l1 +:+ "." +:+ join_dots l2.
Proof.
  induction l1 as [|k rest IH]; [done|]. intros _ H2.
  destruct rest as [|k2 rest].
  - destruct l2; done.
  - change ((k :: k2 :: rest) ++ l2) with (k :: k2 :: (rest ++ l2)).
    rewrite !join_dots_cons.
    change (k2 :: rest ++ l2) with ((k2 :: rest) ++ l2).
    rewrite IH by done. by rewrite <- !append_assoc.
Qed.

(** The path of a key is a prefix of the path of another exactly when the
    other key is the key itself or continues it after a dot. *)
Lemma split_all_prefix (key key' : string) :
  split_all "." key `prefix_of` split_all "." key' <->
  key' = key \/ exists more, key' = key +:+ "." +:+ more.
Proof.
  split.
  - intros [m Hm]. destruct m as [|k m].
    + left. rewrite app_nil_r in Hm.
      by rewrite <- (join_dots_split_all key'), Hm, join_dots_split_all.
    + right. exists (join_dots (k :: m)).
      rewrite <- (join_dots_split_all key') at 1. rewrite Hm.
      rewrite join_dots_app, join_dots_split_all; [done| |done].
      apply split_all_nonempty.
  - intros [->|[more ->]]; [done|].
    rewrite split_all_app. by eexists.
Qed.

Lemma get_path_app (l1 l2 : list string) (c : pyval) :
  get_path (l1 ++ l2) c = (x ← get_path l1 c; get_path l2 x).
Proof.
  revert c. induction l1 as [|k l1 IH]; intros c.
  - by rewrite get_path_nil.
  - simpl app. rewrite !get_path_cons.
    destruct (subscript c k); simpl; [apply IH|done].
Qed.

Lemma del_dict_item_spec (keys : list string) :
  keys <> [] ->
  forall d,
    match get_path keys d with
    | Raise e => del_dict_item d keys = Raise e
    | OK _ =>
        exists kvs', del_dict_item d keys = OK (PDict kvs') /\
                     exists k, get_path keys (PDict kvs') = Raise (KeyError k)
    end.
Proof.
  induction keys as [|k rest IH]; [done|]. intros _ d.
  destruct rest as [|k2 rest].
  - rewrite get_path_cons, del_dict_item_last.
    destruct d as [| | | | |kvs]; try done. simpl.
    destruct (assoc k kvs) eqn:Ea; simpl; [|done].
    rewrite get_path_nil. eexists. split; [done|]. exists k.
    rewrite get_path_cons. simpl. by rewrite assoc_remove_key.
  - rewrite get_path_cons, del_dict_item_inner.
    destruct d as [| | | | |kvs]; try done. simpl.
    destruct (assoc k kvs) as [child|] eqn:Ea; simpl; [|done].
    specialize (IH ltac:(done) child).
    destruct (get_path (k2 :: rest) child) as [x|e]; [|by rewrite IH].
    destruct IH as (kvs' & -> & k0 & Hk0). simpl.
    destruct (length kvs' =? 0)%nat.
    + simpl. rewrite assoc_setitem. eexists. split; [done|]. exists k.
      rewrite get_path_cons. simpl. by rewrite assoc_remove_key.
    + eexists. split; [done|]. exists k0.
      rewrite get_path_cons. simpl. by rewrite assoc_setitem.
Qed.

Lemma assoc_remove_key_ne (k k' : string) (kvs : list (string * pyval)) :
  k <> k' -> assoc k' (remove_key k kvs) = assoc k' kvs.
Proof.
  intros Hne. induction kvs as [|[k0 v0] kvs IH]; [done|].
  unfold remove_key in *. simpl.
  destruct (String.eqb k0 k) eqn:E; simpl.
  - apply String.eqb_eq in E as ->.
    destruct (String.eqb k k') eqn:E'; [by apply String.eqb_eq in E'|done].
  - by rewrite IH.
Qed.

Lemma del_dict_item_frame (keys keys' : list string) (d d' : pyval)
    (w : string) :
  del_dict_item d keys = OK d' ->
  get_path keys' d = OK (PStr w) ->
  ~ keys `prefix_of` keys' ->
  get_path keys' d' = OK (PStr w).
Proof.
  revert keys' d d'.
  induction keys as [|k rest IH]; intros keys' d d' Hd Hg Hp; [done|].
  destruct keys' as [|k' rest'].
  - rewrite get_path_nil in Hg. injection Hg as ->.
    destruct rest; [by rewrite del_dict_item_last in Hd|].
    by rewrite del_dict_item_inner in Hd.
  - rewrite get_path_cons in Hg.
    destruct d as [| | | | |kvs]; try done. simpl in Hg.
    destruct (assoc k' kvs) as [x|] eqn:Ea; [|done]. simpl in Hg.
    destruct (decide (k = k')) as [->|Hne].
    + destruct rest as [|k2 rest].
      * exfalso. apply Hp. by exists rest'.
      * rewrite del_dict_item_inner in Hd. simpl in Hd. rewrite Ea in Hd.
        simpl in Hd.
        destruct (del_dict_item x (k2 :: rest)) as [child'|] eqn:E;
          simpl in Hd; [|done].
        assert (get_path rest' child' = OK (PStr w)) as Hg'.
        { apply (IH rest' x child' E Hg).
          intros [more ->]. apply Hp. by exists more. }
        destruct child' as [| | |s|l|kvs']; try done; simpl in Hd.
        -- (* the child is a string: nothing is read below it *)
           destruct (String.length s =? 0)%nat; simpl in Hd.
           ++ rewrite assoc_setitem in Hd. injection Hd as <-.
              destruct rest' as [|k3 rest']; [|by rewrite get_path_cons in Hg'].
              pose proof (del_dict_item_spec (k2 :: rest) ltac:(done) x) as Hs.
              destruct (get_path (k2 :: rest) x);
                [destruct Hs as (? & Hs & _)|]; by rewrite Hs in E.
           ++ injection Hd as <-. rewrite get_path_cons. simpl.
              by rewrite assoc_setitem.
        -- destruct rest' as [|k3 rest'];
             [by rewrite get_path_nil in Hg'|by rewrite get_path_cons in Hg'].
        -- destruct (length kvs' =? 0)%nat eqn:El; simpl in Hd.
           ++ apply Nat.eqb_eq in El. destruct kvs'; [|done].
              destruct rest' as [|k3 rest'];
                [by rewrite get_path_nil in Hg'|by rewrite get_path_cons in Hg'].
           ++ injection Hd as <-. rewrite get_path_cons. simpl.
              by rewrite assoc_setitem.
    + assert (exists kvs', d' = PDict kvs' /\ assoc k' kvs' = Some x)
        as (kvs' & -> & Ea').
      { destruct rest as [|k2 rest].
        - rewrite del_dict_item_last in Hd. simpl in Hd.
          destruct (assoc k kvs); [|done]. injection Hd as <-.
          eexists. split; [done|]. by rewrite assoc_remove_key_ne.
        - rewrite del_dict_item_inner in Hd. simpl in Hd.
          destruct (assoc k kvs) as [child|]; [|done]. simpl in Hd.
          destruct (del_dict_item child (k2 :: rest)) as [child'|];
            simpl in Hd; [|done].
          destruct (py_len child') as [len|]; simpl in Hd; [|done].
          destruct (len =? 0)%nat; simpl in Hd.
          + rewrite assoc_setitem in Hd. injection Hd as <-.
            eexists. split; [done|].
            by rewrite assoc_remove_key_ne, assoc_setitem_ne.
          + injection Hd as <-. eexists. split; [done|].
            by rewrite assoc_setitem_ne. }
      rewrite get_path_cons. simpl. by rewrite Ea'.
Qed.

Lemma build_items_dict (kvs : list (string * pyval)) (prefix : option string) :
  build_items (PDict kvs) prefix
  = flat_map
      (fun kv =>
         match snd kv with
         | PDict _ => build_items (snd kv) (Some (next_prefix prefix (fst kv)))
         | PStr s => [(next_prefix prefix (fst kv), s)]
         | _ => []
         end) kvs.
Proof. done. Qed.

#[local] Opaque build_items.

Lemma assoc_In (k : string) (x : pyval) (kvs : list (string * pyval)) :
  assoc k kvs = Some x -> In (k, x) kvs.
Proof.
  induction kvs as [|[k' v'] kvs IH]; [done|]. simpl.
  destruct (String.eqb k' k) eqn:E.
  - apply String.eqb_eq in E as ->. intros [= ->]. by left.
  - intros H. right. by apply IH.
Qed.

Lemma assoc_NoDup (k : string) (x : pyval) (kvs : list (string * pyval)) :
  NoDup (map fst kvs) -> In (k, x) kvs -> assoc k kvs = Some x.
Proof.
  induction kvs as [|[k' v'] kvs IH]; [done|]. simpl.
  intros [Hnot Hnd]%NoDup_cons [[= -> ->]|Hin].
  - by rewrite String.eqb_refl.
  - destruct (String.eqb k' k) eqn:E; [|by apply IH].
    apply String.eqb_eq in E as ->. exfalso. apply Hnot.
    apply list_elem_of_In. apply (in_map fst) in Hin. exact Hin.
Qed.

Lemma next_prefix_join (prefix : option string) (k : string)
    (keys : list string) :
  keys <> [] ->
  next_prefix (Some (next_prefix prefix k)) (join_dots keys)
  = next_prefix prefix (join_dots (k :: keys)).
Proof.
  destruct keys as [|k2 keys]; [done|]. intros _.
  rewrite join_dots_cons. destruct prefix as [p|]; [|done].
  unfold next_prefix.
  change (p +:+ "." +:+ k) with (p +:+ ("." +:+ k)).
  by rewrite !append_assoc.
Qed.

Lemma build_items_complete (keys : list string) :
  keys <> [] ->
  forall d prefix v,
    get_path keys d = OK (PStr v) ->
    In (next_prefix prefix (join_dots keys), v) (build_items d prefix).
Proof.
  induction keys as [|k rest IH]; [done|]. intros _ d prefix v Hg.
  rewrite get_path_cons in Hg. destruct d as [| | | | |kvs]; try done.
  simpl in Hg. destruct (assoc k kvs) as [x|] eqn:Ea; [|done]. simpl in Hg.
  rewrite build_items_dict. apply in_flat_map. exists (k, x).
  split; [by apply assoc_In|]. cbn [fst snd].
  destruct rest as [|k2 rest].
  - rewrite get_path_nil in Hg. injection Hg as ->. by left.
  - destruct x; try (by rewrite get_path_cons in Hg).
    rewrite <- next_prefix_join by done. by apply IH.
Qed.

Lemma build_items_sound (d : pyval) :
  forall prefix p v,
    dotless d = true ->
    In (p, v) (build_items d prefix) ->
    exists keys,
      keys <> [] /\ Forall (fun k => has_char "." k = false) keys /\
      p = next_prefix prefix (join_dots keys) /\
      get_path keys d = OK (PStr v).
Proof.
  induction d as [| | | | |kvs IH] using pyval_ind'; try done.
  intros prefix p v Hd Hin. simpl in Hd.
  apply andb_true_iff in Hd as [Hnd Hall].
  apply bool_decide_eq_true in Hnd.
  rewrite build_items_dict in Hin.
  apply in_flat_map in Hin as ([k x] & Hkx & Hin). simpl in Hin.
  pose proof (assoc_NoDup k x kvs Hnd Hkx) as Ea.
  rewrite forallb_forall in Hall. pose proof (Hall _ Hkx) as Hk.
  simpl in Hk. apply andb_true_iff in Hk as [Hdot Hx].
  apply negb_true_iff in Hdot.
  rewrite Forall_forall in IH.
  destruct x as [| | |s| |kvs']; try done.
  - destruct Hin as [[= <- <-]|[]]. exists [k].
    split; [done|]. split; [by constructor|]. split; [done|].
    rewrite get_path_cons. simpl. by rewrite Ea.
  - apply list_elem_of_In in Hkx.
    destruct (IH _ Hkx _ _ _ Hx Hin) as (keys & Hne & Hf & -> & Hg).
    exists (k :: keys). split; [done|]. split; [by constructor|].
    split; [by apply next_prefix_join|].
    rewrite get_path_cons. simpl. by rewrite Ea.
Qed.

Lemma set_path_below (keys more : list string) (value c x : pyval)
    (e : exn) :
  more <> [] ->
  get_path keys c = OK x ->
  set_path more value x = Raise e ->
  set_path (keys ++ more) value c = Raise e.
Proof.
  intros Hm. revert c. induction keys as [|k rest IH]; intros c Hg Hs.
  - rewrite get_path_nil in Hg. by injection Hg as ->.
  - rewrite get_path_cons in Hg. destruct c as [| | | | |kvs]; try done.
    simpl in Hg. destruct (assoc k kvs) as [y|] eqn:Ea; [|done].
    simpl in Hg. specialize (IH y Hg Hs).
    simpl app. destruct (rest ++ more) as [|k2 r] eqn:Er.
    + by apply app_eq_nil in Er as [_ ->].
    + by rewrite set_path_inner, Ea, IH.
Qed.

Lemma split_all_dotted (s : string) :
  has_char "." s = true -> exists k k2 rest, split_all "." s = k :: k2 :: rest.
Proof.
  induction s as [|c s IH]; [done|]. simpl.
  pose proof (split_all_nonempty "." s) as Hne.
  destruct (Ascii.eqb c "."); simpl.
  - intros _. destruct (split_all "." s) as [|f o]; [done|]. by eexists _, _, _.
  - intros H. destruct (IH H) as (k & k2 & rest & ->). by eexists _, _, _.
Qed.

(** ** Properties of the configuration store *)

(** X20: a value stored under a dotted key is read back under that key,
    the key is then contained, and the configuration has been written to
    the file: a [Config] created afterwards reads the same value. *)
Theorem Config_setitem_getitem (self self' : Config) (key : string)
    (value : pyval) :
  Config_setitem self key value = OK self' ->
  exists v,
    value = PStr v /\
    Config_getitem self' key = Returns v /\
    Config_contains self' key = OK true /\
    config_file self' = Some (config self') /\
    Config_getitem (Config_init (config_file self')) key = Returns v.
Proof.
  unfold Config_setitem. destruct value as [| | |v| |]; try done. simpl.
  destruct (set_path (split_all "." key) (PStr v) (config self)) as [c|] eqn:E;
    simpl; [|done].
  intros [= <-]. exists v. apply set_path_get_path in E.
  unfold Config_contains, Config_getitem. simpl. by rewrite E.
Qed.

(** X21: storing under a key changes no other readable key: a key that
    held a string before still holds it, unless it is the assigned key or
    continues the assigned key after a dot. *)
Theorem Config_setitem_other_keys (self self' : Config) (key key' : string)
    (value : pyval) (w : string) :
  Config_setitem self key value = OK self' ->
  Config_getitem self key' = Returns w ->
  key' <> key ->
  (forall more, key' <> key +:+ "." +:+ more) ->
  Config_getitem self' key' = Returns w.
Proof.
  unfold Config_setitem. destruct (negb (is_str value)); [done|].
  destruct (set_path (split_all "." key) value (config self)) as [c|] eqn:E;
    simpl; [|done].
  intros [= <-] Hg Hne Hbelow. unfold Config_getitem in *. simpl.
  destruct (get_path (split_all "." key') (config self)) as [[| | |s| |]|]
    eqn:Eg; try done.
  injection Hg as ->.
  rewrite (set_path_frame _ _ _ _ _ _ E Eg); [done|].
  intros [->|[more ->]]%split_all_prefix; [done|]. by eapply Hbelow.
Qed.

(** X22: nothing lives below a string.  When a key holds a string, a key
    that continues it after a dot can be neither read, tested, deleted nor
    assigned: reading and deleting raise a [TypeError], and so does the
    membership test, which catches a [KeyError] only; assigning raises a
    [TypeError], or an [AttributeError] when the continuation holds a
    further dot. *)
Theorem Config_below_a_string (self : Config) (key more v value : string) :
  Config_getitem self key = Returns v ->
  Config_getitem self (key +:+ "." +:+ more) = Raises TypeError /\
  Config_contains self (key +:+ "." +:+ more) = Raise TypeError /\
  Config_delitem self (key +:+ "." +:+ more) = Raise TypeError /\
  Config_setitem self (key +:+ "." +:+ more) (PStr value)
  = Raise (if has_char "." more then AttributeError else TypeError).
Proof.
  unfold Config_getitem at 1.
  destruct (get_path (split_all "." key) (config self)) as [[| | |s| |]|]
    eqn:Eg; try done.
  intros [= ->].
  assert (get_path (split_all "." (key +:+ "." +:+ more)) (config self)
          = Raise TypeError) as Hbelow.
  { rewrite split_all_app, get_path_app, Eg. simpl.
    pose proof (split_all_nonempty "." more).
    by destruct (split_all "." more). }
  split; [|split; [|split]].
  - unfold Config_getitem. by rewrite Hbelow.
  - unfold Config_contains, Config_getitem. by rewrite Hbelow.
  - unfold Config_delitem.
    pose proof (del_dict_item_spec _
                  (split_all_nonempty "." (key +:+ "." +:+ more))
                  (config self)) as Hd.
    rewrite Hbelow in Hd. by rewrite Hd.
  - unfold Config_setitem. cbn [is_str negb]. rewrite split_all_app.
    rewrite (set_path_below _ _ _ _ _
               (if has_char "." more then AttributeError else TypeError)
               (split_all_nonempty "." more) Eg); [done|].
    destruct (has_char "." more) eqn:Ed.
    + apply split_all_dotted in Ed as (k & k2 & rest & ->).
      by rewrite set_path_inner.
    + by rewrite split_all_dotless.
Qed.

(** X23: [del config[key]] raises exactly when following the key through
    the dicts raises, with the same exception; otherwise it removes what
    the key holds, a string or a whole dict, writes the file, and the key
    is no longer contained. *)
Theorem Config_delitem_spec (self : Config) (key : string) :
  (forall e, Config_delitem self key = Raise e <->
             Config_getitem self key = Raises e) /\
  (forall self', Config_delitem self key = OK self' ->
                 Config_contains self' key = OK false /\
                 config_file self' = Some (config self')).
Proof.
  pose proof (del_dict_item_spec _ (split_all_nonempty "." key) (config self))
    as Hd.
  unfold Config_delitem, Config_contains, Config_getitem.
  destruct (get_path (split_all "." key) (config self)) as [x|e0].
  - destruct Hd as (kvs' & -> & k & Hk). simpl. split.
    + intros e. split; [done|]. by destruct x.
    + intros self' [= <-]. simpl. by rewrite Hk.
  - rewrite Hd. simpl. split; [|done].
    intros e. split; by intros [= ->].
Qed.

(** X24: deleting a key changes no other readable key: a key that held a
    string before still holds it, unless it is the deleted key or
    continues the deleted key after a dot. *)
Theorem Config_delitem_other_keys (self self' : Config) (key key' : string)
    (w : string) :
  Config_delitem self key = OK self' ->
  Config_getitem self key' = Returns w ->
  key' <> key ->
  (forall more, key' <> key +:+ "." +:+ more) ->
  Config_getitem self' key' = Returns w.
Proof.
  unfold Config_delitem.
  destruct (del_dict_item (config self) (split_all "." key)) as [c|] eqn:E;
    simpl; [|done].
  intros [= <-] Hg Hne Hbelow. unfold Config_getitem in *. simpl.
  destruct (get_path (split_all "." key') (config self)) as [[| | |s| |]|]
    eqn:Eg; try done.
  injection Hg as ->.
  rewrite (del_dict_item_frame _ _ _ _ _ E Eg); [done|].
  intros [->|[more ->]]%split_all_prefix; [done|]. by eapply Hbelow.
Qed.

(** X25: over a configuration whose keys hold no dot, [items] yields
    exactly the readable keys with their values: a pair is yielded if and
    only if [config[key]] returns the value.  Every readable key is
    yielded whatever the keys hold. *)
Theorem Config_items_getitem (self : Config) (l : list (string * string)) :
  Config_items self = OK l ->
  (forall key v, Config_getitem self key = Returns v -> In (key, v) l) /\
  (dotless (config self) = true ->
   forall key v, In (key, v) l -> Config_getitem self key = Returns v).
Proof.
  unfold Config_items, Config_getitem.
  destruct (config self) as [| | | | |kvs] eqn:Ec; try done.
  intros [= <-]. split.
  - intros key v Hg.
    destruct (get_path (split_all "." key) (PDict kvs)) as [[| | |s| |]|]
      eqn:Eg; try done.
    injection Hg as ->.
    pose proof (build_items_complete _ (split_all_nonempty "." key)
                  (PDict kvs) None v Eg) as Hin.
    by rewrite join_dots_split_all in Hin.
  - intros Hd key v Hin.
    apply build_items_sound in Hin as (keys & Hne & Hf & -> & Hg); [|done].
    simpl. by rewrite split_all_join_dots, Hg.
Qed.

Lemma Config_setitem_getitem_witness :
  Config_getitem (Config_save example_config_moved) "storage.file_system.path"
  = Returns "/mnt" /\
  Config_getitem (Config_init (Some example_config_moved))
    "storage.file_system.path" = Returns "/mnt".
Proof.
  destruct (Config_setitem_getitem (Config_init (Some example_config))
              (Config_save example_config_moved)
              "storage.file_system.path" (PStr "/mnt") eq_refl)
    as (v & [= <-] & Hg & _ & _ & Hi).
  exact (conj Hg Hi).
Defined.

Lemma Config_setitem_other_keys_witness :
  Config_getitem (Config_save example_config_moved) "default.storage"
  = Returns "fs".
Proof.
  apply (Config_setitem_other_keys (Config_init (Some example_config))
           (Config_save example_config_moved)
           "storage.file_system.path" "default.storage" (PStr "/mnt") "fs");
    [reflexivity|reflexivity|discriminate|intros more; discriminate].
Defined.

Lemma Config_below_a_string_witness :
  Config_getitem (Config_init (Some example_config)) "default.storage.x"
  = Raises TypeError /\
  Config_contains (Config_init (Some example_config)) "default.storage.x"
  = Raise TypeError /\
  Config_delitem (Config_init (Some example_config)) "default.storage.x"
  = Raise TypeError /\
  Config_setitem (Config_init (Some example_config)) "default.storage.x"
    (PStr "y") = Raise TypeError.
Proof.
  apply (Config_below_a_string (Config_init (Some example_config))
           "default.storage" "x" "fs" "y").
  reflexivity.
Defined.

Lemma Config_delitem_other_keys_witness :
  Config_getitem
    (Config_save (PDict [("default", PDict [("storage", PStr "fs")])]))
    "default.storage" = Returns "fs".
Proof.
  apply (Config_delitem_other_keys (Config_init (Some example_config))
           (Config_save (PDict [("default", PDict [("storage", PStr "fs")])]))
           "storage.file_system.path" "default.storage" "fs");
    [reflexivity|reflexivity|discriminate|intros more; discriminate].
Defined.

Lemma Config_items_getitem_witness :
  (forall key v,
     Config_getitem (Config_init (Some example_config)) key = Returns v ->
     In (key, v)
       [("default.storage", "fs"); ("storage.file_system.path", "/b")]) /\
  (dotless (config (Config_init (Some example_config))) = true ->
   forall key v,
     In (key, v)
       [("default.storage", "fs"); ("storage.file_system.path", "/b")] ->
     Config_getitem (Config_init (Some example_config)) key = Returns v).
Proof.
  apply (Config_items_getitem (Config_init (Some example_config))).
  reflexivity.
Defined.

(** Deleting the only key of a dict removes the dicts it empties, up to
    the root. *)
Example Config_delitem_prunes :
  Config_delitem (Config_init (Some example_config))
    "storage.file_system.path"
  = OK (Config_save (PDict [("default", PDict [("storage", PStr "fs")])])).
Proof. by vm_compute. Qed.

(** Deleting a key that holds a dict removes the dict with what it holds. *)
Example Config_delitem_subtree :
  Config_delitem (Config_init (Some example_config)) "storage"
  = OK (Config_save (PDict [("default", PDict [("storage", PStr "fs")])])).
Proof. by vm_compute. Qed.

(** A key that holds a dict is not contained, and reading it raises the
    [KeyError] without key. *)
Example Config_getitem_dict :
  Config_getitem (Config_init (Some example_config)) "storage"
  = RaisesBareKeyError /\
  Config_contains (Config_init (Some example_config)) "storage" = OK false.
Proof. by vm_compute. Qed.

Lemma remove_key_fresh (k : string) (kvs : list (string * pyval)) :
  assoc k kvs = None -> remove_key k kvs = kvs.
Proof.
  induction kvs as [|[k' v'] kvs IH]; [done|].
  unfold remove_key in *. simpl.
  destruct (String.eqb k' k); [done|]. intros H. simpl. by rewrite IH.
Qed.

Lemma remove_key_setitem (k : string) (x : pyval)
    (kvs : list (string * pyval)) :
  remove_key k (dict_setitem String.eqb k x kvs) = remove_key k kvs.
Proof.
  induction kvs as [|[k' v'] kvs IH]; unfold remove_key in *; simpl.
  - by rewrite String.eqb_refl.
  - destruct (String.eqb k' k) eqn:E; simpl; rewrite E; simpl; [done|].
    by rewrite IH.
Qed.

Lemma setitem_same (k : string) (x : pyval) (kvs : list (string * pyval)) :
  assoc k kvs = Some x -> dict_setitem String.eqb k x kvs = kvs.
Proof.
  induction kvs as [|[k' v'] kvs IH]; [done|]. simpl.
  destruct (String.eqb k' k); [by intros [= ->]|].
  intros H. by rewrite IH.
Qed.

Lemma setitem_setitem (k : string) (x y : pyval)
    (kvs : list (string * pyval)) :
  dict_setitem String.eqb k x (dict_setitem String.eqb k y kvs)
  = dict_setitem String.eqb k x kvs.
Proof.
  induction kvs as [|[k' v'] kvs IH]; simpl.
  - by rewrite String.eqb_refl.
  - destruct (String.eqb k' k) eqn:E; simpl; rewrite E; [done|].
    by rewrite IH.
Qed.

Lemma set_path_del_dict_item (keys : list string) :
  keys <> [] ->
  forall c k0 v,
    get_path keys c = Raise (KeyError k0) ->
    no_empty_dicts c = true ->
    exists c', set_path keys v c = OK c' /\ del_dict_item c' keys = OK c.
Proof.
  induction keys as [|k rest IH]; [done|]. intros _ c k0 v Hg Hne.
  rewrite get_path_cons in Hg. destruct c as [| | | | |kvs]; try done.
  simpl in Hg. destruct rest as [|k2 rest].
  - destruct (assoc k kvs) eqn:Ea; simpl in Hg;
      [by rewrite get_path_nil in Hg|].
    rewrite set_path_last. simpl. eexists. split; [done|].
    rewrite del_dict_item_last. simpl. rewrite assoc_setitem.
    by rewrite remove_key_setitem, remove_key_fresh.
  - rewrite set_path_inner.
    destruct (assoc k kvs) as [child|] eqn:Ea; simpl in Hg.
    + assert (is_empty_dict child = false /\ no_empty_dicts child = true)
        as [Hc1 Hc2].
      { simpl in Hne. rewrite forallb_forall in Hne.
        apply assoc_In, Hne in Ea. simpl in Ea.
        apply andb_true_iff in Ea as [?%negb_true_iff ?]. done. }
      destruct (IH ltac:(done) child k0 v Hg Hc2) as (next' & Hs & Hd).
      rewrite Hs. simpl. eexists. split; [done|].
      rewrite del_dict_item_inner. simpl. rewrite assoc_setitem. simpl.
      rewrite Hd. simpl. rewrite setitem_setitem, (setitem_same _ _ _ Ea).
      destruct child as [| | | | |kvs0];
        try (by rewrite get_path_cons in Hg).
      by destruct kvs0.
    + destruct (IH ltac:(done) (PDict []) k2 v) as (next' & Hs & Hd);
        [by rewrite get_path_cons|done|].
      rewrite Hs. simpl. eexists. split; [done|].
      rewrite del_dict_item_inner. simpl. rewrite assoc_setitem. simpl.
      rewrite Hd. simpl. rewrite assoc_setitem.
      by rewrite !remove_key_setitem, remove_key_fresh.
Qed.

(** X26: assigning a key whose path does not exist yet and deleting it
    again restores the configuration, the dicts created on the way
    included, provided no dict below the root is empty. *)
Theorem Config_setitem_delitem (self : Config) (key k0 v : string) :
  Config_getitem self key = Raises (KeyError k0) ->
  no_empty_dicts (config self) = true ->
  exists self' self'',
    Config_setitem self key (PStr v) = OK self' /\
    Config_delitem self' key = OK self'' /\
    config self'' = config self /\
    config_file self'' = Some (config self).
Proof.
  unfold Config_getitem, Config_setitem, Config_delitem. intros Hg Hne.
  destruct (get_path (split_all "." key) (config self)) as [[| | | | |]|e]
    eqn:Eg; try done.
  injection Hg as ->.
  destruct (set_path_del_dict_item _ (split_all_nonempty "." key) _ k0
              (PStr v) Eg Hne) as (c' & Hs & Hd).
  cbn [is_str negb]. rewrite Hs. simpl. eexists _, _. split; [done|].
  simpl. rewrite Hd. done.
Qed.

Lemma Config_setitem_delitem_witness :
  exists self' self'',
    Config_setitem (Config_init (Some example_config)) "storage.s3.bucket"
      (PStr "b") = OK self' /\
    Config_delitem self' "storage.s3.bucket" = OK self'' /\
    config self'' = config (Config_init (Some example_config)) /\
    config_file self''
    = Some (config (Config_init (Some example_config))).
Proof.
  apply (Config_setitem_delitem (Config_init (Some example_config))
           "storage.s3.bucket" "s3" "b"); reflexivity.
Defined.

(** With an empty dict on the way the configuration is not restored:
    the deletion removes the dict it finds empty. *)
Example Config_setitem_delitem_empty_dict :
  Config_getitem (Config_save (PDict [("a", PDict [])])) "a.b"
  = Raises (KeyError "b") /\
  (self' ← Config_setitem (Config_save (PDict [("a", PDict [])])) "a.b"
             (PStr "v");
   Config_delitem self' "a.b")
  = OK (Config_save (PDict [])).
Proof. by vm_compute. Qed.
